(** * PDF-text-to-Markdown reconstruction (pdfToMarkdown.js)

    A shallow embedding of [convertPdfToMarkdown] and [formatAsMarkdown]
    together with the JavaScript primitives they rely on (strings of UTF-16
    code units, backtracking regular expressions, insertion-ordered objects,
    the stable [Array.prototype.sort]), followed by the properties of the
    reconstruction engine. *)

From Stdlib Require Import String Ascii.
From Stdlib Require Import List ZArith NArith QArith Qround Qabs Bool Lia Lqa.
From Stdlib Require Import Sorting.Sorted Sorting.Permutation.
Import ListNotations.
Close Scope Q_scope.

Set Implicit Arguments.

(* ================================================================== *)
(** * JavaScript strings *)

Module JsString.

(** A JavaScript string is a sequence of UTF-16 code units. *)
Definition jsstring := list N.

(** ASCII literals of the source. *)
Definition lit (s : string) : jsstring :=
  map N_of_ascii (list_ascii_of_string s).

Definition NL : jsstring := [10%N].

Fixpoint eqb (a b : jsstring) : bool :=
  match a, b with
  | [], [] => true
  | x :: a', y :: b' => N.eqb x y && eqb a' b'
  | _, _ => false
  end.

(** Truthiness of a string: the empty string is the only falsy one. *)
Definition truthy (s : jsstring) : bool :=
  match s with [] => false | _ :: _ => true end.

Definition one_of (l : list N) (c : N) : bool := existsb (N.eqb c) l.

Definition between (lo hi c : N) : bool := (lo <=? c)%N && (c <=? hi)%N.

(** Line terminators: LF, CR, LS, PS. *)
Definition is_line_terminator : N -> bool := one_of [10; 13; 8232; 8233]%N.

(** The class [\s], which is also what [trim] strips: WhiteSpace and
    LineTerminator code units. *)
Definition is_ws (c : N) : bool :=
  one_of [9; 10; 11; 12; 13; 32; 160; 5760; 8232; 8233; 8239; 8287; 12288; 65279]%N c
  || between 8192 8202 c.

Definition is_digit : N -> bool := between 48 57.

Fixpoint trimStart (s : jsstring) : jsstring :=
  match s with
  | c :: s' => if is_ws c then trimStart s' else s
  | [] => []
  end.

Definition trimEnd (s : jsstring) : jsstring := rev (trimStart (rev s)).

Definition trim (s : jsstring) : jsstring := trimEnd (trimStart s).

Fixpoint startsWith (p s : jsstring) : bool :=
  match p, s with
  | [], _ => true
  | x :: p', y :: s' => N.eqb x y && startsWith p' s'
  | _ :: _, [] => false
  end.

Fixpoint includes (sub s : jsstring) : bool :=
  startsWith sub s
  || match s with
     | [] => false
     | _ :: s' => includes sub s'
     end.

(** [toLowerCase], as far as [includes('bold' | 'heavy' | 'black')] can see
    it: the code units whose lower-case mapping contains an ASCII letter
    are A-Z and the Kelvin sign U+212A (which lowers to k); U+0130 lowers
    to i followed by U+0307.  All other code units lower to non-ASCII
    text and are kept as they are. *)
Definition lower_unit (c : N) : jsstring :=
  if between 65 90 c then [c + 32]%N
  else if N.eqb c 8490 then [107]%N
  else if N.eqb c 304 then [105; 775]%N
  else [c].

Definition toLowerCase (s : jsstring) : jsstring := flat_map lower_unit s.

(** [s.split('\n')] for a one-unit separator. *)
Fixpoint split_on (sep : N) (cur : jsstring) (s : jsstring) : list jsstring :=
  match s with
  | [] => [rev cur]
  | c :: s' => if N.eqb c sep then rev cur :: split_on sep [] s'
               else split_on sep (c :: cur) s'
  end.

Definition split_lines (s : jsstring) : list jsstring := split_on 10%N [] s.

(** [parts.join(sep)]. *)
Fixpoint join (sep : jsstring) (parts : list jsstring) : jsstring :=
  match parts with
  | [] => []
  | [p] => p
  | p :: rest => p ++ sep ++ join sep rest
  end.

End JsString.
Import JsString.

(* ================================================================== *)
(** * Regular expressions

    The fragment of the JavaScript regular-expression language used by the
    converter: character classes, greedy and lazy quantifiers over a class,
    sequence, alternation, capture groups and the assertions [^] and [$].
    Matching is the backtracking search of the language definition, written
    in continuation-passing style. *)

Module Regex.

Inductive regex : Type :=
| Eps
| Chr (p : N -> bool)
| Rep (greedy : bool) (lo : nat) (hi : option nat) (p : N -> bool)
| Cat (r1 r2 : regex)
| Alt (r1 r2 : regex)
| Grp (n : nat) (r : regex)
| Bol (multiline : bool)
| Eol (multiline : bool).

(** Captures: group number and captured text, most recent first. *)
Definition caps := list (nat * jsstring).

(** A match result: the input left after the match, and the captures. *)
Definition mresult := option (jsstring * caps).

(** Continuations see the last consumed code unit (for [^]), the remaining
    input and the captures. *)
Definition cont := option N -> jsstring -> caps -> mresult.

Fixpoint cap (n : nat) (c : caps) : jsstring :=
  match c with
  | [] => []
  | (m, s) :: c' => if Nat.eqb n m then s else cap n c'
  end.

Definition at_bol (multiline : bool) (prev : option N) : bool :=
  match prev with
  | None => true
  | Some c => multiline && is_line_terminator c
  end.

Definition at_eol (multiline : bool) (s : jsstring) : bool :=
  match s with
  | [] => true
  | c :: _ => multiline && is_line_terminator c
  end.

Definition may_repeat (hi : option nat) : bool :=
  match hi with Some O => false | _ => true end.

Definition dec_hi (hi : option nat) : option nat :=
  match hi with Some n => Some (pred n) | None => None end.

(** [p{lo,hi}] and [p{lo,hi}?]: the greedy form tries one more code unit
    before it tries the continuation, the lazy form the other way round. *)
Fixpoint rep (greedy : bool) (p : N -> bool) (lo : nat) (hi : option nat)
         (prev : option N) (s : jsstring) (c : caps) (k : cont) {struct s} : mresult :=
  match lo with
  | S lo' =>
      match s with
      | x :: s' =>
          if p x && may_repeat hi
          then rep greedy p lo' (dec_hi hi) (Some x) s' c k
          else None
      | [] => None
      end
  | O =>
      match s with
      | x :: s' =>
          if p x && may_repeat hi then
            if greedy then
              match rep greedy p O (dec_hi hi) (Some x) s' c k with
              | Some res => Some res
              | None => k prev s c
              end
            else
              match k prev s c with
              | Some res => Some res
              | None => rep greedy p O (dec_hi hi) (Some x) s' c k
              end
          else k prev s c
      | [] => k prev s c
      end
  end.

Fixpoint rmatch (r : regex) (prev : option N) (s : jsstring) (c : caps) (k : cont)
  {struct r} : mresult :=
  match r with
  | Eps => k prev s c
  | Chr p =>
      match s with
      | x :: s' => if p x then k (Some x) s' c else None
      | [] => None
      end
  | Rep g lo hi p => rep g p lo hi prev s c k
  | Cat r1 r2 => rmatch r1 prev s c (fun prev' s' c' => rmatch r2 prev' s' c' k)
  | Alt r1 r2 =>
      match rmatch r1 prev s c k with
      | Some res => Some res
      | None => rmatch r2 prev s c k
      end
  | Grp n r1 =>
      rmatch r1 prev s c
        (fun prev' s' c' => k prev' s' ((n, firstn (length s - length s') s) :: c'))
  | Bol m => if at_bol m prev then k prev s c else None
  | Eol m => if at_eol m s then k prev s c else None
  end.

(** The continuation that ends a match. *)
Definition accept : cont := fun _ s' c => Some (s', c).

(** A match starting exactly at [s], [prev] being the code unit before it. *)
Definition match_at (r : regex) (prev : option N) (s : jsstring) : mresult :=
  rmatch r prev s [] accept.

Definition matched (s rest : jsstring) : jsstring :=
  firstn (length s - length rest) s.

(** Leftmost match at or after [s]: the captures of the first position
    where [match_at] succeeds ([regex.exec] with [lastIndex = 0]). *)
Fixpoint exec_from (r : regex) (prev : option N) (s : jsstring) : option (jsstring * caps) :=
  match match_at r prev s with
  | Some (rest, c) => Some (matched s rest, c)
  | None =>
      match s with
      | [] => None
      | x :: s' => exec_from r (Some x) s'
      end
  end.

Definition exec (r : regex) (s : jsstring) := exec_from r None s.

Definition test (r : regex) (s : jsstring) : bool :=
  match exec r s with Some _ => true | None => false end.

(** [s.replace(r, f)] for a global [r]: every match, left to right, the
    search resuming after the match (one unit further after an empty
    match).  [skip] counts the code units of the current match still to be
    dropped. *)
Fixpoint replace_from (r : regex) (f : jsstring -> caps -> jsstring)
         (skip : nat) (prev : option N) (s : jsstring) {struct s} : jsstring :=
  match skip with
  | S n =>
      match s with
      | x :: s' => replace_from r f n (Some x) s'
      | [] => []
      end
  | O =>
      match match_at r prev s with
      | Some (rest, c) =>
          let m := matched s rest in
          f m c ++
            match s with
            | [] => []
            | x :: s' =>
                match length m with
                | O => x :: replace_from r f O (Some x) s'
                | S n => replace_from r f n (Some x) s'
                end
            end
      | None =>
          match s with
          | [] => []
          | x :: s' => x :: replace_from r f O (Some x) s'
          end
      end
  end.

Definition replace_all (r : regex) (f : jsstring -> caps -> jsstring) (s : jsstring) : jsstring :=
  replace_from r f O None s.

(** [s.replace(r, f)] for a non-global [r]: the leftmost match only. *)
Fixpoint replace_first_from (r : regex) (f : jsstring -> caps -> jsstring)
         (prev : option N) (s : jsstring) {struct s} : jsstring :=
  match match_at r prev s with
  | Some (rest, c) => f (matched s rest) c ++ rest
  | None =>
      match s with
      | [] => []
      | x :: s' => x :: replace_first_from r f (Some x) s'
      end
  end.

Definition replace_first (r : regex) (f : jsstring -> caps -> jsstring) (s : jsstring) : jsstring :=
  replace_first_from r f None s.

(** [s.split(r)] for an [r] with one capture group: the pieces between the
    matches, each match contributing its captured text.  A match is tried
    at every position before the end of the input; an empty match splits
    unless it lies where the current piece starts. *)
Fixpoint split_from (r : regex) (skip : nat) (prev : option N) (cur : jsstring)
         (s : jsstring) {struct s} : list jsstring :=
  match s with
  | [] => [rev cur]
  | x :: s' =>
      match skip with
      | S n => split_from r n (Some x) cur s'
      | O =>
          match match_at r prev s with
          | Some (rest, c) =>
              match length (matched s rest), cur with
              | O, [] => split_from r O (Some x) [x] s'
              | O, _ :: _ => rev cur :: cap 1 c :: split_from r O (Some x) [x] s'
              | S n, _ => rev cur :: cap 1 c :: split_from r n (Some x) [] s'
              end
          | None => split_from r O (Some x) (x :: cur) s'
          end
      end
  end.

Definition split (r : regex) (s : jsstring) : list jsstring :=
  match s with
  | [] => match match_at r None [] with Some _ => [] | None => [[]] end
  | _ => split_from r O None [] s
  end.

(** Notation helpers for transcribing the source's patterns. *)
Definition just (c : N) : N -> bool := N.eqb c.
Definition none_of (ps : list (N -> bool)) (c : N) : bool :=
  negb (existsb (fun p => p c) ps).
Definition plus (p : N -> bool) : regex := Rep true 1 None p.
Definition star (p : N -> bool) : regex := Rep true 0 None p.
Definition opt (p : N -> bool) : regex := Rep true 0 (Some 1) p.
Definition lazy_plus (p : N -> bool) : regex := Rep false 1 None p.

Fixpoint seq (rs : list regex) : regex :=
  match rs with
  | [] => Eps
  | [r] => r
  | r :: rs' => Cat r (seq rs')
  end.

(** A literal such as [\*\*]. *)
Definition literal (s : jsstring) : regex := seq (map (fun c => Chr (just c)) s).

End Regex.
Import Regex.

(* ================================================================== *)
(** * Numbers

    The coordinates and font sizes of text items are finite doubles (a
    [transform] holds no NaN and no infinity); every finite double is a
    rational, and the operations the converter applies to them
    ([Math.round], [Math.abs], comparison with a constant, the sign of a
    difference) are exact on rationals. *)

Module JsNumber.

(** [Math.round]: the closest integer, a tie going towards +infinity. *)
Definition Math_round (q : Q) : Z := Qfloor (q + (1 # 2))%Q.

Definition Math_abs (q : Q) : Q := Qabs q.

(** [a < b] on numbers. *)
Definition ltb (a b : Q) : bool :=
  match (a ?= b)%Q with Lt => true | _ => false end.

End JsNumber.
Import JsNumber.

(* ================================================================== *)
(** * Ordinary objects used as maps

    Own properties in the order [Object.keys] and [Object.entries] list them:
    array-index keys first, in ascending numeric order, then every other key
    in creation order.  [index] tells which keys are array indices. *)

Module JsObject.

Section Obj.
Variables K V : Type.
Variable keq : K -> K -> bool.
Variable index : K -> option N.

Definition obj := list (K * V).

Fixpoint get (o : obj) (k : K) : option V :=
  match o with
  | [] => None
  | (k', v) :: o' => if keq k k' then Some v else get o' k
  end.

Fixpoint update (k : K) (v : V) (o : obj) : obj :=
  match o with
  | [] => []
  | (k', v') :: o' => if keq k k' then (k', v) :: o' else (k', v') :: update k v o'
  end.

Fixpoint add_index (i : N) (k : K) (v : V) (o : obj) : obj :=
  match o with
  | [] => [(k, v)]
  | (k', v') :: o' =>
      match index k' with
      | Some j => if (j <? i)%N then (k', v') :: add_index i k v o' else (k, v) :: o
      | None => (k, v) :: o
      end
  end.

Definition add (k : K) (v : V) (o : obj) : obj :=
  match index k with
  | Some i => add_index i k v o
  | None => o ++ [(k, v)]
  end.

(** [o[k] = v] *)
Definition set (k : K) (v : V) (o : obj) : obj :=
  match get o k with
  | Some _ => update k v o
  | None => add k v o
  end.

Definition keys (o : obj) : list K := map fst o.

Definition entries (o : obj) : list (K * V) := o.
End Obj.

(** Array indices among string keys: the canonical decimal numerals of
    0 .. 2^32 - 2. *)
Fixpoint digits_value (acc : N) (s : jsstring) : option N :=
  match s with
  | [] => Some acc
  | c :: s' => if is_digit c then digits_value (acc * 10 + (c - 48))%N s' else None
  end.

Definition array_index (s : jsstring) : option N :=
  match s with
  | [] => None
  | c :: s' =>
      if N.eqb c 48 && truthy s' then None
      else match digits_value 0%N s with
           | Some n => if (n <=? 4294967294)%N then Some n else None
           | None => None
           end
  end.

(** Names that [Object.prototype] defines: looking one of them up in an
    empty object does not give [undefined]. *)
Definition inherited (n : jsstring) : bool :=
  existsb (fun s => JsString.eqb n (lit s))
    ["constructor"; "__proto__"; "hasOwnProperty"; "isPrototypeOf";
     "propertyIsEnumerable"; "toLocaleString"; "toString"; "valueOf";
     "__defineGetter__"; "__defineSetter__"; "__lookupGetter__";
     "__lookupSetter__"]%string.

(** Array indices among number keys (the key is [String(z)]). *)
Definition number_index (z : Z) : option N :=
  if (0 <=? z)%Z && (z <=? 4294967294)%Z then Some (Z.to_N z) else None.

End JsObject.

(* ================================================================== *)
(** * [Array.prototype.sort]

    The sort is stable (ECMAScript 2019): elements the comparator calls
    equal keep their order.  The comparator's result is kept as its sign:
    [Lt] for a negative number, [Eq] for zero, [Gt] for a positive one. *)

Module JsArray.

Section Sort.
Variable A : Type.
Variable compareFn : A -> A -> comparison.

Fixpoint insert (a : A) (l : list A) : list A :=
  match l with
  | [] => [a]
  | b :: l' =>
      match compareFn a b with
      | Gt => b :: insert a l'
      | _ => a :: l
      end
  end.

Definition sort (l : list A) : list A := fold_right insert [] l.

(** The order the comparator calls "not after". *)
Definition notAfter (a b : A) : Prop := compareFn a b <> Gt.
End Sort.

Definition sign (z : Z) : comparison := (z ?= 0)%Z.
Definition signQ (q : Q) : comparison := (q ?= 0)%Q.

End JsArray.

(* ================================================================== *)
(** * The converter *)

Module PdfToMarkdown.

(** ** What the extraction library supplies *)

(** A text item of [textContent.items]: [str], [fontName] (possibly
    absent) and the entries 0, 4 and 5 of [transform]. *)
Record TextItem := {
  str : jsstring;
  item_fontName : option jsstring;
  transform0 : Q;
  transform4 : Q;
  transform5 : Q
}.

(** What [catch (error)] receives: [null] or [undefined], or any other
    thrown value, seen through its [message] property: a string, possibly
    empty, as for every [Error] object, or none when the value has no such
    property or a falsy one that is not a string.  (A value whose message
    is truthy and not a string is not modelled.) *)
Inductive Error : Type :=
| Nullish
| Thrown (message : option jsstring).

Inductive outcome (A : Type) : Type :=
| Returns (a : A)
| Throws (e : Error).
Arguments Returns {A} a.
Arguments Throws {A} e.

Definition bind {A B : Type} (c : outcome A) (k : A -> outcome B) : outcome B :=
  match c with
  | Returns a => k a
  | Throws e => Throws e
  end.

Notation "x <- c ;; k" := (bind c (fun x => k))
  (at level 61, c at next level, right associativity).

(** [pdf]: its [numPages], and for a page number the result of
    [getPage(pageNum)] followed by [getTextContent()]. *)
Record PDFDocument := {
  numPages : nat;
  getTextContent : nat -> outcome (list TextItem)
}.

(** [file]: its [name], and the result of [file.arrayBuffer()] followed by
    [pdfjsLib.getDocument({ data }).promise]. *)
Record File := {
  name : jsstring;
  getDocument : outcome PDFDocument
}.

Record Info := { pages : nat }.

(** The object the converter returns. *)
Inductive Result : Type :=
| Success (markdown originalName : jsstring) (pageCount : nat) (info : Info)
| Failure (error : jsstring).

(** ** First pass: the regular font *)

Record FontStat := { fs_fontName : jsstring; fs_fontSize : Q }.

(** [item.fontName || ''] *)
Definition fontNameOf (item : TextItem) : jsstring :=
  match item_fontName item with
  | Some n => n
  | None => []
  end.

Definition fontStat (item : TextItem) : FontStat :=
  {| fs_fontName := fontNameOf item; fs_fontSize := Math_abs (transform0 item) |}.

Definition fontObj := JsObject.obj jsstring nat.
Definition font_get := JsObject.get (V := nat) JsString.eqb.
Definition font_set := JsObject.set (V := nat) JsString.eqb JsObject.array_index.

(** One step of [allItems.forEach]: initialise a missing (or zero) count,
    then increment it.  The own properties of the object are modelled,
    which is what the code sees for every font name that [Object.prototype]
    does not define.  For a name it defines ([JsObject.inherited]) the
    code reads the inherited member first and counts from [NaN], and the
    comparator of the sort is then not consistent, so that the language
    leaves the order to the engine: these names are outside the model, and
    the theorems that depend on the counts exclude them by hypothesis. *)
Definition countFont (fontCounts : fontObj) (item : FontStat) : fontObj :=
  let n := fs_fontName item in
  let fontCounts1 :=
    match font_get fontCounts n with
    | Some (S _) => fontCounts
    | _ => font_set n 0 fontCounts
    end in
  match font_get fontCounts1 n with
  | Some c => font_set n (S c) fontCounts1
  | None => fontCounts1
  end.

Definition countFonts (allItems : list FontStat) : fontObj :=
  fold_left countFont allItems [].

(** [(a, b) => b[1] - a[1]] *)
Definition byCountDesc (a b : jsstring * nat) : comparison :=
  JsArray.sign (Z.of_nat (snd b) - Z.of_nat (snd a)).

Definition sortedFonts (allItems : list FontStat) : list (jsstring * nat) :=
  JsArray.sort byCountDesc (JsObject.entries (countFonts allItems)).

(** [sortedFonts[0]?.[0]]: [None] stands for [undefined]. *)
Definition regularFont (allItems : list FontStat) : option jsstring :=
  match sortedFonts allItems with
  | [] => None
  | (font, _) :: _ => Some font
  end.

(** ** Second pass: lines of a page *)

Record Run := {
  text : jsstring;
  x : Q;
  isBold : bool;
  isCitation : bool;
  fontSize : Q;
  fontName : jsstring
}.

(** [fontName !== regularFont] *)
Definition differs (fontName : jsstring) (regular : option jsstring) : bool :=
  match regular with
  | None => true
  | Some r => negb (JsString.eqb fontName r)
  end.

Definition isBoldFont (regular : option jsstring) (fontName : jsstring) : bool :=
  includes (lit "bold") (toLowerCase fontName)
  || includes (lit "heavy") (toLowerCase fontName)
  || includes (lit "black") (toLowerCase fontName)
  || (differs fontName regular && negb (JsString.eqb fontName [])).

(** [/^\d+$/] *)
Definition allDigits : regex := seq [Bol false; plus is_digit; Eol false].

Definition annotate (regular : option jsstring) (item : TextItem) : Run :=
  let fontSize := Math_abs (transform0 item) in
  let fontName := fontNameOf item in
  {| text := str item;
     x := transform4 item;
     isBold := isBoldFont regular fontName;
     isCitation := test allDigits (trim (str item)) && ltb fontSize (10 # 1);
     fontSize := fontSize;
     fontName := fontName |}.

Definition lineObj := JsObject.obj Z (list Run).
Definition line_get := JsObject.get (V := list Run) Z.eqb.
Definition line_set := JsObject.set (V := list Run) Z.eqb JsObject.number_index.

(** One step of [textContent.items.forEach]: [lines[y]] is created when
    missing and the run is pushed onto it. *)
Definition addItem (regular : option jsstring) (lines : lineObj) (item : TextItem) : lineObj :=
  let y := Math_round (transform5 item) in
  let lines1 :=
    match line_get lines y with
    | Some _ => lines
    | None => line_set y [] lines
    end in
  match line_get lines1 y with
  | Some l => line_set y (l ++ [annotate regular item]) lines1
  | None => lines1
  end.

Definition groupLines (regular : option jsstring) (items : list TextItem) : lineObj :=
  fold_left (addItem regular) items [].

(** [Object.keys(lines).map(Number).sort((a, b) => b - a)] *)
Definition sortedYs (lines : lineObj) : list Z :=
  JsArray.sort (fun a b => JsArray.sign (b - a)) (JsObject.keys lines).

(** [lines[y].sort((a, b) => a.x - b.x)] *)
Definition byX (a b : Run) : comparison := JsArray.signQ (x a - x b)%Q.

Definition lineItems (lines : lineObj) (y : Z) : list Run :=
  match line_get lines y with
  | Some l => JsArray.sort byX l
  | None => []
  end.

(** The lines of a page in the order they are rendered. *)
Definition assembleLines (regular : option jsstring) (items : list TextItem)
  : list (Z * list Run) :=
  let lines := groupLines regular items in
  map (fun y => (y, lineItems lines y)) (sortedYs lines).

(** One step of [lineItems.forEach]. *)
Definition appendRun (lineText : jsstring) (item : Run) : jsstring :=
  if isCitation item then lineText
  else if isBold item then lineText ++ lit "**" ++ text item ++ lit "**"
  else lineText ++ text item.

Definition renderLine (items : list Run) : jsstring :=
  fold_left appendRun items [].

(** One step of [sortedYs.forEach]: a line whose text trims to nothing is
    not added to the page. *)
Definition appendLine (pageText : jsstring) (line : Z * list Run) : jsstring :=
  let lineText := renderLine (snd line) in
  if truthy (trim lineText) then pageText ++ lineText ++ NL else pageText.

Definition renderPage (regular : option jsstring) (items : list TextItem) : jsstring :=
  fold_left appendLine (assembleLines regular items) [].

(** ** [formatAsMarkdown] *)

(** The running [markdown] text and the [inList] flag. *)
Record FmtState := { markdown : jsstring; inList : bool }.

(** [markdown += s] *)
Definition emit (st : FmtState) (s : jsstring) : FmtState :=
  {| markdown := markdown st ++ s; inList := inList st |}.

Definition setInList (st : FmtState) (b : bool) : FmtState :=
  {| markdown := markdown st; inList := b |}.

(** [if (inList) { markdown += '\n'; inList = false; }] *)
Definition endList (st : FmtState) : FmtState :=
  if inList st then setInList (emit st NL) false else st.

(** [•●○■□▪▫✓✗◆◇★☆➤➢⮞] *)
Definition bulletChars : N -> bool :=
  one_of [8226; 9679; 9675; 9632; 9633; 9642; 9643; 10003; 10007;
          9670; 9671; 9733; 9734; 10148; 10146; 11166]%N.

(** [new RegExp(bulletChars, 'g')], tested once from index 0. *)
Definition bulletRegex : regex := Chr bulletChars.

(** [new RegExp(`(${bulletChars})`)] *)
Definition bulletSplit : regex := Grp 1 (Chr bulletChars).

(** [new RegExp(`^${bulletChars}$`)] *)
Definition bulletOnly : regex := seq [Bol false; Chr bulletChars; Eol false].

(** [.]: any code unit but a line terminator. *)
Definition dot : N -> bool := none_of [is_line_terminator].

(** [/^([•●○■□▪▫✓✗◆◇★☆➤➢⮞]+|[-–—])\s+(.+)/] *)
Definition bulletStart : regex :=
  seq [Bol false;
       Grp 1 (Alt (plus bulletChars) (Chr (one_of [45; 8211; 8212]%N)));
       plus is_ws;
       Grp 2 (plus dot)].

(** Letters under the [i] flag: both cases of an ASCII letter. *)
Definition letter_ci (lo hi : N) (c : N) : bool :=
  between lo hi c || between (lo - 32) (hi - 32) c.

Definition one_of_ci (l : list N) (c : N) : bool :=
  one_of l c || one_of (map (fun a => a - 32)%N l) c.

(** [[\.\)]] *)
Definition dotOrParen : N -> bool := one_of [46; 41]%N.

(** [/^(\d+[\.\)]\s+|[a-z][\.\)]\s+|[ivxlcdm]+[\.\)]\s+)(.+)/i] *)
Definition numberedStart : regex :=
  seq [Bol false;
       Grp 1 (Alt (seq [plus is_digit; Chr dotOrParen; plus is_ws])
             (Alt (seq [Chr (letter_ci 97 122); Chr dotOrParen; plus is_ws])
                  (seq [plus (one_of_ci [105; 118; 120; 108; 99; 100; 109]%N);
                        Chr dotOrParen; plus is_ws])));
       Grp 2 (plus dot)].

(** [/\.pdf$/i] *)
Definition pdfExtension : regex :=
  seq [Chr (just 46); Chr (one_of_ci [112]%N); Chr (one_of_ci [100]%N);
       Chr (one_of_ci [102]%N); Eol false].

(** The [for] loop over [parts]: [before] is [parts[i - 1]], [skip] says
    that the previous iteration consumed this part as its list item. *)
Fixpoint bulletLoop (before : option jsstring) (skip : bool) (parts : list jsstring)
         (st : FmtState) (currentText : jsstring) {struct parts} : FmtState * jsstring :=
  match parts with
  | [] => (st, currentText)
  | p :: rest =>
      if skip then bulletLoop (Some p) false rest st currentText
      else
        let part := trim p in
        if negb (truthy part) then bulletLoop (Some p) false rest st currentText
        else if test bulletOnly part then
          let '(st1, currentText1) :=
            if truthy currentText
            then (emit (endList st) (currentText ++ NL), [])
            else (st, currentText) in
          match rest with
          | nextPart :: _ =>
              if truthy nextPart && truthy (trim nextPart)
              then bulletLoop (Some p) true rest
                     (setInList (emit st1 (lit "- " ++ trim nextPart ++ NL)) true)
                     currentText1
              else bulletLoop (Some p) false rest st1 currentText1
          | [] => bulletLoop (Some p) false rest st1 currentText1
          end
        else
          let afterBullet :=
            match before with
            | None => false
            | Some b => truthy b && test bulletOnly (trim b)
            end in
          if negb afterBullet
          then bulletLoop (Some p) false rest st (currentText ++ part ++ lit " ")
          else bulletLoop (Some p) false rest st currentText
  end.

(** The body of [lines.forEach]. *)
Definition formatLine (st : FmtState) (line : jsstring) : FmtState :=
  let trimmed := trim line in
  if negb (truthy trimmed) then emit (endList st) NL
  else if test bulletRegex trimmed then
    let parts := split bulletSplit trimmed in
    let '(st1, currentText) := bulletLoop None false parts st [] in
    if truthy (trim currentText)
    then emit (endList st1) (trim currentText ++ NL)
    else st1
  else
    match exec bulletStart trimmed with
    | Some (_, c) => setInList (emit st (lit "- " ++ cap 2 c ++ NL)) true
    | None =>
        match exec numberedStart trimmed with
        | Some (_, c) => setInList (emit st (lit "1. " ++ cap 2 c ++ NL)) true
        | None => emit (endList st) (trimmed ++ NL)
        end
    end.

Definition formatAsMarkdown (text fileName : jsstring) : jsstring :=
  let markdown0 :=
    lit "# " ++ replace_first pdfExtension (fun _ _ => []) fileName ++ NL ++ NL in
  let st := fold_left formatLine (split_lines text)
                      {| markdown := markdown0; inList := false |} in
  (* /\n{4,}/g *)
  replace_all (Rep true 4 None (just 10)) (fun _ _ => NL ++ NL) (markdown st).

(** ** Post-processing of the Markdown text *)

Definition star_c : N := 42%N.
Definition stars : regex := literal (lit "**").

(** [/\s+\d+\s*$/gm] to [''] *)
Definition stripEndOfLine : jsstring -> jsstring :=
  replace_all (seq [plus is_ws; plus is_digit; star is_ws; Eol true]) (fun _ _ => []).

(** [/\s+\d+\s+/g] to [' '] *)
Definition stripMidLine : jsstring -> jsstring :=
  replace_all (seq [plus is_ws; plus is_digit; plus is_ws]) (fun _ _ => lit " ").

(** [/\.\s*\d+\s/g] to ['. '] *)
Definition stripAfterPeriod : jsstring -> jsstring :=
  replace_all (seq [Chr (just 46); star is_ws; plus is_digit; Chr is_ws])
              (fun _ _ => lit ". ").

(** [/\*\*([^*\n]+)\*\*\s?\*\*([^*\n]+)\*\*/g] to ['**$1 $2**'] *)
Definition mergeOnce : jsstring -> jsstring :=
  replace_all
    (seq [stars; Grp 1 (plus (none_of [just star_c; just 10%N])); stars;
          opt is_ws;
          stars; Grp 2 (plus (none_of [just star_c; just 10%N])); stars])
    (fun _ c => lit "**" ++ cap 1 c ++ lit " " ++ cap 2 c ++ lit "**").

(** [for (let i = 0; i < 10; i++) { ...; if (before === cleaned) break; }] *)
Fixpoint mergeLoop (i : nat) (cleaned : jsstring) : jsstring :=
  match i with
  | O => cleaned
  | S i' =>
      let before := cleaned in
      let cleaned' := mergeOnce cleaned in
      if JsString.eqb before cleaned' then cleaned' else mergeLoop i' cleaned'
  end.

Definition mergeBold (markdown : jsstring) : jsstring :=
  join NL (map (mergeLoop 10) (split_lines markdown)).

(** [/(\S)\s+\*\*/g] to ['$1** '] *)
Definition moveSpace : jsstring -> jsstring :=
  replace_all (seq [Grp 1 (Chr (none_of [is_ws])); plus is_ws; stars])
              (fun _ c => cap 1 c ++ lit "** ").

(** [/\*\*\s*([^*]+?)\s*\*\*/g] with the trimming callback *)
Definition trimBold : jsstring -> jsstring :=
  replace_all
    (seq [stars; star is_ws; Grp 1 (lazy_plus (none_of [just star_c]));
          star is_ws; stars])
    (fun _ c =>
       let trimmed := trim (cap 1 c) in
       if truthy trimmed then lit "**" ++ trimmed ++ lit "**" else []).

(** [/\*\*\*\*/g] to [''] *)
Definition fourStars : regex := literal (lit "****").

Definition nothing : jsstring -> caps -> jsstring := fun _ _ => [].

Definition dropFourStars : jsstring -> jsstring := replace_all fourStars nothing.

(** [/\*\*\s*\*\*/g] to [''] *)
Definition dropEmptyBold : jsstring -> jsstring :=
  replace_all (seq [stars; star is_ws; stars]) (fun _ _ => []).

(** [/([^\s\n*])(\*\*[^\s*])/g] to ['$1 $2'] *)
Definition spaceBefore : jsstring -> jsstring :=
  replace_all
    (seq [Grp 1 (Chr (none_of [is_ws; just 10%N; just star_c]));
          Grp 2 (seq [stars; Chr (none_of [is_ws; just star_c])])])
    (fun _ c => cap 1 c ++ lit " " ++ cap 2 c).

(** Pass 6 of the clean-up, replaced by ['$1 $2']: group 1 is a code unit
    of [[^\s*]] followed by two stars, group 2 a code unit that is neither
    whitespace, a star, a newline nor one of [. , ; : ! ? ) ]]. *)
Definition spaceAfter : jsstring -> jsstring :=
  replace_all
    (seq [Grp 1 (seq [Chr (none_of [is_ws; just star_c]); stars]);
          Grp 2 (Chr (none_of [is_ws; just star_c;
                               one_of [46; 44; 59; 58; 33; 63; 41; 93; 10]%N]))])
    (fun _ c => cap 1 c ++ lit " " ++ cap 2 c).

(** [/  +/g] to [' '] *)
Definition blanks : regex := seq [Chr (just 32); plus (just 32)].

Definition oneBlank : jsstring -> caps -> jsstring := fun _ _ => lit " ".

Definition collapseSpaces : jsstring -> jsstring := replace_all blanks oneBlank.

(** The passes applied to [markdown] after [formatAsMarkdown], in order. *)
Definition passes : list (jsstring -> jsstring) :=
  [stripEndOfLine; stripMidLine; stripAfterPeriod; mergeBold; moveSpace;
   trimBold; dropFourStars; dropEmptyBold; spaceBefore; spaceAfter;
   collapseSpaces].

Definition postProcess (markdown : jsstring) : jsstring :=
  fold_left (fun md pass => pass md) passes markdown.

(** ** [convertPdfToMarkdown] *)

(** First [for] loop: [pageNum] runs over the [n] pages that remain. *)
Fixpoint collectItems (pdf : PDFDocument) (n pageNum : nat) (allItems : list FontStat)
  : outcome (list FontStat) :=
  match n with
  | O => Returns allItems
  | S n' =>
      items <- getTextContent pdf pageNum ;;
      collectItems pdf n' (S pageNum) (allItems ++ map fontStat items)
  end.

(** Second [for] loop. *)
Fixpoint renderPages (pdf : PDFDocument) (regular : option jsstring)
         (n pageNum : nat) (fullText : jsstring) : outcome jsstring :=
  match n with
  | O => Returns fullText
  | S n' =>
      items <- getTextContent pdf pageNum ;;
      let pageText := renderPage regular items in
      let fullText1 := if (1 <? pageNum)%nat then fullText ++ NL ++ NL else fullText in
      renderPages pdf regular n' (S pageNum) (fullText1 ++ pageText)
  end.

(** The [try] block. *)
Definition tryConvert (file : File) : outcome Result :=
  pdf <- getDocument file ;;
  allItems <- collectItems pdf (numPages pdf) 1 [] ;;
  let regular := regularFont allItems in
  fullText <- renderPages pdf regular (numPages pdf) 1 [] ;;
  if negb (truthy (trim fullText))
    then Throws (Thrown (Some (lit "No text content found in PDF")))
  else
    let markdown := postProcess (formatAsMarkdown fullText (name file)) in
    Returns (Success markdown
                     (replace_first pdfExtension (fun _ _ => lit ".md") (name file))
                     (numPages pdf)
                     {| pages := numPages pdf |}).

(** What the promise of the converter settles to: a result object, or the
    [TypeError] the engine raises where the [catch] block reads [message]
    of a thrown [null] or [undefined]. *)
Inductive Settled : Type :=
| Resolves (result : Result)
| Rejects.

(** [error.message || 'Failed to convert PDF to markdown'] *)
Definition reported (message : option jsstring) : jsstring :=
  match message with
  | Some m => if truthy m then m else lit "Failed to convert PDF to markdown"
  | None => lit "Failed to convert PDF to markdown"
  end.

Definition convertPdfToMarkdown (file : File) : Settled :=
  match tryConvert file with
  | Returns result => Resolves result
  | Throws Nullish => Rejects
  | Throws (Thrown message) => Resolves (Failure (reported message))
  end.

End PdfToMarkdown.
Import PdfToMarkdown.

(* ================================================================== *)
(** * Reference notions

    Definitions that follow the wording of the design document, to be
    compared with what the code computes, and the notions in which the
    properties below are stated. *)

Module Spec.

(** The blocks of the data model and their rendering to text. *)
Inductive Block : Type :=
| Paragraph (text : jsstring)
| BulletItem (text : jsstring)
| NumberedItem (text : jsstring)
| Blank.

Definition renderBlock (b : Block) : jsstring :=
  match b with
  | Paragraph t => t
  | BulletItem t => lit "- " ++ t
  | NumberedItem t => lit "1. " ++ t
  | Blank => []
  end.

(** Each block is one line of the page text. *)
Definition renderBlocks (bs : list Block) : jsstring :=
  flat_map (fun b => renderBlock b ++ NL) bs.

(** Rounding to the nearest integer, a tie going away from zero. *)
Definition round_half_away_from_zero (q : Q) : Z :=
  (Z.sgn (Qnum q) * Qfloor (Qabs q + (1 # 2))%Q)%Z.

Definition idempotent (f : jsstring -> jsstring) : Prop :=
  forall s, f (f s) = f s.

(** Number of occurrences of a font name. *)
Definition occurrences (f : jsstring) (names : list jsstring) : nat :=
  List.length (filter (JsString.eqb f) names).

Definition maximal (names : list jsstring) (f : jsstring) : bool :=
  forallb (fun g => occurrences g names <=? occurrences f names)%nat names.

(** The most frequent font name, the earliest seen among equally frequent
    ones. *)
Definition first_seen_max (names : list jsstring) : option jsstring :=
  find (maximal names) names.

(** A run as it would be rendered if citations were not filtered. *)
Definition unfiltered (r : Run) : Run :=
  {| text := text r; x := x r; isBold := isBold r; isCitation := false;
     fontSize := fontSize r; fontName := fontName r |}.

Definition renderPageUnfiltered (regular : option jsstring) (items : list TextItem)
  : jsstring :=
  fold_left appendLine
    (map (fun line => (fst line, map unfiltered (snd line)))
         (assembleLines regular items)) [].

(** Citation filtering leaves the page's sequence of output lines as it
    would be without filtering. *)
Definition filtering_preserves_lines (regular : option jsstring)
           (items : list TextItem) : Prop :=
  List.length (split_lines (renderPage regular items))
  = List.length (split_lines (renderPageUnfiltered regular items)).

(** The object holds the number of occurrences of every name seen. *)
Definition counted (fc : fontObj) (names : list jsstring) : Prop :=
  forall f, font_get fc f
            = match occurrences f names with
              | O => None
              | S c => Some (S c)
              end.

(** The number of stars a text starts with, and text free of four stars in
    a row. *)
Fixpoint leading_stars (s : jsstring) : nat :=
  match s with
  | a :: s' => if N.eqb 42 a then S (leading_stars s') else O
  | [] => O
  end.

Fixpoint no_four_stars (s : jsstring) : bool :=
  match s with
  | _ :: s' => (leading_stars s <? 4)%nat && no_four_stars s'
  | [] => true
  end.

(** Text without leading blanks, and text free of two blanks in a row. *)
Fixpoint drop_spaces (s : jsstring) : jsstring :=
  match s with
  | c :: s' => if N.eqb 32 c then drop_spaces s' else s
  | [] => []
  end.

Definition starts_space (s : jsstring) : bool :=
  match s with
  | c :: _ => N.eqb 32 c
  | [] => false
  end.

Fixpoint no_double_space (s : jsstring) : bool :=
  match s with
  | c :: s' => negb (N.eqb 32 c && starts_space s') && no_double_space s'
  | [] => true
  end.

End Spec.
Import Spec.

(* ================================================================== *)
(** * Sample inputs *)

Module Samples.

Definition bullet : jsstring := [8226%N].

Definition item (s : string) (font : string) (size x y : Q) : TextItem :=
  {| str := lit s; item_fontName := Some (lit font);
     transform0 := size; transform4 := x; transform5 := y |}.

(** A page whose only run is a small-font reference number. *)
Definition citation_page : list TextItem :=
  [item "12" "g_d0_f1" (8 # 1) (72 # 1) (700 # 1)].

(** A run whose baseline lies half-way between two integers below zero. *)
Definition low_run : TextItem := item "note" "g_d0_f1" (12 # 1) (72 # 1) (- 5 # 2).

(** Two runs on one visual line with jittering baselines, and a third
    run on the line below. *)
Definition jitter_page : list TextItem :=
  [item "world" "g_d0_f1" (12 # 1) (120 # 1) (7001 # 10);
   item "Hello " "g_d0_f1" (12 # 1) (72 # 1) (6998 # 10);
   item "next" "g_d0_f1" (12 # 1) (72 # 1) (685 # 1)].

(** Two fonts used once each, named by numerals, the larger one first. *)
Definition numeral_fonts : list FontStat :=
  [fontStat (item "a" "2" (12 # 1) (72 # 1) (700 # 1));
   fontStat (item "b" "1" (12 # 1) (90 # 1) (700 # 1))].

(** Two fonts used twice each. *)
Definition tied_fonts : list FontStat :=
  [fontStat (item "a" "g_d0_f2" (12 # 1) (72 # 1) (700 # 1));
   fontStat (item "b" "g_d0_f1" (12 # 1) (90 # 1) (700 # 1));
   fontStat (item "c" "g_d0_f1" (12 # 1) (72 # 1) (680 # 1));
   fontStat (item "d" "g_d0_f2" (12 # 1) (90 # 1) (680 # 1))].

(** The file doc.pdf with one page that holds one run, the line
    "Intro text • bullet one • bullet two". *)
Definition bullets_file : File :=
  {| name := lit "doc.pdf";
     getDocument :=
       Returns
         {| numPages := 1;
            getTextContent := fun _ =>
              Returns
                [{| str := lit "Intro text " ++ bullet ++ lit " bullet one "
                           ++ bullet ++ lit " bullet two";
                    item_fontName := Some (lit "g_d0_f1");
                    transform0 := 12 # 1; transform4 := 72 # 1;
                    transform5 := 700 # 1 |}] |} |}.

(** A document with no page. *)
Definition empty_pdf : PDFDocument :=
  {| numPages := 0; getTextContent := fun _ => Returns [] |}.

(** The Markdown text that [formatAsMarkdown] makes of the one-line page
    text "See 1 2 3" of the file doc.pdf. *)
Definition numbers_markdown : jsstring :=
  formatAsMarkdown (lit "See 1 2 3" ++ NL) (lit "doc.pdf").


End Samples.
Import Samples.

(* ================================================================== *)
(** * Notions for the further properties *)

Module Shape.

(** The runs of a page whose rounded baseline is [y]. *)
Definition inBucket (y : Z) (item : TextItem) : bool :=
  (Math_round (transform5 item) =? y)%Z.

(** A two-page file: a heading and a paragraph on the first page, one line
    on the second. *)
Definition two_pages (p : nat) : list TextItem :=
  match p with
  | 1 => [item "Title" "g_d0_f2" (18 # 1) (72 # 1) (720 # 1);
          item "Some text" "g_d0_f1" (12 # 1) (72 # 1) (700 # 1);
          item "more text" "g_d0_f1" (12 # 1) (72 # 1) (686 # 1)]
  | _ => [item "The end" "g_d0_f1" (12 # 1) (72 # 1) (720 # 1)]
  end.

Definition two_page_file : File :=
  {| name := lit "Report.PDF";
     getDocument :=
       Returns {| numPages := 2; getTextContent := fun p => Returns (two_pages p) |} |}.

(** A file whose second page cannot be read. *)
Definition broken_pdf : PDFDocument :=
  {| numPages := 3;
     getTextContent := fun p =>
       match p with
       | 2 => Throws (Thrown (Some (lit "Invalid page request")))
       | _ => Returns (two_pages p)
       end |}.

Definition broken_file : File :=
  {| name := lit "broken.pdf"; getDocument := Returns broken_pdf |}.

(** A file whose content cannot be read, the read being rejected without a
    reason ([Promise.reject()]). *)
Definition unreadable_file : File :=
  {| name := lit "scan.pdf"; getDocument := Throws Nullish |}.

(** The value thrown by the first step of the extraction that throws:
    opening the document, then reading the pages in order. *)
Fixpoint firstThrownPage (pdf : PDFDocument) (n pageNum : nat) : option Error :=
  match n with
  | O => None
  | S n' =>
      match getTextContent pdf pageNum with
      | Throws e => Some e
      | Returns _ => firstThrownPage pdf n' (S pageNum)
      end
  end.

Definition firstThrown (file : File) : option Error :=
  match getDocument file with
  | Throws e => Some e
  | Returns pdf => firstThrownPage pdf (numPages pdf) 1
  end.

(** Whether a text starts with a code unit of a class. *)
Definition heads (p : N -> bool) (s : jsstring) : bool :=
  match s with
  | x :: _ => p x
  | [] => false
  end.

(** The code unit before the position reached after reading [d]. *)
Definition last_prev (prev : option N) (d : jsstring) : option N :=
  fold_left (fun _ x => Some x) d prev.

(** The longest prefix of code units of a class, and what follows it. *)
Fixpoint run (p : N -> bool) (s : jsstring) : jsstring :=
  match s with
  | x :: s' => if p x then x :: run p s' else []
  | [] => []
  end.

Fixpoint after (p : N -> bool) (s : jsstring) : jsstring :=
  match s with
  | x :: s' => if p x then after p s' else s
  | [] => []
  end.

(** The marker of a numbered line: digits, one ASCII letter, or letters of
    the roman numerals, in either case. *)
Definition romanLetters : N -> bool := one_of_ci [105; 118; 120; 108; 99; 100; 109]%N.

Definition numberMarker (d : jsstring) : bool :=
  truthy d
  && (forallb is_digit d
      || (Nat.eqb (List.length d) 1 && forallb (letter_ci 97 122) d)
      || forallb romanLetters d).

(** Non-empty white space. *)
Definition spaces (w : jsstring) : bool := truthy w && forallb is_ws w.

(** A digit or an ASCII letter: the units a marker is made of. *)
Definition marker_unit (c : N) : bool := is_digit c || letter_ci 97 122 c.

(** The text of a list item: it starts with a visible code unit and holds
    no bullet glyph. *)
Definition itemText (t : jsstring) : bool :=
  truthy t && negb (heads is_ws t) && negb (existsb bulletChars t).

(** [-], en dash, em dash. *)
Definition dash : N -> bool := one_of [45; 8211; 8212]%N.

(** The file name ends here with [.pdf], in either case of the letters. *)
Definition pdfSuffix (s : jsstring) : bool :=
  match s with
  | [a; b; c; d] =>
      just 46 a && one_of_ci [112]%N b && one_of_ci [100]%N c && one_of_ci [102]%N d
  | _ => false
  end.

(** The text and what is left of it after each of its code units. *)
Fixpoint tails (s : jsstring) : list jsstring :=
  s :: match s with
       | [] => []
       | _ :: s' => tails s'
       end.

(** The later state holds the text of the earlier one and more. *)
Definition extends (st st' : FmtState) : Prop :=
  exists out, markdown st' = markdown st ++ out.

(** [/\n{4,}/g] and its replacement. *)
Definition fourNewlines : regex := Rep true 4 None (just 10).

Definition squeeze (prev : option N) (s : jsstring) : jsstring :=
  replace_from fourNewlines (fun _ _ => NL ++ NL) 0 prev s.

(** No position of the text starts [n] code units of the class in a row. *)
Fixpoint no_run (p : N -> bool) (n : nat) (s : jsstring) : bool :=
  match s with
  | [] => true
  | _ :: s' => (List.length (run p s) <? n)%nat && no_run p n s'
  end.

(** The shapes the two list patterns look for at the start of a line: a
    dash and white space; a marker, a full stop or closing parenthesis and
    white space. *)
Definition dashShape (s : jsstring) : bool :=
  match s with
  | ds :: rest => dash ds && heads is_ws rest
  | [] => false
  end.

Definition sepShape (s : jsstring) : bool :=
  match s with
  | sep :: rest => dotOrParen sep && heads is_ws rest
  | [] => false
  end.

Definition numberedShape (s : jsstring) : bool :=
  (heads is_digit s && sepShape (after is_digit s))
  || (heads (letter_ci 97 122) s && sepShape (tl s))
  || (heads romanLetters s && sepShape (after romanLetters s)).

(** The text after the marker, separator and white space of a line of the
    numbered shape. *)
Definition numberedText (s : jsstring) : jsstring :=
  if heads is_digit s && sepShape (after is_digit s)
  then after is_ws (tl (after is_digit s))
  else if heads (letter_ci 97 122) s && sepShape (tl s)
       then after is_ws (tl (tl s))
       else after is_ws (tl (after romanLetters s)).

(** A trimmed line with bullet glyphs: the text before the first glyph, then
    each glyph with the text that follows it. *)
Definition glyphLine (s0 : jsstring) (items : list (N * jsstring)) : jsstring :=
  s0 ++ flat_map (fun it => fst it :: snd it) items.

Definition glyphParts (s0 : jsstring) (items : list (N * jsstring)) : list jsstring :=
  s0 :: flat_map (fun it => [[fst it]; snd it]) items.

Definition glyphItem (it : N * jsstring) : bool :=
  bulletChars (fst it) && negb (existsb bulletChars (snd it)).

Definition visible (it : N * jsstring) : bool := truthy (trim (snd it)).

(** The lines emitted for the items: one for each item with visible text. *)
Definition bulletLines (items : list (N * jsstring)) : jsstring :=
  flat_map (fun it => if visible it then lit "- " ++ trim (snd it) ++ NL else []) items.

(** The paragraph emitted for the text in front of the first glyph. *)
Definition flush (st : FmtState) (currentText : jsstring) : FmtState :=
  if truthy currentText then emit (endList st) (currentText ++ NL) else st.

(** A state of the segmenter with an open list. *)
Definition open_list : FmtState :=
  {| markdown := lit "- one" ++ NL; inList := true |}.

(** A line with text in front of three glyphs, the last one without text. *)
Definition goals_line : jsstring :=
  lit "  Goals: " ++ [8226%N] ++ lit " fast " ++ [9679%N] ++ lit " small " ++ [8226%N]
      ++ lit "  ".

End Shape.
Import Shape.

(* ================================================================== *)
(** * The viewer: reading a file

    [readFile] of the [App] component, on the part of the component state
    it writes; the state is the one after the [finally] block.  Two things
    come from outside and are arguments: the outcome of the [FileReader] of
    the Markdown branch (the text read, or nothing when reading fails), and
    the message of the [TypeError] the [catch] branch receives when the
    conversion rejects, which the language leaves to the engine. *)

Module App.

Record State := {
  markdown : jsstring;
  fileName : jsstring;
  error : jsstring;
  isLoading : bool;
  isPdf : bool
}.

Definition setMarkdown (st : State) (v : jsstring) : State :=
  {| markdown := v; fileName := fileName st; error := error st;
     isLoading := isLoading st; isPdf := isPdf st |}.

Definition setFileName (st : State) (v : jsstring) : State :=
  {| markdown := markdown st; fileName := v; error := error st;
     isLoading := isLoading st; isPdf := isPdf st |}.

Definition setError (st : State) (v : jsstring) : State :=
  {| markdown := markdown st; fileName := fileName st; error := v;
     isLoading := isLoading st; isPdf := isPdf st |}.

Definition setIsLoading (st : State) (v : bool) : State :=
  {| markdown := markdown st; fileName := fileName st; error := error st;
     isLoading := v; isPdf := isPdf st |}.

Definition setIsPdf (st : State) (v : bool) : State :=
  {| markdown := markdown st; fileName := fileName st; error := error st;
     isLoading := isLoading st; isPdf := v |}.

(** [s.endsWith(suffix)] *)
Definition endsWith (suffix s : jsstring) : bool := startsWith (rev suffix) (rev s).

Definition readFile (file : File) (readAsText : option jsstring)
           (typeErrorMessage : jsstring) (st : State) : State :=
  let lowered := toLowerCase (name file) in
  if negb (endsWith (lit ".md") lowered) && negb (endsWith (lit ".pdf") lowered)
  then setError st (lit "Please select a markdown (.md) or PDF (.pdf) file")
  else
    let st1 := setIsPdf (setFileName (setError st []) (name file))
                        (endsWith (lit ".pdf") lowered) in
    if endsWith (lit ".pdf") lowered then
      let st2 := setIsLoading st1 true in
      let st3 :=
        match convertPdfToMarkdown file with
        | Resolves (Success md originalName _ _) =>
            setFileName (setMarkdown st2 md) originalName
        | Resolves (Failure e) =>
            setError st2 (if truthy e then e else lit "Failed to convert PDF to markdown")
        | Rejects =>
            setError st2 (lit "Failed to convert PDF: " ++ typeErrorMessage)
        end in
      setIsLoading st3 false
    else
      match readAsText with
      | Some text => setMarkdown st1 text
      | None => setError st1 (lit "Error reading file")
      end.

(** [/\.md$/] *)
Definition mdExtension : regex :=
  seq [Chr (just 46); Chr (just 109); Chr (just 100); Eol false].

(** The file name [handleDownloadPdf] saves under:
    [fileName.replace(/\.md$/, '.pdf') || 'document.pdf']. *)
Definition pdfFileName (st : State) : jsstring :=
  let replaced := replace_first mdExtension (fun _ _ => lit ".pdf") (fileName st) in
  if truthy replaced then replaced else lit "document.pdf".

(** The file name [handleDownload] saves under:
    [fileName || 'converted-document.md']. *)
Definition downloadName (st : State) : jsstring :=
  if truthy (fileName st) then fileName st else lit "converted-document.md".

(** [handleClear] *)
Definition handleClear (st : State) : State :=
  setIsPdf (setError (setFileName (setMarkdown st []) []) []) false.

Definition initial : State :=
  {| markdown := []; fileName := []; error := []; isLoading := false; isPdf := false |}.

End App.

(* ================================================================== *)
(** * The log window

    The window arithmetic of the [LogAnalysis] component.  Sizes and
    positions are integers below 2^50: on them the products with 0.75,
    0.25, 3.5 and 0.5 are exact in double precision, and the quotient by
    3.5 is either an integer or at least 1/7 away from one, so that the
    rounded quotient has the ceiling of the exact one.  [maxWindow] is the
    value of [MAX_WINDOW_SIZE] the callback closed over. *)

Module LogAnalysis.

Definition Math_floor (q : Q) : Z := Qfloor q.
Definition Math_ceil (q : Q) : Z := Qceiling q.

Record Allocation := { inputTokens : Z; outputTokens : Z }.

Definition getTokenAllocation (contextSize : Z) : Allocation :=
  {| inputTokens := Math_floor (inject_Z contextSize * (75 # 100));
     outputTokens := Math_floor (inject_Z contextSize * (25 # 100)) |}.

Definition getMaxInputChars (tokens : Z) : Z :=
  Math_floor (inject_Z tokens * (35 # 10)).

Definition MAX_WINDOW_SIZE (maxContextWindow : Z) : Z :=
  getMaxInputChars (inputTokens (getTokenAllocation maxContextWindow)).

(** [s.slice(start, end)] *)
Definition slice (s : jsstring) (start end_ : Z) : jsstring :=
  let len := Z.of_nat (List.length s) in
  let from := if (start <? 0)%Z then Z.max (len + start) 0 else Z.min start len in
  let to := if (end_ <? 0)%Z then Z.max (len + end_) 0 else Z.min end_ len in
  firstn (Z.to_nat (to - from)) (skipn (Z.to_nat from) s).

Definition getWindowedText (logText : jsstring) (windowStart maxWindow : Z) : jsstring :=
  let trimmedText := trim logText in
  let end_ := Z.min (windowStart + maxWindow) (Z.of_nat (List.length trimmedText)) in
  slice trimmedText windowStart end_.

Definition moveWindow (direction logText : jsstring) (maxWindow windowStart : Z) : Z :=
  let trimmedText := trim logText in
  let maxStart := Z.max 0 (Z.of_nat (List.length trimmedText) - maxWindow) in
  if JsString.eqb direction (lit "start") then 0%Z
  else if JsString.eqb direction (lit "end") then maxStart
  else if JsString.eqb direction (lit "prev") then Z.max 0 (windowStart - maxWindow)
  else if JsString.eqb direction (lit "next") then Z.min maxStart (windowStart + maxWindow)
  else windowStart.

(** [Math.ceil(windowedLog.length / 3.5)] *)
Definition estimatedInputTokens (windowedLog : jsstring) : Z :=
  Math_ceil (inject_Z (Z.of_nat (List.length windowedLog)) / (35 # 10)).

(** The output tokens [attemptAnalysis] asks for. *)
Definition outputTokensFor (contextSize : Z) (windowedLog : jsstring) : Z :=
  let allocation := getTokenAllocation contextSize in
  let estimated := estimatedInputTokens windowedLog in
  if (estimated <? inputTokens allocation)%Z then
    let remainingTokens := (contextSize - estimated)%Z in
    Z.min (Z.min (Math_floor (inject_Z remainingTokens * (5 # 10)))
                 (outputTokens allocation * 2))
          (contextSize - estimated - 500)
  else outputTokens allocation.

End LogAnalysis.


(* ================================================================== *)
(** * The embedding at work *)

Example split_on_bullets :
  split bulletSplit (lit "Intro text " ++ bullet ++ lit " bullet one")
  = [lit "Intro text "; bullet; lit " bullet one"].
Proof. vm_compute. reflexivity. Qed.

Example numbered_line (st : FmtState) :
  formatLine st (lit "1. Step one")
  = {| markdown := markdown st ++ renderBlocks [NumberedItem (lit "Step one")];
       inList := true |}.
Proof. destruct st as [m i]. vm_compute. reflexivity. Qed.

Example paragraph_after_list (m : jsstring) :
  formatLine {| markdown := m; inList := true |} (lit "  Plain text ")
  = {| markdown := (m ++ NL) ++ renderBlocks [Paragraph (lit "Plain text")];
       inList := false |}.
Proof. vm_compute. reflexivity. Qed.

Example merge_two_bold_spans :
  mergeBold (lit "**Hello** **World**") = lit "**Hello World**".
Proof. vm_compute. reflexivity. Qed.

Example strip_trailing_citation :
  stripEndOfLine (lit "as shown 12" ++ NL ++ lit "next") = lit "as shown" ++ NL ++ lit "next".
Proof. vm_compute. reflexivity. Qed.

Example title_and_newlines :
  formatAsMarkdown (lit "abc" ++ NL ++ NL ++ NL ++ NL ++ NL ++ lit "def") (lit "doc.PDF")
  = lit "# doc" ++ NL ++ NL ++ lit "abc" ++ NL ++ NL ++ lit "def" ++ NL.
Proof. vm_compute. reflexivity. Qed.

Example small_number_is_citation :
  map isCitation (map (annotate None)
                      [item "12" "f" (8 # 1) 0 0; item "12" "f" (10 # 1) 0 0;
                       item " 7 " "f" (- 9 # 1) 0 0; item "1a" "f" (8 # 1) 0 0])
  = [true; false; true; false].
Proof. vm_compute. reflexivity. Qed.

Example regular_font_of_page :
  regularFont (map fontStat [item "a" "g_d0_f2" 1 0 0; item "b" "g_d0_f1" 1 0 0;
                             item "c" "g_d0_f1" 1 0 0])
  = Some (lit "g_d0_f1").
Proof. vm_compute. reflexivity. Qed.

(* ================================================================== *)
(** * Properties of the primitives *)

Section SortFacts.
Variable A : Type.
Variable compareFn : A -> A -> comparison.

Lemma insert_perm (a : A) (l : list A) :
  Permutation (JsArray.insert compareFn a l) (a :: l).
Proof.
  induction l as [|b l IH]; simpl.
  - apply Permutation_refl.
  - destruct (compareFn a b); try apply Permutation_refl.
    apply Permutation_trans with (b :: a :: l).
    + now apply perm_skip.
    + apply perm_swap.
Qed.

Lemma sort_perm (l : list A) : Permutation (JsArray.sort compareFn l) l.
Proof.
  induction l as [|a l IH]; simpl.
  - apply Permutation_refl.
  - eapply Permutation_trans; [apply insert_perm|now apply perm_skip].
Qed.

Lemma sort_In (l : list A) (a : A) : In a (JsArray.sort compareFn l) <-> In a l.
Proof.
  split; apply Permutation_in; [|apply Permutation_sym]; apply sort_perm.
Qed.

Hypothesis compare_asym : forall a b, compareFn a b = Gt -> compareFn b a <> Gt.

Lemma insert_sorted (a : A) (l : list A) :
  Sorted (JsArray.notAfter compareFn) l -> Sorted (JsArray.notAfter compareFn) (JsArray.insert compareFn a l).
Proof.
  induction l as [|b l IH]; simpl; intros Hs.
  - repeat constructor.
  - destruct (compareFn a b) eqn:E.
    + constructor; [assumption|]. constructor. unfold JsArray.notAfter. now rewrite E.
    + constructor; [assumption|]. constructor. unfold JsArray.notAfter. now rewrite E.
    + inversion Hs as [|? ? Hs' Hhd]; subst.
      constructor; [now apply IH|].
      destruct l as [|c l]; simpl.
      * constructor. now apply compare_asym.
      * destruct (compareFn a c); constructor;
          try (now apply compare_asym); now inversion Hhd.
Qed.

Lemma sort_sorted (l : list A) : Sorted (JsArray.notAfter compareFn) (JsArray.sort compareFn l).
Proof.
  induction l as [|a l IH]; simpl; [constructor|now apply insert_sorted].
Qed.
End SortFacts.

Section ObjectFacts.
Variables K V : Type.
Variable keq : K -> K -> bool.
Hypothesis keq_eq : forall a b, keq a b = true <-> a = b.

Local Abbreviation get := (JsObject.get keq).
Local Abbreviation update := (JsObject.update keq).
Local Abbreviation keys := (@JsObject.keys K V).

Lemma keq_refl (a : K) : keq a a = true.
Proof. now apply keq_eq. Qed.

Lemma keq_neq (a b : K) : a <> b -> keq a b = false.
Proof.
  intros Hn. destruct (keq a b) eqn:E; [|reflexivity].
  apply keq_eq in E. contradiction.
Qed.

Lemma get_None (o : JsObject.obj K V) (k : K) :
  get o k = None <-> ~ In k (keys o).
Proof.
  induction o as [|[k' v'] o IH]; simpl.
  - tauto.
  - destruct (keq k k') eqn:E.
    + apply keq_eq in E. subst. split; [discriminate|intros H; exfalso; auto].
    + rewrite IH. split.
      * intros H [H1|H1]; [subst; now rewrite keq_refl in E|auto].
      * intros H H1; auto.
Qed.

Lemma get_In (o : JsObject.obj K V) (k : K) (v : V) :
  get o k = Some v -> In (k, v) o.
Proof.
  induction o as [|[k' v'] o IH]; simpl; [discriminate|].
  destruct (keq k k') eqn:E.
  - apply keq_eq in E. intros H. injection H as ->. subst. now left.
  - intros H. right. now apply IH.
Qed.

Lemma In_get (o : JsObject.obj K V) (k : K) (v : V) :
  NoDup (keys o) -> In (k, v) o -> get o k = Some v.
Proof.
  induction o as [|[k' v'] o IH]; simpl; [tauto|].
  intros Hnd [H|H].
  - injection H as -> ->. now rewrite keq_refl.
  - inversion Hnd as [|? ? Hn Hnd']; subst.
    rewrite keq_neq; [now apply IH|].
    intros ->. apply Hn. change k' with (fst (k', v)). now apply in_map.
Qed.

Lemma keys_update (k : K) (v : V) (o : JsObject.obj K V) :
  keys (update k v o) = keys o.
Proof.
  induction o as [|[k' v'] o IH]; simpl; [reflexivity|].
  destruct (keq k k'); simpl; [reflexivity|]. f_equal. exact IH.
Qed.

Lemma get_update (k k' : K) (v : V) (o : JsObject.obj K V) :
  get (update k v o) k'
  = match get o k' with
    | Some v' => if keq k' k then Some v else Some v'
    | None => None
    end.
Proof.
  induction o as [|[k1 v1] o IH]; simpl; [reflexivity|].
  destruct (keq k k1) eqn:E; simpl.
  - apply keq_eq in E. subst k1.
    destruct (keq k' k); [reflexivity|].
    destruct (get o k'); reflexivity.
  - destruct (keq k' k1) eqn:E1.
    + apply keq_eq in E1. subst k1.
      rewrite keq_neq; [reflexivity|]. intros ->. now rewrite keq_refl in E.
    + exact IH.
Qed.

Variable index : K -> option N.

Local Abbreviation add := (JsObject.add index).
Local Abbreviation set := (JsObject.set keq index).

Lemma add_index_perm (i : N) (k : K) (v : V) (o : JsObject.obj K V) :
  Permutation (JsObject.add_index index i k v o) ((k, v) :: o).
Proof.
  induction o as [|[k' v'] o IH]; simpl.
  - apply Permutation_refl.
  - destruct (index k') as [j|]; [|apply Permutation_refl].
    destruct (j <? i)%N; [|apply Permutation_refl].
    apply Permutation_trans with ((k', v') :: (k, v) :: o).
    + now apply perm_skip.
    + apply perm_swap.
Qed.

Lemma add_perm (k : K) (v : V) (o : JsObject.obj K V) :
  Permutation (add k v o) ((k, v) :: o).
Proof.
  unfold JsObject.add. destruct (index k).
  - apply add_index_perm.
  - apply Permutation_sym. apply Permutation_cons_append.
Qed.

Lemma get_add_index (i : N) (k k' : K) (v : V) (o : JsObject.obj K V) :
  get o k = None ->
  get (JsObject.add_index index i k v o) k' = if keq k' k then Some v else get o k'.
Proof.
  induction o as [|[k1 v1] o IH]; simpl; intros Hg.
  - reflexivity.
  - destruct (keq k k1) eqn:E; [discriminate|].
    assert (Hstep : get ((k, v) :: (k1, v1) :: o) k'
                    = if keq k' k then Some v else get ((k1, v1) :: o) k')
      by reflexivity.
    destruct (index k1) as [j|]; [|exact Hstep].
    destruct (j <? i)%N; [|exact Hstep].
    simpl. destruct (keq k' k1) eqn:E1.
    + apply keq_eq in E1. subst k1.
      rewrite keq_neq; [reflexivity|]. intros ->. now rewrite keq_refl in E.
    + now apply IH.
Qed.

Lemma get_app_one (k k' : K) (v : V) (o : JsObject.obj K V) :
  get o k = None ->
  get (o ++ [(k, v)]) k' = if keq k' k then Some v else get o k'.
Proof.
  induction o as [|[k1 v1] o IH]; simpl; intros Hg.
  - reflexivity.
  - destruct (keq k k1) eqn:E; [discriminate|].
    destruct (keq k' k1) eqn:E1.
    + apply keq_eq in E1. subst k1.
      rewrite keq_neq; [reflexivity|]. intros ->. now rewrite keq_refl in E.
    + now apply IH.
Qed.

Lemma get_add (k k' : K) (v : V) (o : JsObject.obj K V) :
  get o k = None ->
  get (add k v o) k' = if keq k' k then Some v else get o k'.
Proof.
  unfold JsObject.add. destruct (index k).
  - apply get_add_index.
  - apply get_app_one.
Qed.

Lemma get_set (k k' : K) (v : V) (o : JsObject.obj K V) :
  get (set k v o) k' = if keq k' k then Some v else get o k'.
Proof.
  unfold JsObject.set. destruct (get o k) as [v0|] eqn:E.
  - rewrite get_update. destruct (keq k' k) eqn:E1.
    + apply keq_eq in E1. subst k'. now rewrite E.
    + destruct (get o k'); reflexivity.
  - now apply get_add.
Qed.

Lemma NoDup_keys_set (k : K) (v : V) (o : JsObject.obj K V) :
  NoDup (keys o) -> NoDup (keys (set k v o)).
Proof.
  intros Hnd. unfold JsObject.set. destruct (get o k) as [v0|] eqn:E.
  - now rewrite keys_update.
  - apply Permutation_NoDup with (k :: keys o).
    + apply Permutation_sym.
      change (k :: keys o) with (keys ((k, v) :: o)).
      apply Permutation_map. apply add_perm.
    + constructor; [now apply get_None|assumption].
Qed.

(** Replacing the value of a present key, seen from the values. *)
Lemma update_split (k : K) (v v0 : V) (o : JsObject.obj K V) :
  get o k = Some v0 ->
  exists o1 o2, o = o1 ++ (k, v0) :: o2 /\ update k v o = o1 ++ (k, v) :: o2.
Proof.
  induction o as [|[k1 v1] o IH]; simpl; [discriminate|].
  destruct (keq k k1) eqn:E.
  - apply keq_eq in E. subst k1. intros H. injection H as ->.
    exists [], o. split; reflexivity.
  - intros H. destruct (IH H) as (o1 & o2 & -> & Hu).
    exists ((k1, v1) :: o1), o2. rewrite Hu. split; reflexivity.
Qed.

End ObjectFacts.

(* ================================================================== *)
(** * Line assembly *)

Lemma Sorted_weaken (A : Type) (R R' : A -> A -> Prop) (l : list A) :
  (forall a b, R a b -> R' a b) -> Sorted R l -> Sorted R' l.
Proof.
  intros HR. induction 1 as [|a l Hs IH Hhd]; constructor; [assumption|].
  destruct Hhd; constructor. now apply HR.
Qed.

Lemma sorted_distinct_desc (l : list Z) :
  NoDup l -> Sorted (fun a b => (b <= a)%Z) l -> Sorted Z.gt l.
Proof.
  intros Hnd Hs. induction Hs as [|a l Hs IH Hhd]; constructor.
  - apply IH. now inversion Hnd.
  - inversion Hnd as [|? ? Hn _]; subst.
    destruct Hhd as [|b l Hab]; constructor.
    assert (a <> b) by (intros ->; apply Hn; now left). lia.
Qed.

Lemma desc_notAfter (a b : Z) :
  JsArray.notAfter (fun a b => JsArray.sign (b - a)) a b -> (b <= a)%Z.
Proof.
  unfold JsArray.notAfter, JsArray.sign. intros H.
  destruct (Z.compare_spec (b - a) 0); try lia. now elim H.
Qed.

Lemma desc_asym (a b : Z) :
  JsArray.sign (b - a) = Gt -> JsArray.sign (a - b) <> Gt.
Proof.
  unfold JsArray.sign. intros H1 H2.
  apply Z.compare_gt_iff in H1. apply Z.compare_gt_iff in H2. lia.
Qed.

Lemma sortedYs_desc (lines : lineObj) :
  NoDup (JsObject.keys lines) -> Sorted Z.gt (sortedYs lines).
Proof.
  intros Hnd. unfold sortedYs. apply sorted_distinct_desc.
  - eapply Permutation_NoDup; [apply Permutation_sym, sort_perm|exact Hnd].
  - eapply Sorted_weaken; [apply desc_notAfter|].
    apply sort_sorted. intros a b. apply desc_asym.
Qed.

Lemma byX_notAfter (a b : Run) : JsArray.notAfter byX a b -> (x a <= x b)%Q.
Proof.
  unfold JsArray.notAfter, byX, JsArray.signQ. intros H.
  apply Qle_alt in H. lra.
Qed.

Lemma byX_asym (a b : Run) : byX a b = Gt -> byX b a <> Gt.
Proof.
  unfold byX, JsArray.signQ. intros H1 H2.
  apply Qgt_alt in H1. apply Qgt_alt in H2. lra.
Qed.

Lemma lineItems_sorted (lines : lineObj) (y : Z) :
  Sorted (fun a b => (x a <= x b)%Q) (lineItems lines y).
Proof.
  unfold lineItems. destruct (line_get lines y); [|constructor].
  eapply Sorted_weaken; [apply byX_notAfter|].
  apply sort_sorted. apply byX_asym.
Qed.

Section GroupFacts.
Variable regular : option jsstring.

Lemma addItem_cases (lines : lineObj) (item : TextItem) :
  let y := Math_round (transform5 item) in
  let r := annotate regular item in
  addItem regular lines item
  = match line_get lines y with
    | Some l => JsObject.update Z.eqb y (l ++ [r]) lines
    | None => JsObject.update Z.eqb y [r]
                (JsObject.add JsObject.number_index y [] lines)
    end.
Proof.
  intros y r. unfold addItem. fold y. fold r.
  destruct (line_get lines y) as [l|] eqn:E.
  - rewrite E. unfold line_set, JsObject.set. unfold line_get in E. now rewrite E.
  - assert (Hnew : line_set y [] lines
                   = JsObject.add JsObject.number_index y [] lines).
    { unfold line_set, JsObject.set. unfold line_get in E. now rewrite E. }
    rewrite Hnew.
    assert (Hg : line_get (JsObject.add JsObject.number_index y [] lines) y = Some []).
    { unfold line_get.
      rewrite (get_add Z.eqb Z.eqb_eq JsObject.number_index); [|exact E].
      now rewrite Z.eqb_refl. }
    rewrite Hg. unfold line_set, JsObject.set.
    unfold line_get in Hg. now rewrite Hg.
Qed.

Lemma add_NoDup (lines : lineObj) (y : Z) (l : list Run) :
  line_get lines y = None ->
  NoDup (JsObject.keys lines) ->
  NoDup (JsObject.keys (JsObject.add JsObject.number_index y l lines)).
Proof.
  intros E Hnd.
  pose proof (NoDup_keys_set Z.eqb Z.eqb_eq JsObject.number_index y l lines Hnd) as H.
  unfold JsObject.set in H. unfold line_get in E. now rewrite E in H.
Qed.

Lemma addItem_NoDup (lines : lineObj) (item : TextItem) :
  NoDup (JsObject.keys lines) -> NoDup (JsObject.keys (addItem regular lines item)).
Proof.
  intros Hnd. rewrite addItem_cases. cbv zeta.
  destruct (line_get lines _) eqn:E; rewrite keys_update; [assumption|].
  now apply add_NoDup.
Qed.

(** The bucket of the new run gains it at its end; the other buckets are
    untouched. *)
Lemma addItem_get (lines : lineObj) (item : TextItem) (y' : Z) :
  line_get (addItem regular lines item) y'
  = if (y' =? Math_round (transform5 item))%Z
    then Some (match line_get lines y' with Some l => l | None => [] end
               ++ [annotate regular item])
    else line_get lines y'.
Proof.
  rewrite addItem_cases. cbv zeta. unfold line_get.
  destruct (JsObject.get Z.eqb lines (Math_round (transform5 item))) as [l|] eqn:E.
  - rewrite (get_update Z.eqb Z.eqb_eq).
    destruct (y' =? _)%Z eqn:E1.
    + apply Z.eqb_eq in E1. subst y'. now rewrite E.
    + destruct (JsObject.get Z.eqb lines y'); reflexivity.
  - rewrite (get_update Z.eqb Z.eqb_eq).
    rewrite (get_add Z.eqb Z.eqb_eq JsObject.number_index); [|exact E].
    destruct (y' =? _)%Z eqn:E1.
    + apply Z.eqb_eq in E1. subst y'. now rewrite E.
    + destruct (JsObject.get Z.eqb lines y'); reflexivity.
Qed.

Lemma concat_values_update (lines : lineObj) (y : Z) (l : list Run) (r : Run) :
  line_get lines y = Some l ->
  Permutation (concat (map snd (JsObject.update Z.eqb y (l ++ [r]) lines)))
              (concat (map snd lines) ++ [r]).
Proof.
  intros E.
  destruct (update_split Z.eqb Z.eqb_eq y (l ++ [r]) lines E) as (o1 & o2 & -> & ->).
  rewrite !map_app, !concat_app. simpl.
  rewrite <- !app_assoc. apply Permutation_app_head.
  apply Permutation_app_head.
  apply Permutation_app_comm.
Qed.

Lemma addItem_values (lines : lineObj) (item : TextItem) :
  Permutation (concat (map snd (addItem regular lines item)))
              (concat (map snd lines) ++ [annotate regular item]).
Proof.
  rewrite addItem_cases. cbv zeta.
  destruct (line_get lines _) as [l|] eqn:E.
  - now apply concat_values_update.
  - set (y := Math_round (transform5 item)) in *.
    set (lines1 := JsObject.add JsObject.number_index y [] lines).
    assert (Hg : line_get lines1 y = Some []).
    { unfold line_get, lines1.
      rewrite (get_add Z.eqb Z.eqb_eq JsObject.number_index); [|exact E].
      now rewrite Z.eqb_refl. }
    eapply Permutation_trans.
    + apply (concat_values_update lines1 y (annotate regular item) Hg).
    + apply Permutation_app_tail.
      rewrite <- !flat_map_concat_map.
      apply Permutation_trans with (flat_map snd ((y, []) :: lines)).
      * apply Permutation_flat_map. apply add_perm.
      * apply Permutation_refl.
Qed.

Lemma groupLines_from (items : list TextItem) (lines : lineObj) :
  NoDup (JsObject.keys lines) ->
  let out := fold_left (addItem regular) items lines in
  NoDup (JsObject.keys out)
  /\ Permutation (concat (map snd out))
                 (concat (map snd lines) ++ map (annotate regular) items)
  /\ (forall y l r, line_get lines y = Some l -> In r l ->
                    exists l', line_get out y = Some l' /\ In r l')
  /\ (forall item, In item items ->
                   exists l, line_get out (Math_round (transform5 item)) = Some l
                             /\ In (annotate regular item) l).
Proof.
  revert lines. induction items as [|item items IH]; intros lines Hnd; simpl.
  - repeat split.
    + assumption.
    + now rewrite app_nil_r.
    + intros y l r Hg Hin. now exists l.
    + intros item [].
  - destruct (IH (addItem regular lines item) (addItem_NoDup lines item Hnd))
      as (H1 & H2 & H3 & H4).
    assert (Hkeep : forall y l r, line_get lines y = Some l -> In r l ->
              exists l', line_get (addItem regular lines item) y = Some l' /\ In r l').
    { intros y l r Hg Hin. rewrite addItem_get, Hg.
      destruct (y =? _)%Z; eexists; split; try reflexivity.
      - apply in_or_app. now left.
      - assumption. }
    repeat split.
    + exact H1.
    + eapply Permutation_trans; [exact H2|].
      change (annotate regular item :: map (annotate regular) items)
        with ([annotate regular item] ++ map (annotate regular) items).
      rewrite app_assoc. apply Permutation_app_tail. apply addItem_values.
    + intros y l r Hg Hin.
      destruct (Hkeep y l r Hg Hin) as (l' & Hg' & Hin').
      exact (H3 y l' r Hg' Hin').
    + intros item' [->|Hin].
      * apply (H3 (Math_round (transform5 item'))
                  (match line_get lines (Math_round (transform5 item')) with
                   | Some l => l | None => [] end ++ [annotate regular item'])).
        -- rewrite addItem_get. now rewrite Z.eqb_refl.
        -- apply in_or_app. right. now left.
      * now apply H4.
Qed.

Lemma groupLines_NoDup (items : list TextItem) :
  NoDup (JsObject.keys (groupLines regular items)).
Proof.
  destruct (groupLines_from items [] (NoDup_nil Z))
    as (H & _). exact H.
Qed.

Lemma groupLines_values (items : list TextItem) :
  Permutation (concat (map snd (groupLines regular items)))
              (map (annotate regular) items).
Proof.
  destruct (groupLines_from items [] (NoDup_nil Z))
    as (_ & H & _). exact H.
Qed.

Lemma groupLines_get (items : list TextItem) (item : TextItem) :
  In item items ->
  exists l, line_get (groupLines regular items) (Math_round (transform5 item)) = Some l
            /\ In (annotate regular item) l.
Proof.
  destruct (groupLines_from items [] (NoDup_nil Z))
    as (_ & _ & _ & H). apply H.
Qed.

Lemma assembleLines_keys (items : list TextItem) :
  map fst (assembleLines regular items) = sortedYs (groupLines regular items).
Proof.
  unfold assembleLines. rewrite map_map. simpl. apply map_id.
Qed.

Lemma lineItems_perm (lines : lineObj) (y : Z) (l : list Run) :
  line_get lines y = Some l -> Permutation (lineItems lines y) l.
Proof.
  intros E. unfold lineItems. rewrite E. apply sort_perm.
Qed.

Lemma assembleLines_values (items : list TextItem) :
  Permutation (concat (map snd (assembleLines regular items)))
              (map (annotate regular) items).
Proof.
  eapply Permutation_trans; [|apply groupLines_values].
  set (lines := groupLines regular items).
  assert (Hnd : NoDup (JsObject.keys lines)) by apply groupLines_NoDup.
  unfold assembleLines. fold lines. rewrite map_map. simpl.
  rewrite <- !flat_map_concat_map.
  apply Permutation_trans with (flat_map (lineItems lines) (JsObject.keys lines)).
  - apply Permutation_flat_map. apply sort_perm.
  - assert (Hsub : forall es, (forall e, In e es -> In e lines) ->
              Permutation (flat_map (lineItems lines) (map fst es)) (flat_map snd es)).
    { induction es as [|[y l] es IHes]; intros Hin; simpl; [constructor|].
      apply Permutation_app.
      - apply lineItems_perm.
        apply (In_get Z.eqb Z.eqb_eq); [exact Hnd|].
        apply Hin. now left.
      - apply IHes. intros e He. apply Hin. now right. }
    apply Hsub. auto.
Qed.
End GroupFacts.

Lemma assembleLines_line (regular : option jsstring) (items : list TextItem)
      (y : Z) (l : list Run) :
  line_get (groupLines regular items) y = Some l ->
  In (y, JsArray.sort byX l) (assembleLines regular items).
Proof.
  intros E. set (lines := groupLines regular items) in *.
  assert (Hin : In y (sortedYs lines)).
  { unfold sortedYs. apply sort_In.
    apply (get_In Z.eqb Z.eqb_eq) in E.
    apply (in_map fst) in E. exact E. }
  assert (Hl : lineItems lines y = JsArray.sort byX l)
    by (unfold lineItems; now rewrite E).
  rewrite <- Hl. unfold assembleLines. fold lines.
  apply (in_map (fun y => (y, lineItems lines y))). exact Hin.
Qed.

Lemma same_key_same_line (regular : option jsstring) (items : list TextItem)
      (a b : TextItem) :
  In a items -> In b items ->
  Math_round (transform5 a) = Math_round (transform5 b) ->
  exists l, In (Math_round (transform5 a), l) (assembleLines regular items)
            /\ In (annotate regular a) l /\ In (annotate regular b) l.
Proof.
  intros Ha Hb Hk.
  destruct (groupLines_get regular items a Ha) as (la & Hga & Hia).
  destruct (groupLines_get regular items b Hb) as (lb & Hgb & Hib).
  rewrite <- Hk in Hgb. rewrite Hga in Hgb. injection Hgb as <-.
  exists (JsArray.sort byX la). split; [now apply assembleLines_line|].
  split; now apply sort_In.
Qed.

(** ** Rounding *)

Lemma Math_round_bounds (y : Q) :
  (inject_Z (Math_round y) - (1 # 2) <= y < inject_Z (Math_round y) + (1 # 2))%Q.
Proof.
  unfold Math_round.
  pose proof (Qfloor_le (y + (1 # 2))) as Hlo.
  pose proof (Qlt_floor (y + (1 # 2))) as Hhi.
  rewrite inject_Z_plus in Hhi. change (inject_Z 1) with 1%Q in Hhi.
  split; lra.
Qed.

Lemma Math_round_nonneg (y : Q) :
  (0 <= y)%Q -> Math_round y = round_half_away_from_zero y.
Proof.
  destruct y as [n d]. unfold Qle. simpl. rewrite Z.mul_1_r. intros Hn.
  unfold round_half_away_from_zero, Math_round, Qabs. simpl Qnum.
  rewrite (Z.abs_eq n Hn).
  destruct (Z.eq_dec n 0) as [->|Hne].
  - simpl Z.sgn. rewrite Z.mul_0_l.
    unfold Qfloor, Qplus. simpl. rewrite Z.div_small; [reflexivity|lia].
  - rewrite (Z.sgn_pos n) by lia. now rewrite Z.mul_1_l.
Qed.

(** ** Rendering of a line *)

Lemma fold_appendRun_filter (l : list Run) (acc : jsstring) :
  fold_left appendRun l acc
  = fold_left appendRun (filter (fun r => negb (isCitation r)) l) acc.
Proof.
  revert acc. induction l as [|r l IH]; intros acc; simpl; [reflexivity|].
  unfold appendRun at 2. destruct (isCitation r) eqn:E; simpl.
  - apply IH.
  - rewrite IH. unfold appendRun at 3. now rewrite E.
Qed.

Lemma renderLine_citations (l : list Run) :
  Forall (fun r => isCitation r = true) l -> renderLine l = [].
Proof.
  intros H. unfold renderLine. rewrite fold_appendRun_filter.
  replace (filter (fun r => negb (isCitation r)) l) with (@nil Run); [reflexivity|].
  induction H as [|r l Hr _ IH]; simpl; [reflexivity|].
  now rewrite Hr.
Qed.

(* ================================================================== *)
(** * The Line Assembler *)

(** C9. For every page, the Lines of the Line Assembler come in strictly
    descending order of their rounded Y, and inside every Line the runs are
    in ascending order of their raw x, equal x being allowed. *)
Theorem line_assembler_ordering (regular : option jsstring) (items : list TextItem) :
  Sorted Z.gt (map fst (assembleLines regular items))
  /\ Forall (fun line => Sorted (fun a b => (x a <= x b)%Q) (snd line))
            (assembleLines regular items).
Proof.
  split.
  - rewrite assembleLines_keys. apply sortedYs_desc. apply groupLines_NoDup.
  - unfold assembleLines. apply Forall_map. apply Forall_forall.
    intros y _. simpl. apply lineItems_sorted.
Qed.

(** C3, as stated, fails: the key of a run whose y is -5/2 is -2, where
    rounding half away from zero gives -3. *)
Lemma bucketing_key_not_half_away :
  map fst (assembleLines None [low_run]) = [(-2)%Z]
  /\ round_half_away_from_zero (transform5 low_run) = (-3)%Z
  /\ map fst (assembleLines None [low_run])
     <> [round_half_away_from_zero (transform5 low_run)].
Proof. repeat split; vm_compute; try reflexivity; discriminate. Qed.

(** C3, amended. The bucketing key of a run is [Math.round(y)], the integer
    k with k - 1/2 <= y < k + 1/2 (a tie goes towards +infinity); it is
    the round-half-away-from-zero value whenever y is not negative; the run
    is in the Line of that key, and two runs of a page with equal rounded y
    are in the same Line. *)
Theorem bucketing_key_rounds_half_up (regular : option jsstring) (items : list TextItem) :
  (forall item, In item items ->
     let k := Math_round (transform5 item) in
     (inject_Z k - (1 # 2) <= transform5 item < inject_Z k + (1 # 2))%Q
     /\ ((0 <= transform5 item)%Q -> k = round_half_away_from_zero (transform5 item))
     /\ exists l, In (k, l) (assembleLines regular items)
                  /\ In (annotate regular item) l)
  /\ (forall a b, In a items -> In b items ->
        Math_round (transform5 a) = Math_round (transform5 b) ->
        exists l, In (Math_round (transform5 a), l) (assembleLines regular items)
                  /\ In (annotate regular a) l /\ In (annotate regular b) l).
Proof.
  split.
  - intros item Hin k. split; [apply Math_round_bounds|].
    split; [apply Math_round_nonneg|].
    destruct (same_key_same_line regular items item item Hin Hin eq_refl)
      as (l & H1 & H2 & _).
    now exists l.
  - intros a b. apply same_key_same_line.
Qed.

Lemma bucketing_key_rounds_half_up_witness :
  exists l, In (700%Z, l) (assembleLines None jitter_page)
            /\ In (annotate None (nth 0 jitter_page low_run)) l
            /\ In (annotate None (nth 1 jitter_page low_run)) l.
Proof.
  apply (proj2 (bucketing_key_rounds_half_up None jitter_page)
               (nth 0 jitter_page low_run) (nth 1 jitter_page low_run)).
  - simpl. auto.
  - simpl. auto.
  - vm_compute. reflexivity.
Defined.

(* ================================================================== *)
(** * Citation filtering *)

(** C2, as stated, fails: on a page whose only run is a citation the
    filtered rendering has no line where the unfiltered one has a line. *)
Lemma citation_filtering_drops_line :
  map fst (assembleLines None citation_page) = [700%Z]
  /\ renderPage None citation_page = []
  /\ renderPageUnfiltered None citation_page = lit "**12**" ++ NL
  /\ ~ filtering_preserves_lines None citation_page.
Proof.
  repeat split; try (vm_compute; reflexivity).
  unfold filtering_preserves_lines. vm_compute. discriminate.
Qed.

(** C2, amended. Citation filtering happens only at render time and leaves
    the Lines alone: the Lines of a page hold every run of the page,
    citation-flagged or not, and rendering a Line is rendering its runs that
    are not citations.  A Line all of whose runs are citation-flagged
    renders to the empty string and adds nothing to the page text. *)
Theorem citation_filtering_at_render_time (regular : option jsstring)
        (items : list TextItem) :
  Permutation (concat (map snd (assembleLines regular items)))
              (map (annotate regular) items)
  /\ (forall l, renderLine l = renderLine (filter (fun r => negb (isCitation r)) l))
  /\ (forall line pageText,
        Forall (fun r => isCitation r = true) (snd line) ->
        renderLine (snd line) = [] /\ appendLine pageText line = pageText).
Proof.
  split; [apply assembleLines_values|]. split.
  - intros l. apply fold_appendRun_filter.
  - intros line pageText H. pose proof (renderLine_citations H) as E.
    split; [exact E|]. unfold appendLine. now rewrite E.
Qed.

Lemma citation_filtering_at_render_time_witness :
  renderLine (snd (700%Z, map (annotate None) citation_page)) = []
  /\ appendLine (lit "above") (700%Z, map (annotate None) citation_page) = lit "above".
Proof.
  apply (proj2 (proj2 (citation_filtering_at_render_time None citation_page))).
  repeat constructor.
Defined.

(* ================================================================== *)
(** * The Block Segmenter *)

(** C8. The line "• First item" makes the segmenter emit one bullet item
    with the text "First item" and nothing else, and leaves [inList] set,
    whatever was emitted before and whatever [inList] was. *)
Theorem bullet_line_first_item (st : FmtState) :
  formatLine st (bullet ++ lit " First item")
  = {| markdown := markdown st ++ renderBlocks [BulletItem (lit "First item")];
       inList := true |}.
Proof. destruct st as [m i]. vm_compute. reflexivity. Qed.

(** C7, on the code. For the line "Intro text • bullet one • bullet two"
    the two bullet items are emitted as the claim says and [inList] is set,
    but the leading paragraph is emitted as "Intro text " with the blank
    that the loop appended to [currentText]: the flush before a bullet does
    not trim, where the flush after the loop does.  The blank is still
    there in the Markdown text the converter returns. *)
Theorem mid_line_bullets_leading_text :
  let line := lit "Intro text " ++ bullet ++ lit " bullet one " ++ bullet
              ++ lit " bullet two" in
  let st := {| markdown := []; inList := false |} in
  formatLine st line
  = {| markdown := renderBlocks [Paragraph (lit "Intro text ");
                                 BulletItem (lit "bullet one");
                                 BulletItem (lit "bullet two")];
       inList := true |}
  /\ formatLine st line
     <> {| markdown := renderBlocks [Paragraph (lit "Intro text");
                                     BulletItem (lit "bullet one");
                                     BulletItem (lit "bullet two")];
           inList := true |}
  /\ convertPdfToMarkdown bullets_file
     = Resolves (Success (lit "# doc" ++ NL ++ NL
                          ++ renderBlocks [Paragraph (lit "Intro text ");
                                           BulletItem (lit "bullet one");
                                           BulletItem (lit "bullet two")]
                          ++ NL ++ NL)
                         (lit "doc.md") 1 {| pages := 1 |}).
Proof. repeat split; vm_compute; try reflexivity; discriminate. Qed.

(* ================================================================== *)
(** * Blank text *)

Lemma trimStart_blank (s : jsstring) :
  trimStart s = [] <-> forallb is_ws s = true.
Proof.
  induction s as [|c s IH]; simpl.
  - tauto.
  - destruct (is_ws c); simpl; [exact IH|].
    split; discriminate.
Qed.

Lemma trimStart_head (s : jsstring) (c : N) (t : jsstring) :
  trimStart s = c :: t -> is_ws c = false.
Proof.
  induction s as [|d s IH]; simpl; [discriminate|].
  destruct (is_ws d) eqn:E; [exact IH|].
  intros H. injection H as <- _. exact E.
Qed.

Lemma forallb_rev (A : Type) (p : A -> bool) (l : list A) :
  forallb p (rev l) = forallb p l.
Proof.
  induction l as [|a l IH]; simpl; [reflexivity|].
  rewrite forallb_app, IH. simpl. rewrite andb_true_r. apply andb_comm.
Qed.

Lemma trim_blank (s : jsstring) :
  trim s = [] <-> forallb is_ws s = true.
Proof.
  unfold trim, trimEnd. split.
  - intros H.
    assert (Hr : trimStart (rev (trimStart s)) = []).
    { destruct (trimStart (rev (trimStart s))) as [|c t]; [reflexivity|].
      simpl in H. now destruct (rev t). }
    apply trimStart_blank in Hr. rewrite forallb_rev in Hr.
    destruct (trimStart s) as [|c t] eqn:E.
    + now apply trimStart_blank.
    + apply trimStart_head in E. simpl in Hr. now rewrite E in Hr.
  - intros H. apply trimStart_blank in H. now rewrite H.
Qed.

(* ================================================================== *)
(** * The entry point *)

Lemma renderPages_blank (pdf : PDFDocument) (regular : option jsstring)
      (n pageNum : nat) (fullText : jsstring) :
  forallb is_ws fullText = true ->
  (forall p, pageNum <= p < pageNum + n ->
             exists items, getTextContent pdf p = Returns items
                           /\ trim (renderPage regular items) = [])%nat ->
  exists out, renderPages pdf regular n pageNum fullText = Returns out
              /\ forallb is_ws out = true.
Proof.
  revert pageNum fullText. induction n as [|n IH]; intros pageNum fullText Hb H; simpl.
  - now exists fullText.
  - destruct (H pageNum) as (items & E & Ht); [lia|]. rewrite E. simpl.
    apply IH.
    + apply trim_blank in Ht. rewrite forallb_app, Ht, andb_true_r.
      destruct (1 <? pageNum)%nat; [|exact Hb].
      now rewrite !forallb_app, Hb.
    + intros p Hp. apply H. lia.
Qed.

(** C6. If every page of the document renders to only whitespace, the
    conversion ends in the failure result carrying the message
    'No text content found in PDF'; the test is made on the trimmed text of
    all pages, after the last page has been rendered. *)
Theorem blank_document_fails (file : File) (pdf : PDFDocument)
        (allItems : list FontStat) :
  getDocument file = Returns pdf ->
  collectItems pdf (numPages pdf) 1 [] = Returns allItems ->
  (forall p, 1 <= p <= numPages pdf ->
             exists items, getTextContent pdf p = Returns items
                           /\ trim (renderPage (regularFont allItems) items) = [])%nat ->
  convertPdfToMarkdown file = Resolves (Failure (lit "No text content found in PDF"))
  /\ (forall fullText,
        renderPages pdf (regularFont allItems) (numPages pdf) 1 [] = Returns fullText ->
        trim fullText = []).
Proof.
  intros Hdoc Hitems Hpages.
  destruct (@renderPages_blank pdf (regularFont allItems) (numPages pdf) 1 [] eq_refl)
    as (out & Hout & Hblank).
  { intros p Hp. apply Hpages. lia. }
  apply trim_blank in Hblank. split.
  - unfold convertPdfToMarkdown, tryConvert.
    rewrite Hdoc. simpl. rewrite Hitems. simpl. rewrite Hout. simpl.
    rewrite Hblank. reflexivity.
  - intros fullText E. rewrite Hout in E. now injection E as <-.
Qed.

Lemma blank_document_fails_witness :
  let pdf := {| numPages := 1;
                getTextContent := fun _ => Returns [item "  " "g_d0_f1" (12 # 1) (72 # 1) (700 # 1)] |} in
  let file := {| name := lit "blank.pdf"; getDocument := Returns pdf |} in
  convertPdfToMarkdown file = Resolves (Failure (lit "No text content found in PDF"))
  /\ (forall fullText,
        renderPages pdf (regularFont [fontStat (item "  " "g_d0_f1" (12 # 1) (72 # 1) (700 # 1))])
                    (numPages pdf) 1 [] = Returns fullText ->
        trim fullText = []).
Proof.
  intros pdf file.
  apply (@blank_document_fails file pdf
           [fontStat (item "  " "g_d0_f1" (12 # 1) (72 # 1) (700 # 1))]).
  - reflexivity.
  - reflexivity.
  - intros p _. eexists. split; [reflexivity|]. vm_compute. reflexivity.
Defined.

Lemma tryConvert_returns (file : File) (result : Result) :
  tryConvert file = Returns result ->
  exists pdf markdown,
    getDocument file = Returns pdf
    /\ result = Success markdown
                  (replace_first pdfExtension (fun _ _ => lit ".md") (name file))
                  (numPages pdf) {| pages := numPages pdf |}.
Proof.
  unfold tryConvert. destruct (getDocument file) as [pdf|e]; simpl; [|discriminate].
  destruct (collectItems pdf (numPages pdf) 1 []) as [allItems|e]; simpl; [|discriminate].
  destruct (renderPages pdf (regularFont allItems) (numPages pdf) 1 [])
    as [fullText|e]; simpl; [|discriminate].
  destruct (truthy (trim fullText)); simpl; [|discriminate].
  intros H. injection H as <-. eauto.
Qed.

Lemma collectItems_firstThrown (pdf : PDFDocument) (n pageNum : nat)
      (acc : list FontStat) :
  match firstThrownPage pdf n pageNum with
  | Some e => collectItems pdf n pageNum acc = Throws e
  | None => exists allItems, collectItems pdf n pageNum acc = Returns allItems
  end.
Proof.
  revert pageNum acc. induction n as [|n IH]; intros pageNum acc;
    cbn [firstThrownPage collectItems].
  - eexists. reflexivity.
  - destruct (getTextContent pdf pageNum) as [items|e]; cbn [bind]; [|reflexivity].
    apply IH.
Qed.

Lemma renderPages_firstThrown (pdf : PDFDocument) (regular : option jsstring)
      (n pageNum : nat) (acc : jsstring) :
  firstThrownPage pdf n pageNum = None ->
  exists fullText, renderPages pdf regular n pageNum acc = Returns fullText.
Proof.
  revert pageNum acc. induction n as [|n IH]; intros pageNum acc;
    cbn [firstThrownPage renderPages].
  - intros _. eexists. reflexivity.
  - destruct (getTextContent pdf pageNum) as [items|e]; cbn [bind]; [|discriminate].
    apply IH.
Qed.

(** The [try] block throws what the first failing step of the extraction
    throws; when no step fails it returns the success object or throws the
    error of the blank document. *)
Lemma tryConvert_firstThrown (file : File) :
  match firstThrown file with
  | Some e => tryConvert file = Throws e
  | None =>
      (exists result, tryConvert file = Returns result)
      \/ tryConvert file = Throws (Thrown (Some (lit "No text content found in PDF")))
  end.
Proof.
  unfold firstThrown, tryConvert.
  destruct (getDocument file) as [pdf|e]; cbn [bind]; [|reflexivity].
  pose proof (collectItems_firstThrown pdf (numPages pdf) 1 []) as Hc.
  destruct (firstThrownPage pdf (numPages pdf) 1) as [e|] eqn:Ef.
  - rewrite Hc. reflexivity.
  - destruct Hc as (allItems & ->). cbn [bind].
    destruct (renderPages_firstThrown pdf (regularFont allItems) (numPages pdf) 1 [] Ef)
      as (fullText & ->).
    cbn [bind]. destruct (truthy (trim fullText)); cbn [negb].
    + left. eexists. reflexivity.
    + right. reflexivity.
Qed.

Lemma reported_truthy (message : option jsstring) : reported message <> [].
Proof. unfold reported. destruct message as [[|c m]|]; discriminate. Qed.

(** C10, on the code.  The entry point is not total.  When the first step
    of the extraction that fails (opening the document, then reading the
    pages in order) throws [null] or [undefined], the [catch] block itself
    raises a [TypeError] on [error.message] and the promise rejects; so it
    does for the file whose read is rejected without a reason.  This is the
    only way the promise rejects: in every other case it resolves to a
    result object, the success object with the page count of the document
    (twice) or the failure object with an error message that is not
    empty. *)
Theorem conversion_rejects_on_nullish :
  convertPdfToMarkdown unreadable_file = Rejects
  /\ forall file,
       (convertPdfToMarkdown file = Rejects <-> firstThrown file = Some Nullish)
       /\ match convertPdfToMarkdown file with
          | Resolves (Success markdown originalName pageCount info) =>
              exists pdf, getDocument file = Returns pdf
                          /\ pageCount = numPages pdf /\ pages info = numPages pdf
          | Resolves (Failure error) => error <> []
          | Rejects => True
          end.
Proof.
  split; [reflexivity|]. intros file. split.
  - pose proof (tryConvert_firstThrown file) as H. unfold convertPdfToMarkdown.
    destruct (firstThrown file) as [e|].
    + rewrite H. destruct e as [|m]; split; congruence.
    + destruct H as [(result & ->)| ->]; split; discriminate.
  - unfold convertPdfToMarkdown.
    destruct (tryConvert file) as [result|[|m]] eqn:E.
    + destruct (tryConvert_returns file E) as (pdf & md & Hdoc & ->).
      exists pdf. auto.
    + exact I.
    + apply reported_truthy.
Qed.

(* ================================================================== *)
(** * The Font Classifier *)

Lemma jsstring_eqb_eq (a b : jsstring) : JsString.eqb a b = true <-> a = b.
Proof.
  revert b. induction a as [|c a IH]; intros [|d b]; simpl;
    try (split; [discriminate|discriminate]); [tauto|].
  rewrite andb_true_iff, N.eqb_eq, IH. split.
  - intros [-> ->]. reflexivity.
  - intros H. injection H as -> ->. auto.
Qed.

Lemma jsstring_eqb_refl (a : jsstring) : JsString.eqb a a = true.
Proof. now apply jsstring_eqb_eq. Qed.

Lemma occurrences_app (f : jsstring) (a b : list jsstring) :
  occurrences f (a ++ b) = (occurrences f a + occurrences f b)%nat.
Proof. unfold occurrences. now rewrite filter_app, length_app. Qed.

Lemma occurrences_In (f : jsstring) (names : list jsstring) :
  (0 < occurrences f names)%nat <-> In f names.
Proof.
  unfold occurrences. induction names as [|n names IH]; simpl.
  - split; [lia|tauto].
  - destruct (JsString.eqb f n) eqn:E; simpl.
    + apply jsstring_eqb_eq in E. subst. split; [auto|lia].
    + rewrite IH. split; [auto|].
      intros [->|H]; [now rewrite jsstring_eqb_refl in E|exact H].
Qed.

Lemma find_first (A : Type) (p : A -> bool) (l1 l2 : list A) (a : A) :
  (forall b, In b l1 -> p b = false) -> p a = true ->
  find p (l1 ++ a :: l2) = Some a.
Proof.
  intros H1 Ha. induction l1 as [|b l1 IH]; simpl.
  - now rewrite Ha.
  - rewrite (H1 b) by now left. apply IH. intros c Hc. apply H1. now right.
Qed.

(** Keys in order of first appearance. *)
Lemma find_first_seen (p : jsstring -> bool) (names acc : list jsstring) :
  find p (fold_left (fun acc n => if existsb (JsString.eqb n) acc then acc
                                  else acc ++ [n]) names acc)
  = find p (acc ++ names).
Proof.
  revert acc. induction names as [|n names IH]; intros acc; simpl.
  - now rewrite app_nil_r.
  - rewrite IH. destruct (existsb (JsString.eqb n) acc) eqn:E.
    + apply existsb_exists in E. destruct E as (m & Hm & E).
      apply jsstring_eqb_eq in E. subst m.
      induction acc as [|a acc IHa]; simpl; [destruct Hm|].
      destruct (p a) eqn:Ea; [reflexivity|].
      destruct Hm as [->|Hm]; [|now apply IHa].
      clear IHa. induction acc as [|b acc IHb]; simpl.
      * now rewrite Ea.
      * destruct (p b); [reflexivity|exact IHb].
    + now rewrite <- app_assoc.
Qed.

Section CountFacts.

Local Abbreviation nameOf := fs_fontName.

Lemma countFont_get (fc : fontObj) (item : FontStat) (f : jsstring) :
  font_get (countFont fc item) f
  = if JsString.eqb f (nameOf item)
    then Some (S (match font_get fc (nameOf item) with Some c => c | None => O end))
    else font_get fc f.
Proof.
  unfold countFont. cbv zeta. unfold font_get, font_set.
  pose proof (@get_set jsstring nat JsString.eqb jsstring_eqb_eq JsObject.array_index) as Hgs.
  destruct (JsObject.get JsString.eqb fc (nameOf item)) as [[|c]|] eqn:E.
  - rewrite Hgs, jsstring_eqb_refl, !Hgs.
    destruct (JsString.eqb f (nameOf item)); reflexivity.
  - rewrite E, Hgs. reflexivity.
  - rewrite Hgs, jsstring_eqb_refl, !Hgs.
    destruct (JsString.eqb f (nameOf item)); reflexivity.
Qed.

Lemma countFont_NoDup (fc : fontObj) (item : FontStat) :
  NoDup (JsObject.keys fc) -> NoDup (JsObject.keys (countFont fc item)).
Proof.
  intros H. unfold countFont. cbv zeta. unfold font_set.
  pose proof (@NoDup_keys_set jsstring nat JsString.eqb jsstring_eqb_eq JsObject.array_index) as Hs.
  destruct (font_get fc (nameOf item)) as [[|c]|];
    match goal with
    | |- context [match font_get ?o ?n with _ => _ end] => destruct (font_get o n)
    end; auto.
Qed.

Lemma countFont_keys (fc : fontObj) (item : FontStat) :
  JsObject.array_index (nameOf item) = None ->
  JsObject.keys (countFont fc item)
  = if existsb (JsString.eqb (nameOf item)) (JsObject.keys fc)
    then JsObject.keys fc else JsObject.keys fc ++ [nameOf item].
Proof.
  intros Hidx. unfold countFont. cbv zeta. unfold font_get, font_set.
  pose proof (@get_set jsstring nat JsString.eqb jsstring_eqb_eq JsObject.array_index) as Hgs.
  assert (Hin : forall c, JsObject.get JsString.eqb fc (nameOf item) = Some c ->
                          existsb (JsString.eqb (nameOf item)) (JsObject.keys fc) = true).
  { intros c E. apply existsb_exists. exists (nameOf item).
    split; [|apply jsstring_eqb_refl].
    apply (get_In JsString.eqb jsstring_eqb_eq) in E.
    apply (in_map fst) in E. exact E. }
  destruct (JsObject.get JsString.eqb fc (nameOf item)) as [[|c]|] eqn:E.
  - rewrite (Hin _ eq_refl).
    rewrite Hgs, jsstring_eqb_refl.
    unfold JsObject.set at 1. rewrite Hgs, jsstring_eqb_refl.
    rewrite keys_update. unfold JsObject.set. rewrite E. apply keys_update.
  - rewrite (Hin _ eq_refl), E.
    unfold JsObject.set. rewrite E. apply keys_update.
  - assert (Hout : existsb (JsString.eqb (nameOf item)) (JsObject.keys fc) = false).
    { destruct (existsb _ _) eqn:Ex; [|reflexivity].
      apply existsb_exists in Ex. destruct Ex as (m & Hm & Em).
      apply jsstring_eqb_eq in Em. subst m.
      apply (get_None JsString.eqb jsstring_eqb_eq) in E.
      contradiction. }
    rewrite Hout, Hgs, jsstring_eqb_refl.
    unfold JsObject.set at 1. rewrite Hgs, jsstring_eqb_refl.
    rewrite keys_update. unfold JsObject.set. rewrite E.
    unfold JsObject.add. rewrite Hidx.
    unfold JsObject.keys. now rewrite map_app.
Qed.

Lemma countFont_counted (fc : fontObj) (names : list jsstring) (item : FontStat) :
  counted fc names -> counted (countFont fc item) (names ++ [nameOf item]).
Proof.
  intros H f. rewrite countFont_get, occurrences_app.
  unfold occurrences at 2. simpl.
  destruct (JsString.eqb f (nameOf item)) eqn:E; simpl.
  - apply jsstring_eqb_eq in E. subst f. rewrite H.
    destruct (occurrences (nameOf item) names); simpl.
    + reflexivity.
    + now rewrite Nat.add_1_r.
  - rewrite H, Nat.add_0_r. reflexivity.
Qed.

Lemma countFonts_from (items : list FontStat) (fc : fontObj) (names : list jsstring) :
  NoDup (JsObject.keys fc) -> counted fc names ->
  NoDup (JsObject.keys (fold_left countFont items fc))
  /\ counted (fold_left countFont items fc) (names ++ map nameOf items).
Proof.
  revert fc names. induction items as [|item items IH]; intros fc names Hnd Hc; simpl.
  - now rewrite app_nil_r.
  - change (nameOf item :: map nameOf items)
      with ([nameOf item] ++ map nameOf items).
    rewrite app_assoc. apply IH.
    + now apply countFont_NoDup.
    + now apply countFont_counted.
Qed.

Lemma countFonts_keys_from (items : list FontStat) (fc : fontObj) :
  (forall item, In item items -> JsObject.array_index (nameOf item) = None) ->
  JsObject.keys (fold_left countFont items fc)
  = fold_left (fun acc n => if existsb (JsString.eqb n) acc then acc else acc ++ [n])
              (map nameOf items) (JsObject.keys fc).
Proof.
  revert fc. induction items as [|item items IH]; intros fc H; simpl; [reflexivity|].
  rewrite IH by (intros i Hi; apply H; now right).
  rewrite countFont_keys by (apply H; now left). reflexivity.
Qed.
End CountFacts.

Lemma sort_nil (A : Type) (cmp : A -> A -> comparison) (l : list A) :
  JsArray.sort cmp l = [] -> l = [].
Proof.
  intros H. apply Permutation_nil. rewrite <- H. apply sort_perm.
Qed.

(** The head of the sorted entries is the first entry with the greatest
    count. *)
Lemma sortedFonts_head (l : list (jsstring * nat)) (e : jsstring * nat)
      (rest : list (jsstring * nat)) :
  JsArray.sort byCountDesc l = e :: rest ->
  (forall e', In e' l -> snd e' <= snd e)%nat
  /\ exists l1 l2, l = l1 ++ e :: l2 /\ (forall e', In e' l1 -> snd e' < snd e)%nat.
Proof.
  revert e rest. induction l as [|a l IH]; intros e rest; simpl; [discriminate|].
  destruct (JsArray.sort byCountDesc l) as [|b s'] eqn:Es; simpl.
  - apply sort_nil in Es. subst l. intros H. injection H as <- _. split.
    + intros e' [<-|[]]. lia.
    + exists [], []. split; [reflexivity|intros e' []].
  - destruct (IH b s' eq_refl) as (Hmax & l1 & l2 & Hl & Hlt).
    unfold byCountDesc at 1, JsArray.sign.
    destruct (Z.compare_spec (Z.of_nat (snd b) - Z.of_nat (snd a)) 0) as [Hc|Hc|Hc];
      intros H; injection H as <- _.
    + split.
      * intros e' [<-|Hin]; [lia|]. specialize (Hmax e' Hin). lia.
      * exists [], l. split; [reflexivity|intros e' []].
    + split.
      * intros e' [<-|Hin]; [lia|]. specialize (Hmax e' Hin). lia.
      * exists [], l. split; [reflexivity|intros e' []].
    + split.
      * intros e' [<-|Hin]; [lia|]. now apply Hmax.
      * exists (a :: l1), l2. split; [now rewrite Hl|].
        intros e' [<-|Hin]; [lia|]. now apply Hlt.
Qed.

Lemma countFonts_counted (allItems : list FontStat) :
  NoDup (JsObject.keys (countFonts allItems))
  /\ counted (countFonts allItems) (map fs_fontName allItems).
Proof.
  apply (@countFonts_from allItems [] []).
  - constructor.
  - intros f. reflexivity.
Qed.

Lemma counted_entry (allItems : list FontStat) (f : jsstring) (c : nat) :
  In (f, c) (countFonts allItems) ->
  c = occurrences f (map fs_fontName allItems) /\ (0 < c)%nat.
Proof.
  destruct (countFonts_counted allItems) as (Hnd & Hc). intros Hin.
  apply (In_get JsString.eqb jsstring_eqb_eq _ _ _ Hnd) in Hin.
  unfold counted, font_get in Hc. rewrite Hc in Hin.
  destruct (occurrences f (map fs_fontName allItems)); [discriminate|].
  injection Hin as <-. split; [reflexivity|lia].
Qed.

Lemma entry_counted (allItems : list FontStat) (f : jsstring) :
  In f (map fs_fontName allItems) ->
  In (f, occurrences f (map fs_fontName allItems)) (countFonts allItems).
Proof.
  destruct (countFonts_counted allItems) as (_ & Hc). intros Hin.
  apply (get_In JsString.eqb jsstring_eqb_eq). fold font_get. rewrite Hc.
  apply occurrences_In in Hin.
  destruct (occurrences f (map fs_fontName allItems)); [lia|reflexivity].
Qed.

(** C5, as stated, fails: of two fonts named "2" and "1" that occur once
    each, in this order, the classifier returns "1"; the font seen first
    is "2". *)
Lemma tie_break_not_first_seen :
  regularFont numeral_fonts = Some (lit "1")
  /\ first_seen_max (map fs_fontName numeral_fonts) = Some (lit "2")
  /\ regularFont numeral_fonts <> first_seen_max (map fs_fontName numeral_fonts).
Proof. repeat split; vm_compute; try reflexivity; discriminate. Qed.

(** C5, amended. For every non-empty collection of glyph runs whose font
    names are not names of members of [Object.prototype], the classifier
    returns a font name of the document whose number of occurrences is
    maximal.  Among several such names it returns the first in the order
    in which [Object.entries] lists the counts (array-index names first);
    when no font name is an array index (a canonical decimal numeral below
    2^32 - 1), that is the order of first appearance, and the name returned
    is the earliest seen. *)
Theorem regular_font_most_frequent (allItems : list FontStat) :
  allItems <> [] ->
(forall item, In item allItems -> JsObject.inherited (fs_fontName item) = false) ->
  let names := map fs_fontName allItems in
  exists f,
    regularFont allItems = Some f
    /\ In f names
    /\ (forall g, occurrences g names <= occurrences f names)%nat
    /\ (exists before after,
          JsObject.entries (countFonts allItems)
          = before ++ (f, occurrences f names) :: after
          /\ forall g c, In (g, c) before -> (c < occurrences f names)%nat)
    /\ ((forall item, In item allItems ->
                      JsObject.array_index (fs_fontName item) = None) ->
        first_seen_max names = Some f).
Proof.
  intros Hne _ names. unfold regularFont, sortedFonts, JsObject.entries.
  destruct (JsArray.sort byCountDesc (countFonts allItems)) as [|[f c] rest] eqn:Es.
  - exfalso. apply sort_nil in Es.
    destruct allItems as [|item allItems]; [now apply Hne|].
    pose proof (@entry_counted (item :: allItems) (fs_fontName item)
                               (or_introl eq_refl)) as Hin.
    rewrite Es in Hin. destruct Hin.
  - destruct (sortedFonts_head _ Es) as (Hmax & l1 & l2 & Hl & Hlt).
    assert (Hf : In (f, c) (countFonts allItems)).
    { rewrite Hl. apply in_or_app. right. now left. }
    destruct (@counted_entry allItems f c Hf) as (Hc & Hpos).
    assert (Hfn : In f names) by (apply occurrences_In; fold names in Hc; lia).
    assert (Hall : forall g, (occurrences g names <= occurrences f names)%nat).
    { intros g. destruct (Nat.eq_dec (occurrences g names) 0) as [->|Hg]; [lia|].
      assert (Hgn : In g names) by (apply occurrences_In; lia).
      specialize (Hmax _ (@entry_counted allItems g Hgn)). simpl in Hmax.
      fold names in Hmax. fold names in Hc. lia. }
    exists f. split; [reflexivity|]. split; [exact Hfn|]. split; [exact Hall|].
    fold names in Hc. split.
    { exists l1, l2. unfold JsObject.entries. split; [now rewrite Hl, Hc|].
      intros g cg Hg. specialize (Hlt _ Hg). simpl in Hlt. lia. }
    intros Hidx. unfold first_seen_max.
    rewrite <- (app_nil_l names) at 2.
    rewrite <- find_first_seen.
    change (@nil jsstring) with (JsObject.keys (@nil (jsstring * nat))).
    unfold names at 2. rewrite <- countFonts_keys_from by exact Hidx.
    fold (countFonts allItems). rewrite Hl.
    unfold JsObject.keys. rewrite map_app. simpl.
    apply find_first.
    + intros g Hg. apply in_map_iff in Hg. destruct Hg as ([g' cg] & <- & Hg).
      simpl. specialize (Hlt _ Hg). simpl in Hlt.
      assert (Hgin : In (g', cg) (countFonts allItems)).
      { rewrite Hl. apply in_or_app. now left. }
      destruct (@counted_entry allItems g' cg Hgin) as (Hcg & _).
      fold names in Hcg, Hc.
      unfold maximal. apply not_true_is_false. intros Hm.
      rewrite forallb_forall in Hm. specialize (Hm f Hfn).
      apply Nat.leb_le in Hm. lia.
    + unfold maximal. apply forallb_forall. intros g _.
      apply Nat.leb_le. apply Hall.
Qed.

Lemma regular_font_most_frequent_witness :
  exists f,
    regularFont tied_fonts = Some f
    /\ In f (map fs_fontName tied_fonts)
    /\ (forall g, occurrences g (map fs_fontName tied_fonts)
                  <= occurrences f (map fs_fontName tied_fonts))%nat
    /\ (exists before after,
          JsObject.entries (countFonts tied_fonts)
          = before ++ (f, occurrences f (map fs_fontName tied_fonts)) :: after
          /\ forall g c, In (g, c) before ->
                         (c < occurrences f (map fs_fontName tied_fonts))%nat)
    /\ ((forall item, In item tied_fonts ->
                      JsObject.array_index (fs_fontName item) = None) ->
        first_seen_max (map fs_fontName tied_fonts) = Some f).
Proof.
  apply (@regular_font_most_frequent tied_fonts).
  - discriminate.
  - intros item Hin. simpl in Hin.
    repeat (destruct Hin as [<-|Hin]; [vm_compute; reflexivity|]). destruct Hin.
Defined.

(** C4, as stated, fails: on an empty input [sortedFonts[0]] does not
    exist and [regularFont] is [undefined], not the empty string. *)
Lemma empty_input_not_empty_string :
  regularFont [] = None /\ regularFont [] <> Some (lit "").
Proof. split; vm_compute; [reflexivity|discriminate]. Qed.

(** C4, amended. When the document has no glyph runs the Font Classifier
    has nothing to count and [regularFont] is [undefined].  Such a
    document has no run on any page, hence none that could be flagged bold;
    the test "font differs from regular" is not switched off by the
    undefined regular font, it holds of every font name that is not
    empty. *)
Theorem empty_input_regular_font :
  regularFont [] = None
  /\ (forall pdf n pageNum,
        (forall p, getTextContent pdf p = Returns []) ->
        collectItems pdf n pageNum [] = Returns [])
  /\ (forall regular, assembleLines regular [] = [])
  /\ (forall f, differs f (regularFont []) && negb (JsString.eqb f [])
                = negb (JsString.eqb f [])).
Proof.
  split; [reflexivity|]. split; [|split; [reflexivity|reflexivity]].
  intros pdf n. induction n as [|n IH]; intros pageNum H; simpl; [reflexivity|].
  rewrite H. simpl. now apply IH.
Qed.

Lemma empty_input_regular_font_witness :
  collectItems empty_pdf 3 1 [] = Returns [].
Proof.
  apply (proj1 (proj2 empty_input_regular_font) empty_pdf 3%nat 1%nat).
  intros p. reflexivity.
Defined.

(* ================================================================== *)
(** * The Post-Normalizer *)

Section CollapseSpaces.


Lemma rep_blanks (s : jsstring) (prev : option N) (c : caps) :
  rep true (just 32) 0 None prev s c accept = Some (drop_spaces s, c).
Proof.
  revert prev. induction s as [|a s IH]; intros prev; [reflexivity|].
  cbn [rep drop_spaces may_repeat dec_hi].
  change (just 32 a) with (N.eqb 32 a).
  destruct (N.eqb 32 a); cbn [andb].
  - now rewrite IH.
  - reflexivity.
Qed.

Lemma match_at_blanks (prev : option N) (s : jsstring) :
  match_at blanks prev s
  = match s with
    | a :: b :: s'' =>
        if N.eqb 32 a && N.eqb 32 b then Some (drop_spaces s'', []) else None
    | _ => None
    end.
Proof.
  unfold match_at, blanks, plus. cbn [seq rmatch].
  destruct s as [|a [|b s'']]; [reflexivity| |].
  - change (just 32 a) with (N.eqb 32 a). destruct (N.eqb 32 a); reflexivity.
  - change (just 32 a) with (N.eqb 32 a).
    destruct (N.eqb 32 a); cbn [andb]; [|reflexivity].
    cbn [rep may_repeat dec_hi].
    change (just 32 b) with (N.eqb 32 b).
    destruct (N.eqb 32 b); cbn [andb]; [|reflexivity].
    apply rep_blanks.
Qed.

Lemma drop_spaces_length (s : jsstring) :
  (List.length (drop_spaces s) <= List.length s)%nat.
Proof.
  induction s as [|a s IH]; cbn [drop_spaces List.length]; [lia|].
  destruct (N.eqb 32 a); cbn [List.length]; lia.
Qed.

Lemma drop_spaces_skipn (s : jsstring) :
  skipn (List.length s - List.length (drop_spaces s)) s = drop_spaces s.
Proof.
  induction s as [|a s IH]; [reflexivity|].
  cbn [drop_spaces List.length]. destruct (N.eqb 32 a).
  - pose proof (drop_spaces_length s).
    replace (S (List.length s) - List.length (drop_spaces s))%nat
      with (S (List.length s - List.length (drop_spaces s))) by lia.
    exact IH.
  - cbn [List.length]. now rewrite Nat.sub_diag.
Qed.

Lemma drop_spaces_start (s : jsstring) : starts_space (drop_spaces s) = false.
Proof.
  induction s as [|a s IH]; [reflexivity|].
  cbn [drop_spaces]. destruct (N.eqb 32 a) eqn:E; [exact IH|exact E].
Qed.

Lemma replace_blanks_prev (n : nat) (prev prev' : option N) (s : jsstring) :
  replace_from blanks oneBlank n prev s = replace_from blanks oneBlank n prev' s.
Proof.
  destruct s as [|a s], n as [|n]; cbn [replace_from]; try reflexivity;
    now rewrite (match_at_blanks prev), (match_at_blanks prev').
Qed.

Lemma replace_blanks_skip (n : nat) (prev : option N) (s : jsstring) :
  (n <= List.length s)%nat ->
  replace_from blanks oneBlank n prev s = replace_from blanks oneBlank 0 None (skipn n s).
Proof.
  revert prev s. induction n as [|n IH]; intros prev s Hn.
  - apply replace_blanks_prev.
  - destruct s as [|a s]; cbn [List.length] in Hn; [lia|].
    cbn [replace_from skipn]. apply IH. lia.
Qed.

(** The equations of the pass. *)
Lemma collapse_cons (a : N) (s : jsstring) :
  replace_from blanks oneBlank 0 None (a :: s)
  = if N.eqb 32 a && starts_space s
    then 32%N :: replace_from blanks oneBlank 0 None (drop_spaces s)
    else a :: replace_from blanks oneBlank 0 None s.
Proof.
  cbn [replace_from]. rewrite match_at_blanks.
  destruct s as [|b s''].
  - rewrite andb_false_r. reflexivity.
  - cbn [starts_space].
    destruct (N.eqb 32 a && N.eqb 32 b) eqn:E.
    + apply andb_true_iff in E. destruct E as (Ea & Eb).
      unfold matched. rewrite length_firstn.
      pose proof (drop_spaces_length s'') as Hlen.
      cbn [List.length].
      replace (Nat.min (S (S (List.length s'')) - List.length (drop_spaces s''))
                       (S (S (List.length s''))))
        with (S (S (List.length s'' - List.length (drop_spaces s'')))) by lia.
      unfold oneBlank at 1. cbn [lit list_ascii_of_string map N_of_ascii app].
      change (N_of_ascii " ") with 32%N. cbn [app]. f_equal.
      rewrite replace_blanks_skip by (cbn [List.length]; lia).
      cbn [skipn]. rewrite drop_spaces_skipn.
      cbn [drop_spaces]. rewrite Eb. reflexivity.
    + now rewrite (replace_blanks_prev 0 (Some a) None).
Qed.

Lemma collapse_fixed (s : jsstring) :
  no_double_space s = true -> replace_from blanks oneBlank 0 None s = s.
Proof.
  induction s as [|a s IH]; [reflexivity|].
  cbn [no_double_space]. intros H. apply andb_true_iff in H. destruct H as (H1 & H2).
  rewrite collapse_cons. apply negb_true_iff in H1. rewrite H1.
  f_equal. now apply IH.
Qed.

Lemma collapse_start (s : jsstring) :
  starts_space s = false -> starts_space (replace_from blanks oneBlank 0 None s) = false.
Proof.
  destruct s as [|a s]; [reflexivity|]. cbn [starts_space]. intros E.
  rewrite collapse_cons, E. exact E.
Qed.

Lemma collapse_no_double_upto (n : nat) (s : jsstring) :
  (List.length s <= n)%nat ->
  no_double_space (replace_from blanks oneBlank 0 None s) = true.
Proof.
  revert s. induction n as [|n IH]; intros s Hn.
  - destruct s; [reflexivity|simpl in Hn; lia].
  - destruct s as [|a s]; [reflexivity|]. simpl in Hn.
    rewrite collapse_cons.
    destruct (N.eqb 32 a && starts_space s) eqn:E.
    + cbn [no_double_space].
      rewrite (collapse_start _ (drop_spaces_start s)), andb_false_r. simpl.
      apply IH. pose proof (drop_spaces_length s). lia.
    + cbn [no_double_space]. rewrite IH by lia. rewrite andb_true_r.
      apply negb_true_iff.
      destruct (N.eqb 32 a); [|reflexivity]. simpl in E. simpl.
      now apply collapse_start.
Qed.

Lemma collapseSpaces_no_double (s : jsstring) :
  no_double_space (collapseSpaces s) = true.
Proof. apply (@collapse_no_double_upto (List.length s) s). lia. Qed.

Lemma collapseSpaces_fixed (s : jsstring) :
  no_double_space s = true -> collapseSpaces s = s.
Proof. apply collapse_fixed. Qed.

End CollapseSpaces.

Section FourStars.

Lemma match_at_fourStars (prev : option N) (s : jsstring) :
  match_at fourStars prev s
  = if (4 <=? leading_stars s)%nat then Some (skipn 4 s, []) else None.
Proof.
  unfold match_at.
  change fourStars
    with (seq [Chr (just 42); Chr (just 42); Chr (just 42); Chr (just 42)]).
  cbn [seq rmatch].
  destruct s as [|a s]; [reflexivity|]. cbn [leading_stars].
  change (just 42 a) with (N.eqb 42 a). destruct (N.eqb 42 a); [|reflexivity].
  destruct s as [|b s]; [reflexivity|]. cbn [leading_stars].
  change (just 42 b) with (N.eqb 42 b). destruct (N.eqb 42 b); [|reflexivity].
  destruct s as [|c s]; [reflexivity|]. cbn [leading_stars].
  change (just 42 c) with (N.eqb 42 c). destruct (N.eqb 42 c); [|reflexivity].
  destruct s as [|d s]; [reflexivity|]. cbn [leading_stars].
  change (just 42 d) with (N.eqb 42 d). destruct (N.eqb 42 d); reflexivity.
Qed.

Lemma replace_fourStars_prev (n : nat) (prev prev' : option N) (s : jsstring) :
  replace_from fourStars nothing n prev s = replace_from fourStars nothing n prev' s.
Proof.
  destruct s as [|a s], n as [|n]; cbn [replace_from]; try reflexivity;
    now rewrite (match_at_fourStars prev), (match_at_fourStars prev').
Qed.

Lemma replace_fourStars_skip (n : nat) (prev : option N) (s : jsstring) :
  (n <= List.length s)%nat ->
  replace_from fourStars nothing n prev s
  = replace_from fourStars nothing 0 None (skipn n s).
Proof.
  revert prev s. induction n as [|n IH]; intros prev s Hn.
  - apply replace_fourStars_prev.
  - destruct s as [|a s]; cbn [List.length] in Hn; [lia|].
    cbn [replace_from skipn]. apply IH. lia.
Qed.

Lemma leading_stars_length (s : jsstring) :
  (leading_stars s <= List.length s)%nat.
Proof.
  induction s as [|a s IH]; cbn [leading_stars List.length]; [lia|].
  destruct (N.eqb 42 a); lia.
Qed.

(** The equations of the pass. *)
Lemma dropFour_cons (a : N) (s : jsstring) :
  replace_from fourStars nothing 0 None (a :: s)
  = if (4 <=? leading_stars (a :: s))%nat
    then replace_from fourStars nothing 0 None (skipn 3 s)
    else a :: replace_from fourStars nothing 0 None s.
Proof.
  cbn [replace_from]. rewrite match_at_fourStars.
  destruct (4 <=? leading_stars (a :: s))%nat eqn:E.
  - apply Nat.leb_le in E. pose proof (leading_stars_length (a :: s)) as Hlen.
    cbn [List.length] in Hlen.
    unfold matched. rewrite length_firstn, length_skipn. cbn [List.length].
    replace (Nat.min (S (List.length s) - (S (List.length s) - 4)) (S (List.length s)))
      with 4%nat by lia.
    unfold nothing at 1. cbn [app].
    apply replace_fourStars_skip. lia.
  - now rewrite (replace_fourStars_prev 0 (Some a) None).
Qed.

Lemma dropFour_leading (s : jsstring) :
  (leading_stars s < 4)%nat ->
  leading_stars (replace_from fourStars nothing 0 None s) = leading_stars s.
Proof.
  induction s as [|a s IH]; [reflexivity|]. intros H.
  rewrite dropFour_cons.
  apply Nat.leb_gt in H as E. rewrite E.
  cbn [leading_stars] in *. destruct (N.eqb 42 a); [|reflexivity].
  f_equal. apply IH. lia.
Qed.

Lemma dropFour_fixed (s : jsstring) :
  no_four_stars s = true -> replace_from fourStars nothing 0 None s = s.
Proof.
  induction s as [|a s IH]; [reflexivity|].
  cbn [no_four_stars]. intros H. apply andb_true_iff in H. destruct H as (H1 & H2).
  rewrite dropFour_cons.
  apply Nat.ltb_lt in H1. apply Nat.leb_gt in H1. rewrite H1.
  f_equal. now apply IH.
Qed.

Lemma dropFour_no_four_upto (n : nat) (s : jsstring) :
  (List.length s <= n)%nat ->
  no_four_stars (replace_from fourStars nothing 0 None s) = true.
Proof.
  revert s. induction n as [|n IH]; intros s Hn.
  - destruct s; [reflexivity|cbn [List.length] in Hn; lia].
  - destruct s as [|a s]; [reflexivity|]. cbn [List.length] in Hn.
    pose proof (dropFour_leading (a :: s)) as Hlead.
    rewrite dropFour_cons in *.
    destruct (4 <=? leading_stars (a :: s))%nat eqn:E.
    + apply IH. rewrite length_skipn. lia.
    + apply Nat.leb_gt in E. cbn [no_four_stars].
      rewrite (Hlead E), IH by lia.
      apply Nat.ltb_lt in E. now rewrite E.
Qed.

Lemma dropFourStars_no_four (s : jsstring) : no_four_stars (dropFourStars s) = true.
Proof. apply (@dropFour_no_four_upto (List.length s) s). lia. Qed.

Lemma dropFourStars_fixed (s : jsstring) :
  no_four_stars s = true -> dropFourStars s = s.
Proof. apply dropFour_fixed. Qed.

End FourStars.

Lemma postProcess_last (s : jsstring) :
  exists t, postProcess s = collapseSpaces t.
Proof. unfold postProcess, passes. simpl. eexists. reflexivity. Qed.

(** C1, as stated, fails, for the whole sequence and for single passes:
    on the Markdown text of the line "See 1 2 3" a second application
    removes a further number, and so does a second application of the first
    pass on its own; on the text "a**a" the first application puts a blank
    before the marker and the second one moves it behind the marker. *)
Lemma post_normalizer_not_idempotent :
  postProcess (postProcess numbers_markdown) <> postProcess numbers_markdown
  /\ stripEndOfLine (stripEndOfLine numbers_markdown) <> stripEndOfLine numbers_markdown
  /\ postProcess (postProcess (lit "a**a")) <> postProcess (lit "a**a").
Proof. repeat split; vm_compute; discriminate. Qed.

(** Passes that change some text a second time. *)
Lemma other_passes_not_idempotent :
  stripMidLine (stripMidLine (lit "a 1 2 b")) <> stripMidLine (lit "a 1 2 b")
  /\ stripAfterPeriod (stripAfterPeriod (lit "See p.1 2 x"))
     <> stripAfterPeriod (lit "See p.1 2 x")
  /\ moveSpace (moveSpace (lit "a ** **")) <> moveSpace (lit "a ** **")
  /\ trimBold (trimBold (lit "*** *** **")) <> trimBold (lit "*** *** **")
  /\ dropEmptyBold (dropEmptyBold (lit "*** *****")) <> dropEmptyBold (lit "*** *****")
  /\ spaceBefore (spaceBefore (lit "a**a**a")) <> spaceBefore (lit "a**a**a")
  /\ spaceAfter (spaceAfter (lit "a**a**a")) <> spaceAfter (lit "a**a**a").
Proof. repeat split; vm_compute; discriminate. Qed.


(** C1, amended. Two passes are idempotent in isolation: the removal of
    four stars in a row, and the last pass, which collapses runs of blanks.
    The result of the last pass, and so the result of the whole
    Post-Normalizer, never holds two blanks in a row, and applying that pass
    again to the Post-Normalizer's result changes nothing. *)
Theorem idempotent_passes :
  idempotent dropFourStars
  /\ idempotent collapseSpaces
  /\ (forall s, no_double_space (postProcess s) = true)
  /\ (forall s, collapseSpaces (postProcess s) = postProcess s).
Proof.
  split; [|split; [|split]].
  - intros s. apply dropFourStars_fixed, dropFourStars_no_four.
  - intros s. apply collapseSpaces_fixed, collapseSpaces_no_double.
  - intros s. destruct (postProcess_last s) as (t & ->).
    apply collapseSpaces_no_double.
  - intros s. destruct (postProcess_last s) as (t & ->).
    apply collapseSpaces_fixed, collapseSpaces_no_double.
Qed.

(* ================================================================== *)
(** * Further properties of the converter *)

(** ** Anchored patterns *)

Lemma exec_anchored_later (r : regex) (x : N) (s : jsstring) :
  exec_from (Cat (Bol false) r) (Some x) s = None.
Proof.
  revert x. induction s as [|y s IH]; intros x; cbn [exec_from]; unfold match_at;
    cbn [rmatch at_bol andb]; [reflexivity|apply IH].
Qed.

Lemma exec_anchored (r : regex) (s : jsstring) :
  exec (Cat (Bol false) r) s
  = match match_at (Cat (Bol false) r) None s with
    | Some (rest, c) => Some (matched s rest, c)
    | None => None
    end.
Proof.
  unfold exec. destruct s as [|x s]; cbn [exec_from].
  - destruct (match_at _ None []) as [[rest c]|]; reflexivity.
  - destruct (match_at _ None (x :: s)) as [[rest c]|]; [reflexivity|].
    apply exec_anchored_later.
Qed.

(** [p+$], and [p*$], at the end of a pattern. *)
Lemma rep_to_end (p : N -> bool) (lo : nat) (prev : option N) (s : jsstring) (c : caps) :
  rep true p lo None prev s c
      (fun prev' s' c' => if at_eol false s' then accept prev' s' c' else None)
  = if (lo <=? List.length s)%nat && forallb p s then Some ([], c) else None.
Proof.
  revert lo prev. induction s as [|x s IH]; intros lo prev.
  - destruct lo; reflexivity.
  - cbn [rep may_repeat dec_hi forallb List.length]. destruct lo as [|lo].
    + rewrite IH. cbn [Nat.leb].
      destruct (p x), (forallb p s); reflexivity.
    + rewrite IH. cbn [Nat.leb].
      destruct (p x), (forallb p s), (lo <=? List.length s)%nat; reflexivity.
Qed.

Lemma test_allDigits (s : jsstring) :
  test allDigits s = truthy s && forallb is_digit s.
Proof.
  unfold test, allDigits, plus. cbn [seq]. rewrite exec_anchored.
  unfold match_at. cbn [rmatch at_bol]. rewrite rep_to_end.
  destruct s as [|x s]; [reflexivity|].
  cbn [List.length Nat.leb truthy andb].
  destruct (forallb is_digit (x :: s)); reflexivity.
Qed.

Lemma ltb_lt (a b : Q) : ltb a b = true <-> (a < b)%Q.
Proof.
  unfold ltb. rewrite Qlt_alt. destruct (a ?= b)%Q; split; congruence.
Qed.

(** X1. A run is flagged as a citation exactly when its trimmed text is a
    non-empty string of the digits 0-9 and its font size (the absolute
    value of [transform[0]]) is below 10; a size of 10 or more is never
    flagged. *)
Theorem citation_exactly (regular : option jsstring) (item : TextItem) :
  isCitation (annotate regular item) = true
  <-> trim (str item) <> []
      /\ forallb is_digit (trim (str item)) = true
      /\ (Qabs (transform0 item) < 10 # 1)%Q.
Proof.
  unfold annotate. cbn [isCitation]. rewrite andb_true_iff, test_allDigits,
    andb_true_iff, ltb_lt. unfold Math_abs.
  destruct (trim (str item)) as [|x t]; cbn [truthy]; split.
  - intros [[H _] _]. discriminate.
  - intros [H _]. now elim H.
  - intros [[_ H1] H2]. repeat split; [discriminate|exact H1|exact H2].
  - intros (_ & H1 & H2). auto.
Qed.

(** ** Lines as buckets *)

Lemma groupLines_bucket_from (regular : option jsstring) (items : list TextItem)
      (lines : lineObj) (y : Z) :
  line_get (fold_left (addItem regular) items lines) y
  = match filter (inBucket y) items with
    | [] => line_get lines y
    | b => Some (match line_get lines y with Some l => l | None => [] end
                 ++ map (annotate regular) b)
    end.
Proof.
  revert lines. induction items as [|item items IH]; intros lines; [reflexivity|].
  cbn [fold_left filter]. rewrite IH, addItem_get.
  change (inBucket y item) with (Math_round (transform5 item) =? y)%Z.
  rewrite (Z.eqb_sym (Math_round (transform5 item)) y).
  destruct (y =? Math_round (transform5 item))%Z;
    destruct (filter (inBucket y) items) as [|b bs]; try reflexivity.
  cbn [map]. rewrite <- app_assoc. reflexivity.
Qed.

Lemma groupLines_bucket (regular : option jsstring) (items : list TextItem) (y : Z) :
  line_get (groupLines regular items) y
  = match filter (inBucket y) items with
    | [] => None
    | b => Some (map (annotate regular) b)
    end.
Proof.
  unfold groupLines. rewrite groupLines_bucket_from.
  destruct (filter (inBucket y) items); reflexivity.
Qed.

(** X2. The Lines of a page are its buckets: the Line with key y holds
    exactly the runs of the page whose rounded baseline is y, stably sorted
    by x from their order on the page, and it holds at least one run. *)
Theorem lines_are_buckets (regular : option jsstring) (items : list TextItem)
        (y : Z) (l : list Run) :
  In (y, l) (assembleLines regular items) ->
  l = JsArray.sort byX (map (annotate regular) (filter (inBucket y) items))
  /\ l <> []
  /\ exists item, In item items /\ Math_round (transform5 item) = y.
Proof.
  unfold assembleLines. intros H. apply in_map_iff in H.
  destruct H as (y' & E & Hy). injection E as -> <-.
  unfold sortedYs in Hy. apply sort_In in Hy.
  assert (Hg : line_get (groupLines regular items) y <> None).
  { intros Hn. apply (get_None Z.eqb Z.eqb_eq) in Hn. contradiction. }
  rewrite groupLines_bucket in Hg. unfold lineItems. rewrite groupLines_bucket.
  destruct (filter (inBucket y) items) as [|b bs] eqn:Ef; [now elim Hg|].
  split; [reflexivity|]. split.
  - intros Hnil. apply sort_nil in Hnil. discriminate.
  - exists b. assert (Hb : In b (filter (inBucket y) items)) by (rewrite Ef; now left).
    apply filter_In in Hb. destruct Hb as (Hb & Hk). split; [exact Hb|].
    now apply Z.eqb_eq.
Qed.

Lemma lines_are_buckets_witness :
  map (annotate None) [nth 1 jitter_page low_run; nth 0 jitter_page low_run]
  = JsArray.sort byX (map (annotate None) (filter (inBucket 700) jitter_page))
  /\ map (annotate None) [nth 1 jitter_page low_run; nth 0 jitter_page low_run] <> []
  /\ exists item, In item jitter_page /\ Math_round (transform5 item) = 700%Z.
Proof.
  apply (@lines_are_buckets None jitter_page 700%Z).
  vm_compute. left. reflexivity.
Defined.

(** ** Line and page text *)

Lemma fold_appendRun_acc (l : list Run) (acc : jsstring) :
  fold_left appendRun l acc = acc ++ fold_left appendRun l [].
Proof.
  revert acc. induction l as [|r l IH]; intros acc; cbn [fold_left].
  - now rewrite app_nil_r.
  - rewrite IH, (IH (appendRun [] r)), app_assoc. f_equal.
    unfold appendRun. destruct (isCitation r); [now rewrite app_nil_r|].
    destruct (isBold r); reflexivity.
Qed.

(** X3. The text of a Line is the concatenation, in order, of what each of
    its runs contributes on its own (nothing for a citation, the text
    between bold markers for a bold run, the text as it is otherwise);
    nothing is put between two runs. *)
Theorem renderLine_concat (l1 l2 : list Run) (r : Run) :
  renderLine (l1 ++ l2) = renderLine l1 ++ renderLine l2
  /\ renderLine [r]
     = if isCitation r then []
       else if isBold r then lit "**" ++ text r ++ lit "**" else text r.
Proof.
  split.
  - unfold renderLine. rewrite fold_left_app. apply fold_appendRun_acc.
  - unfold renderLine, appendRun. cbn [fold_left].
    destruct (isCitation r), (isBold r); reflexivity.
Qed.

Lemma fold_appendLine_acc (lines : list (Z * list Run)) (acc : jsstring) :
  fold_left appendLine lines acc = acc ++ fold_left appendLine lines [].
Proof.
  revert acc. induction lines as [|line lines IH]; intros acc; cbn [fold_left].
  - now rewrite app_nil_r.
  - rewrite IH, (IH (appendLine [] line)), app_assoc. f_equal.
    unfold appendLine. destruct (truthy (trim (renderLine (snd line))));
      [reflexivity|now rewrite app_nil_r].
Qed.

Lemma truthy_trim (s : jsstring) : truthy (trim s) = negb (forallb is_ws s).
Proof.
  destruct (forallb is_ws s) eqn:E.
  - apply trim_blank in E. now rewrite E.
  - destruct (trim s) eqn:Et; [|reflexivity].
    apply trim_blank in Et. congruence.
Qed.

Lemma fold_appendLine_blank (lines : list (Z * list Run)) :
  forallb is_ws (fold_left appendLine lines []) = true ->
  fold_left appendLine lines [] = []
  /\ Forall (fun line => trim (renderLine (snd line)) = []) lines.
Proof.
  induction lines as [|line lines IH]; cbn [fold_left]; [auto|].
  rewrite fold_appendLine_acc, forallb_app. intros H.
  apply andb_true_iff in H. destruct H as (H1 & H2).
  destruct (IH H2) as (E & HF). rewrite E, app_nil_r.
  unfold appendLine in *. cbn [app] in *.
  rewrite truthy_trim in *.
  destruct (forallb is_ws (renderLine (snd line))) eqn:Eb; cbn [negb] in *.
  - split; [reflexivity|]. constructor; [now apply trim_blank|exact HF].
  - rewrite forallb_app, Eb in H1. discriminate.
Qed.

(** X4. The text of a page is empty or has something to show: it trims to
    nothing only when it is the empty string, which is when every Line of
    the page renders to blank text. *)
Theorem page_text_blank_iff_empty (regular : option jsstring) (items : list TextItem) :
  (trim (renderPage regular items) = [] <-> renderPage regular items = [])
  /\ (renderPage regular items = []
      <-> Forall (fun line => trim (renderLine (snd line)) = [])
                 (assembleLines regular items)).
Proof.
  unfold renderPage. set (lines := assembleLines regular items). clearbody lines.
  assert (Hall : Forall (fun line => trim (renderLine (snd line)) = []) lines ->
                 fold_left appendLine lines [] = []).
  { induction 1 as [|line rest Hl _ IH]; cbn [fold_left]; [reflexivity|].
    unfold appendLine at 2. rewrite Hl. exact IH. }
  split; split.
  - intros H. apply trim_blank in H. now apply fold_appendLine_blank.
  - intros ->. reflexivity.
  - intros H. apply fold_appendLine_blank. now rewrite H.
  - exact Hall.
Qed.

(** ** The result of a conversion *)

Lemma join_cons (sep x : jsstring) (xs : list jsstring) :
  join sep (x :: xs) = x ++ concat (map (app sep) xs).
Proof.
  revert x. induction xs as [|y xs IH]; intros x.
  - cbn. now rewrite app_nil_r.
  - change (join sep (x :: y :: xs)) with (x ++ sep ++ join sep (y :: xs)).
    rewrite IH. cbn [map concat]. f_equal. apply app_assoc.
Qed.

Lemma collectItems_returns (pdf : PDFDocument) (content : nat -> list TextItem)
      (n pageNum : nat) (acc : list FontStat) :
  (forall p, pageNum <= p < pageNum + n -> getTextContent pdf p = Returns (content p))%nat ->
  collectItems pdf n pageNum acc
  = Returns (acc ++ flat_map (fun p => map fontStat (content p)) (List.seq pageNum n)).
Proof.
  revert pageNum acc. induction n as [|n IH]; intros pageNum acc H; cbn [collectItems List.seq flat_map].
  - now rewrite app_nil_r.
  - rewrite H by lia. cbn [bind]. rewrite IH by (intros p Hp; apply H; lia).
    now rewrite app_assoc.
Qed.

Lemma renderPages_returns (pdf : PDFDocument) (regular : option jsstring)
      (content : nat -> list TextItem) (n pageNum : nat) (acc : jsstring) :
  (forall p, pageNum <= p < pageNum + n -> getTextContent pdf p = Returns (content p))%nat ->
  renderPages pdf regular n pageNum acc
  = Returns (acc ++ concat (map (fun p => (if (1 <? p)%nat then NL ++ NL else [])
                                          ++ renderPage regular (content p))
                                (List.seq pageNum n))).
Proof.
  revert pageNum acc. induction n as [|n IH]; intros pageNum acc H;
    cbn [renderPages List.seq map concat].
  - now rewrite app_nil_r.
  - rewrite H by lia. cbn [bind]. rewrite IH by (intros p Hp; apply H; lia).
    f_equal. destruct (1 <? pageNum)%nat; now rewrite <- !app_assoc.
Qed.

Lemma pages_joined (f : nat -> jsstring) (n : nat) :
  concat (map (fun p => (if (1 <? p)%nat then NL ++ NL else []) ++ f p) (List.seq 1 n))
  = join (NL ++ NL) (map f (List.seq 1 n)).
Proof.
  destruct n as [|n]; [reflexivity|].
  cbn [List.seq map]. rewrite join_cons. cbn [concat].
  change (1 <? 1)%nat with false. cbn [app]. f_equal.
  rewrite map_map. f_equal. apply map_ext_in. intros p Hp.
  apply in_seq in Hp. replace (1 <? p)%nat with true; [reflexivity|].
  symmetry. apply Nat.ltb_lt. lia.
Qed.

(** X5. When the document opens, every page is read and no font name is
    one that [Object.prototype] defines, the result is fixed by the page
    texts: they are joined by an empty line (two newlines); if the joined
    text is blank the promise resolves to the failure
    'No text content found in PDF', and otherwise to the success object
    with the post-processed Markdown of the joined text, the file name with
    its extension changed, and the number of pages.  The regular font used
    for every page is the one the Font Classifier computes from the runs of
    all pages together. *)
Theorem conversion_of_pages (file : File) (pdf : PDFDocument)
        (content : nat -> list TextItem) :
  getDocument file = Returns pdf ->
  (forall p, 1 <= p <= numPages pdf -> getTextContent pdf p = Returns (content p))%nat ->
  (forall p item, (1 <= p <= numPages pdf)%nat -> In item (content p) ->
                  JsObject.inherited (fontNameOf item) = false) ->
  let nums := List.seq 1 (numPages pdf) in
  let regular := regularFont (flat_map (fun p => map fontStat (content p)) nums) in
  let fullText := join (NL ++ NL) (map (fun p => renderPage regular (content p)) nums) in
  convertPdfToMarkdown file
  = Resolves
      (if truthy (trim fullText)
       then Success (postProcess (formatAsMarkdown fullText (name file)))
                    (replace_first pdfExtension (fun _ _ => lit ".md") (name file))
                    (numPages pdf) {| pages := numPages pdf |}
       else Failure (lit "No text content found in PDF")).
Proof.
  intros Hdoc Hpages _ nums regular fullText.
  unfold convertPdfToMarkdown, tryConvert. rewrite Hdoc. cbn [bind].
  rewrite (collectItems_returns pdf content) by (intros p Hp; apply Hpages; lia).
  cbn [bind app]. fold nums. fold regular.
  rewrite (renderPages_returns pdf regular content) by (intros p Hp; apply Hpages; lia).
  cbn [bind app]. rewrite pages_joined. fold nums. fold fullText.
  destruct (truthy (trim fullText)); reflexivity.
Qed.

Lemma conversion_of_pages_witness :
  convertPdfToMarkdown two_page_file
  = Resolves
      (Success (lit "# Report **Title**" ++ NL ++ lit "Some text" ++ NL
                ++ lit "more text" ++ NL ++ NL ++ NL ++ lit "The end" ++ NL ++ NL)
               (lit "Report.md") 2 {| pages := 2 |}).
Proof.
  refine (eq_trans (@conversion_of_pages two_page_file _ two_pages eq_refl _ _) _).
  - intros p _. reflexivity.
  - intros [|[|p]] item _ Hin; cbn [two_pages In] in Hin;
      repeat (destruct Hin as [<-|Hin]; [reflexivity|]); destruct Hin.
  - vm_compute. reflexivity.
Defined.

Lemma collectItems_throws (pdf : PDFDocument) (content : nat -> list TextItem)
      (k : nat) (e : Error) (n pageNum : nat) (acc : list FontStat) :
  (pageNum <= k < pageNum + n)%nat ->
  (forall p, pageNum <= p < k -> getTextContent pdf p = Returns (content p))%nat ->
  getTextContent pdf k = Throws e ->
  collectItems pdf n pageNum acc = Throws e.
Proof.
  revert pageNum acc. induction n as [|n IH]; intros pageNum acc Hk Hbefore He; [lia|].
  cbn [collectItems]. destruct (Nat.eq_dec pageNum k) as [->|Hne].
  - rewrite He. reflexivity.
  - rewrite Hbefore by lia. cbn [bind]. apply IH; [lia| |exact He].
    intros p Hp. apply Hbefore. lia.
Qed.

(** X6. A page that cannot be read ends the conversion where it is first
    read, whatever the pages after it hold.  When the pages before it were
    read and the value thrown is [null] or [undefined], the promise
    rejects; for any other thrown value it resolves to the failure object
    with the message of that value, or with the fixed text
    'Failed to convert PDF to markdown' when the value has no message or an
    empty one. *)
Theorem extraction_failure_reported (file : File) (pdf : PDFDocument)
        (content : nat -> list TextItem) (k : nat) (e : Error) :
  getDocument file = Returns pdf ->
  (1 <= k <= numPages pdf)%nat ->
  (forall p, 1 <= p < k -> getTextContent pdf p = Returns (content p))%nat ->
  getTextContent pdf k = Throws e ->
  convertPdfToMarkdown file
  = match e with
    | Nullish => Rejects
    | Thrown (Some (c :: m)) => Resolves (Failure (c :: m))
    | Thrown _ => Resolves (Failure (lit "Failed to convert PDF to markdown"))
    end.
Proof.
  intros Hdoc Hk Hbefore He.
  unfold convertPdfToMarkdown, tryConvert. rewrite Hdoc. cbn [bind].
  rewrite (@collectItems_throws pdf content k e) by (try assumption; lia).
  cbn [bind]. destruct e as [|[[|c m]|]]; reflexivity.
Qed.

Lemma extraction_failure_reported_witness :
  convertPdfToMarkdown broken_file = Resolves (Failure (lit "Invalid page request")).
Proof.
  apply (@extraction_failure_reported broken_file broken_pdf two_pages 2%nat
           (Thrown (Some (lit "Invalid page request")))).
  - reflexivity.
  - cbn. lia.
  - intros p Hp. assert (p = 1)%nat as -> by lia. reflexivity.
  - reflexivity.
Defined.

(* ================================================================== *)
(** * Matching runs of a class *)

Lemma run_after (p : N -> bool) (s : jsstring) : s = run p s ++ after p s.
Proof.
  induction s as [|x s IH]; [reflexivity|]. cbn [run after].
  destruct (p x); [cbn [app]; now f_equal|reflexivity].
Qed.

Lemma run_all (p : N -> bool) (s : jsstring) : forallb p (run p s) = true.
Proof.
  induction s as [|x s IH]; [reflexivity|]. cbn [run].
  destruct (p x) eqn:E; [cbn [forallb]; now rewrite E|reflexivity].
Qed.

Lemma after_heads (p : N -> bool) (s : jsstring) : heads p (after p s) = false.
Proof.
  induction s as [|x s IH]; [reflexivity|]. cbn [after].
  destruct (p x) eqn:E; [exact IH|exact E].
Qed.

(** A greedy quantifier reads the whole run and hands over to what follows it
    in the pattern; when that fails, shorter readings fail too if what
    follows cannot start with a code unit of the class. *)
Lemma rep_greedy_run (p : N -> bool) (k : cont) (d rest : jsstring)
      (lo : nat) (prev : option N) (c : caps) :
  forallb p d = true -> heads p rest = false ->
  (forall prev' s' c', heads p s' = true -> k prev' s' c' = None) ->
  rep true p lo None prev (d ++ rest) c k
  = if (lo <=? List.length d)%nat then k (last_prev prev d) rest c else None.
Proof.
  intros Hd Hrest Hk. revert lo prev Hd.
  induction d as [|x d IH]; intros lo prev Hd.
  - cbn [app List.length last_prev fold_left].
    destruct rest as [|y rest]; destruct lo; cbn [rep Nat.leb]; try reflexivity;
      cbn [heads] in Hrest; rewrite Hrest; reflexivity.
  - cbn [forallb] in Hd. apply andb_true_iff in Hd. destruct Hd as (Hx & Hd).
    cbn [app List.length last_prev fold_left rep may_repeat dec_hi].
    rewrite Hx. cbn [andb]. destruct lo as [|lo].
    + rewrite (IH 0%nat (Some x) Hd). cbn [Nat.leb].
      fold (last_prev (Some x) d).
      destruct (k (last_prev (Some x) d) rest c) as [res|]; [reflexivity|].
      apply Hk. cbn [heads]. exact Hx.
    + rewrite (IH lo (Some x) Hd). reflexivity.
Qed.

Lemma rep_greedy_max (p : N -> bool) (k : cont) (d rest : jsstring)
      (lo : nat) (prev : option N) (c : caps) (res : jsstring * caps) :
  forallb p d = true -> heads p rest = false -> (lo <= List.length d)%nat ->
  k (last_prev prev d) rest c = Some res ->
  rep true p lo None prev (d ++ rest) c k = Some res.
Proof.
  intros Hd Hrest. revert lo prev Hd.
  induction d as [|x d IH]; intros lo prev Hd Hlo Hk.
  - cbn [List.length] in Hlo. assert (lo = 0)%nat as -> by lia.
    cbn [app last_prev fold_left] in *.
    destruct rest as [|y rest]; cbn [rep]; [exact Hk|].
    cbn [heads] in Hrest. rewrite Hrest. exact Hk.
  - cbn [forallb] in Hd. apply andb_true_iff in Hd. destruct Hd as (Hx & Hd).
    cbn [app List.length last_prev fold_left rep may_repeat dec_hi] in *.
    rewrite Hx. cbn [andb]. destruct lo as [|lo].
    + rewrite (IH 0%nat (Some x) Hd); [reflexivity|lia|exact Hk].
    + apply IH; [exact Hd|lia|exact Hk].
Qed.

Lemma rep_needs_head (p : N -> bool) (k : cont) (s : jsstring)
      (lo : nat) (hi : option nat) (prev : option N) (c : caps) :
  heads p s = false -> rep true p (S lo) hi prev s c k = None.
Proof.
  destruct s as [|x s]; cbn [heads rep]; [reflexivity|]. now intros ->.
Qed.

(** ** Facts on the classes *)

Lemma bullet_cases (c : N) :
  bulletChars c = true ->
  In c [8226; 9679; 9675; 9632; 9633; 9642; 9643; 10003; 10007;
        9670; 9671; 9733; 9734; 10148; 10146; 11166]%N.
Proof.
  unfold bulletChars, one_of. intros H. apply existsb_exists in H.
  destruct H as (g & Hg & E). apply N.eqb_eq in E. now subst.
Qed.

Lemma bullet_not_ws (c : N) : bulletChars c = true -> is_ws c = false.
Proof.
  intros H. apply bullet_cases in H. cbn [In] in H.
  repeat (destruct H as [<-|H]; [reflexivity|]). destruct H.
Qed.

Lemma no_bullet_in (p : N -> bool) (s : jsstring) :
  (forall c, p c = true -> bulletChars c = false) ->
  forallb p s = true -> existsb bulletChars s = false.
Proof.
  intros Hp. induction s as [|x s IH]; [reflexivity|]. cbn [forallb existsb].
  intros H. apply andb_true_iff in H. destruct H as (Hx & Hs).
  now rewrite (Hp x Hx), IH.
Qed.

Lemma test_chr (p : N -> bool) (s : jsstring) : test (Chr p) s = existsb p s.
Proof.
  unfold test, exec. generalize (@None N).
  induction s as [|x s IH]; intros prev; [reflexivity|].
  cbn [exec_from existsb]. unfold match_at. cbn [rmatch].
  destruct (p x); cbn [orb accept]; [reflexivity|apply IH].
Qed.

Lemma test_bulletOnly (s : jsstring) :
  test bulletOnly s = match s with [g] => bulletChars g | _ => false end.
Proof.
  unfold test, bulletOnly. cbn [seq]. rewrite exec_anchored.
  unfold match_at. cbn [rmatch at_bol].
  destruct s as [|x [|y s]]; [reflexivity| |];
    destruct (bulletChars x); reflexivity.
Qed.

(* ================================================================== *)
(** * Numbered and dashed lines *)

Lemma firstn_run (p : N -> bool) (t : jsstring) :
  firstn (List.length t - List.length (after p t)) t = run p t.
Proof.
  rewrite (run_after p t) at 1 3. rewrite length_app.
  replace (List.length (run p t) + List.length (after p t) - List.length (after p t))%nat
    with (List.length (run p t) + 0)%nat by lia.
  rewrite firstn_app_2. cbn [firstn]. apply app_nil_r.
Qed.

Lemma ws_not_dot_head (t : jsstring) :
  truthy t = true -> heads is_ws t = false -> (1 <= List.length (run dot t))%nat.
Proof.
  destruct t as [|x t]; [discriminate|]. cbn [heads run]. intros _ Hx.
  assert (Hd : dot x = true).
  { unfold dot, none_of. cbn [existsb]. rewrite orb_false_r.
    destruct (is_line_terminator x) eqn:E; [|reflexivity].
    unfold is_line_terminator, one_of in E. apply existsb_exists in E.
    destruct E as (g & Hg & E). apply N.eqb_eq in E. subst g. cbn [In] in Hg.
    repeat (destruct Hg as [<-|Hg]; [discriminate Hx|]). destruct Hg. }
  rewrite Hd. cbn [List.length]. lia.
Qed.

(** [(.+)] at the end of a pattern captures the text up to the first line
    terminator. *)
Lemma grp_dot (n : nat) (prev : option N) (t : jsstring) (c : caps) :
  truthy t = true -> heads is_ws t = false ->
  rmatch (Grp n (plus dot)) prev t c accept = Some (after dot t, (n, run dot t) :: c).
Proof.
  intros Ht Hw. cbn [rmatch plus].
  pose proof (@rep_greedy_max dot
                (fun (_ : option N) s' c' => accept None s' ((n, firstn (List.length t - List.length s') t) :: c'))
                (run dot t) (after dot t) 1 prev c
                (after dot t, (n, run dot t) :: c)
                (run_all dot t) (after_heads dot t) (ws_not_dot_head t Ht Hw)) as H.
  rewrite <- run_after in H. cbv beta in H. rewrite firstn_run in H.
  unfold accept in *. apply H. reflexivity.
Qed.

Lemma ws_text_tail (prev : option N) (w t : jsstring) (c : caps) :
  spaces w = true -> truthy t = true -> heads is_ws t = false ->
  rep true is_ws 1 None prev (w ++ t) c
      (fun (prev' : option N) (s' : jsstring) (c' : caps) =>
         rep true dot 1 None prev' s' c'
             (fun (prev'0 : option N) (s'0 : jsstring) (c'0 : caps) =>
                accept prev'0 s'0
                       ((2%nat, firstn (List.length s' - List.length s'0) s') :: c'0)))
  = Some (after dot t, (2%nat, run dot t) :: c).
Proof.
  intros Hw Ht Hh. unfold spaces in Hw. apply andb_true_iff in Hw.
  destruct Hw as (Hne & Hall).
  apply rep_greedy_max; [exact Hall|exact Hh| |].
  - destruct w; [discriminate|cbn [List.length]; lia].
  - apply (@grp_dot 2 (last_prev prev w) t c Ht Hh).
Qed.

Lemma class_cases (l : list N) (c : N) : one_of l c = true -> In c l.
Proof.
  unfold one_of. intros H. apply existsb_exists in H.
  destruct H as (g & Hg & E). apply N.eqb_eq in E. now subst.
Qed.

Lemma itemText_parts (t : jsstring) :
  itemText t = true ->
  truthy t = true /\ heads is_ws t = false /\ existsb bulletChars t = false.
Proof.
  unfold itemText. intros H.
  apply andb_true_iff in H. destruct H as (H & Hg).
  apply andb_true_iff in H. destruct H as (Ht & Hh).
  apply negb_true_iff in Hh. apply negb_true_iff in Hg. auto.
Qed.

Lemma dash_exec (ds : N) (w t : jsstring) :
  dash ds = true -> spaces w = true -> itemText t = true ->
  exists m c, exec bulletStart (ds :: w ++ t) = Some (m, c) /\ cap 2 c = run dot t.
Proof.
  intros Hd Hw Ht. apply itemText_parts in Ht. destruct Ht as (Ht & Hh & Hg).
  unfold bulletStart. cbn [seq]. rewrite exec_anchored.
  unfold match_at. cbn [rmatch at_bol plus].
  rewrite rep_needs_head.
  2:{ cbn [heads]. apply class_cases in Hd. cbn [In] in Hd.
      repeat (destruct Hd as [<-|Hd]; [reflexivity|]). destruct Hd. }
  change (one_of [45; 8211; 8212]%N ds) with (dash ds). rewrite Hd.
  rewrite (@ws_text_tail (Some ds) w t _ Hw Ht Hh).
  eexists. eexists. split; [reflexivity|]. reflexivity.
Qed.

Lemma spaces_no_bullet (w : jsstring) : spaces w = true -> existsb bulletChars w = false.
Proof.
  unfold spaces. intros H. apply andb_true_iff in H. destruct H as (_ & H).
  apply (@no_bullet_in is_ws w); [|exact H].
  intros c Hc. destruct (bulletChars c) eqn:E; [|reflexivity].
  apply bullet_not_ws in E. congruence.
Qed.

(** X7: a line that, once trimmed, is a dash (hyphen, en dash or em dash),
    white space and a text without bullet glyph becomes the list item
    [- text]; the text ends at its first line terminator, and the open list
    state is set without a blank line before the item. *)
Theorem dash_line_item (st : FmtState) (line : jsstring) (ds : N) (w t : jsstring) :
  trim line = ds :: w ++ t ->
  dash ds = true -> spaces w = true -> itemText t = true ->
  formatLine st line = setInList (emit st (lit "- " ++ run dot t ++ NL)) true.
Proof.
  intros E Hd Hw Ht. unfold formatLine. rewrite E. cbn [truthy negb].
  unfold bulletRegex. rewrite test_chr. cbn [existsb]. rewrite existsb_app.
  rewrite (spaces_no_bullet w Hw).
  destruct (itemText_parts t Ht) as (_ & _ & Hg). rewrite Hg.
  assert (Hb : bulletChars ds = false).
  { apply class_cases in Hd. cbn [In] in Hd.
    repeat (destruct Hd as [<-|Hd]; [reflexivity|]). destruct Hd. }
  rewrite Hb. cbn [orb].
  destruct (dash_exec ds w t Hd Hw Ht) as (m & c & -> & ->). reflexivity.
Qed.

Lemma dash_line_item_witness :
  formatLine open_list ([9%N; 8211%N] ++ lit "  second point" ++ [13%N] ++ lit "carried ")
  = setInList (emit open_list (lit "- second point" ++ NL)) true.
Proof.
  apply (@dash_line_item open_list _ 8211%N (lit "  ")
           (lit "second point" ++ [13%N] ++ lit "carried")); reflexivity.
Defined.

Lemma between_cases (lo hi c : N) :
  between lo hi c = true -> (lo <= c <= hi)%N.
Proof.
  unfold between. intros H. apply andb_true_iff in H. destruct H as (H1 & H2).
  apply N.leb_le in H1. apply N.leb_le in H2. lia.
Qed.

Lemma heads_app (p : N -> bool) (d rest : jsstring) :
  truthy d = true -> heads p (d ++ rest) = heads p d.
Proof. destruct d; [discriminate|reflexivity]. Qed.

Lemma roman_letter (c : N) : romanLetters c = true -> letter_ci 97 122 c = true.
Proof.
  unfold romanLetters, one_of_ci. intros H. apply orb_true_iff in H.
  destruct H as [H|H]; apply class_cases in H; cbn [map In] in H;
    repeat (destruct H as [<-|H]; [reflexivity|]); destruct H.
Qed.

Lemma letter_not_digit (c : N) : letter_ci 97 122 c = true -> is_digit c = false.
Proof.
  unfold letter_ci, is_digit. intros H. apply orb_true_iff in H.
  destruct (between 48 57 c) eqn:E; [|reflexivity].
  apply between_cases in E.
  destruct H as [H|H]; apply between_cases in H; lia.
Qed.


Lemma marker_unit_plain (c : N) :
  marker_unit c = true ->
  dotOrParen c = false /\ dash c = false /\ bulletChars c = false.
Proof.
  intros H.
  assert (Hr : (48 <= c <= 57)%N \/ (97 <= c <= 122)%N \/ (65 <= c <= 90)%N).
  { unfold marker_unit, is_digit, letter_ci in H.
    apply orb_true_iff in H. destruct H as [H|H].
    - left. now apply between_cases.
    - apply orb_true_iff in H. destruct H as [H|H]; apply between_cases in H;
        cbn in H; lia. }
  repeat split.
  - destruct (dotOrParen c) eqn:E; [|reflexivity]. apply class_cases in E.
    cbn [In] in E. lia.
  - destruct (dash c) eqn:E; [|reflexivity]. apply class_cases in E.
    cbn [In] in E. lia.
  - destruct (bulletChars c) eqn:E; [|reflexivity]. apply bullet_cases in E.
    cbn [In] in E. lia.
Qed.

Lemma marker_head (d : jsstring) :
  numberMarker d = true -> heads marker_unit d = true.
Proof.
  unfold numberMarker. destruct d as [|x d]; [discriminate|].
  cbn [truthy andb forallb heads]. unfold marker_unit. intros H.
  apply orb_true_iff in H. destruct H as [H|H].
  - apply orb_true_iff in H. destruct H as [H|H].
    + apply andb_true_iff in H. destruct H as (-> & _). reflexivity.
    + apply andb_true_iff in H. destruct H as (_ & H).
      apply andb_true_iff in H. destruct H as (-> & _). apply orb_true_r.
  - apply andb_true_iff in H. destruct H as (H & _).
    rewrite (roman_letter x H). apply orb_true_r.
Qed.

Lemma marker_all (d : jsstring) :
  numberMarker d = true -> forallb marker_unit d = true.
Proof.
  unfold numberMarker. intros H. apply andb_true_iff in H. destruct H as (_ & H).
  apply forallb_forall. intros c Hc. unfold marker_unit.
  apply orb_true_iff in H. destruct H as [H|H].
  - apply orb_true_iff in H. destruct H as [H|H].
    + rewrite forallb_forall in H. now rewrite (H c Hc).
    + apply andb_true_iff in H. destruct H as (_ & H).
      rewrite forallb_forall in H. rewrite (H c Hc). apply orb_true_r.
  - rewrite forallb_forall in H. rewrite (roman_letter c (H c Hc)). apply orb_true_r.
Qed.

Lemma numbered_exec (d : jsstring) (sep : N) (w t : jsstring) :
  numberMarker d = true -> dotOrParen sep = true -> spaces w = true -> itemText t = true ->
  exists m c, exec numberedStart (d ++ sep :: w ++ t) = Some (m, c) /\ cap 2 c = run dot t.
Proof.
  intros Hd Hs Hw Ht. apply itemText_parts in Ht. destruct Ht as (Ht & Hh & Hg).
  set (s := d ++ sep :: w ++ t).
  set (K1 := fun (prev' : option N) (s' : jsstring) (c' : caps) =>
               rmatch (Grp 2 (plus dot)) prev' s'
                      ((1%nat, firstn (List.length s - List.length s') s) :: c') accept).
  set (KS := fun (prev' : option N) (s' : jsstring) (c' : caps) =>
               rmatch (Cat (Chr dotOrParen) (plus is_ws)) prev' s' c' K1).
  set (res := (after dot t,
               [(2%nat, run dot t); (1%nat, firstn (List.length s - List.length t) s)])).
  assert (HS : forall prev, KS prev (sep :: w ++ t) [] = Some res).
  { intros prev. unfold KS. cbn [rmatch plus]. rewrite Hs.
    unfold spaces in Hw. apply andb_true_iff in Hw. destruct Hw as (Hne & Hall).
    apply rep_greedy_max; [exact Hall|exact Hh| |].
    - destruct w; [discriminate|cbn [List.length]; lia].
    - unfold K1. apply (@grp_dot 2 _ t _ Ht Hh). }
  assert (HF : forall prev s' c', heads marker_unit s' = true -> KS prev s' c' = None).
  { intros prev [|x s'] c' Hx; [discriminate|]. unfold KS. cbn [rmatch heads] in *.
    destruct (marker_unit_plain x Hx) as (-> & _). reflexivity. }
  assert (Hsep : forall p, (forall c, p c = true -> marker_unit c = true) ->
                           heads p (sep :: w ++ t) = false).
  { intros p Hp. cbn [heads]. destruct (p sep) eqn:E; [|reflexivity].
    destruct (marker_unit_plain sep (Hp sep E)) as (E' & _). congruence. }
  assert (Hrun : forall p, (forall c, p c = true -> marker_unit c = true) ->
                           truthy d = true -> forallb p d = true ->
                           rep true p 1 None None s [] KS = Some res).
  { intros p Hp Hne Hall. unfold s.
    rewrite (@rep_greedy_run p KS d (sep :: w ++ t) 1 None [] Hall (Hsep p Hp)).
    - replace (1 <=? List.length d)%nat with true.
      + apply HS.
      + destruct d; [discriminate|reflexivity].
    - intros prev' s' c' Hh'. apply HF. destruct s' as [|x s']; [discriminate|].
      cbn [heads] in *. now apply Hp. }
  assert (E : match_at numberedStart None s
              = match rep true is_digit 1 None None s [] KS with
                | Some r => Some r
                | None =>
                    match rmatch (Chr (letter_ci 97 122)) None s [] KS with
                    | Some r => Some r
                    | None => rep true romanLetters 1 None None s [] KS
                    end
                end) by reflexivity.
  assert (Hres : match_at numberedStart None s = Some res).
  { rewrite E. clear E. pose proof Hd as Hm. unfold numberMarker in Hm.
    apply andb_true_iff in Hm. destruct Hm as (Hne & Hm).
    destruct (forallb is_digit d) eqn:Edig.
    { rewrite (Hrun is_digit); [reflexivity| |exact Hne|exact Edig].
      intros c Hc. unfold marker_unit. now rewrite Hc. }
    cbn [orb] in Hm.
    assert (Hnd : heads is_digit s = false).
    { unfold s. rewrite heads_app by exact Hne.
      pose proof (marker_head d Hd) as Hmh.
      destruct d as [|x d]; [discriminate|]. cbn [heads forallb] in *.
      destruct (is_digit x) eqn:Ex; [|reflexivity]. exfalso.
      cbn [andb] in Edig.
      apply orb_true_iff in Hm. destruct Hm as [Hm|Hm].
      - apply andb_true_iff in Hm. destruct Hm as (_ & Hm).
        apply andb_true_iff in Hm. destruct Hm as (Hl & _).
        apply letter_not_digit in Hl. congruence.
      - apply andb_true_iff in Hm. destruct Hm as (Hl & _).
        apply roman_letter in Hl. apply letter_not_digit in Hl. congruence. }
    rewrite (rep_needs_head is_digit KS s 0 None None [] Hnd).
    destruct d as [|x [|y d]]; [discriminate| |].
    - (* one letter *)
      assert (Hl : letter_ci 97 122 x = true).
      { cbn [List.length Nat.eqb forallb andb] in Hm.
        apply orb_true_iff in Hm. destruct Hm as [Hm|Hm].
        - now rewrite andb_true_r in Hm.
        - rewrite andb_true_r in Hm. now apply roman_letter. }
      unfold s. cbn [app rmatch]. rewrite Hl. rewrite HS. reflexivity.
    - (* several roman letters *)
      cbn [List.length Nat.eqb andb orb] in Hm.
      assert (Hx : letter_ci 97 122 x = true).
      { cbn [forallb] in Hm. apply andb_true_iff in Hm. destruct Hm as (Hx & _).
        now apply roman_letter. }
      assert (Hy : marker_unit y = true).
      { cbn [forallb] in Hm. apply andb_true_iff in Hm. destruct Hm as (_ & Hm).
        apply andb_true_iff in Hm. destruct Hm as (Hy & _).
        unfold marker_unit. rewrite (roman_letter y Hy). apply orb_true_r. }
      replace (rmatch (Chr (letter_ci 97 122)) None s [] KS) with (@None (jsstring * caps)).
      + apply Hrun; [|reflexivity|exact Hm].
        intros c Hc. unfold marker_unit. rewrite (roman_letter c Hc). apply orb_true_r.
      + unfold s. cbn [app rmatch]. rewrite Hx. symmetry. apply HF. exact Hy. }
  clear E. unfold numberedStart in *. cbn [seq] in *. rewrite exec_anchored.
  fold s. rewrite Hres. unfold res. eexists. eexists. split; reflexivity.
Qed.

Lemma marker_no_bullet (d : jsstring) :
  numberMarker d = true -> existsb bulletChars d = false.
Proof.
  intros H. apply (@no_bullet_in marker_unit d); [|now apply marker_all].
  intros c Hc. now destruct (marker_unit_plain c Hc) as (_ & _ & ->).
Qed.

Lemma bulletStart_needs_dash (s : jsstring) :
  heads bulletChars s = false -> heads dash s = false -> exec bulletStart s = None.
Proof.
  intros Hb Hd. unfold bulletStart. cbn [seq]. rewrite exec_anchored.
  unfold match_at. cbn [rmatch at_bol plus].
  rewrite rep_needs_head by exact Hb.
  destruct s as [|x s]; [reflexivity|]. cbn [heads] in Hd.
  change (one_of [45; 8211; 8212]%N x) with (dash x). now rewrite Hd.
Qed.

(** X8: a line that, once trimmed, is a marker (digits, one letter, or
    letters of the roman numerals, in either case), a full stop or closing
    parenthesis, white space and a text without bullet glyph becomes the
    item [1. text] whatever the marker was; the text ends at its first line
    terminator. *)
Theorem numbered_line_item (st : FmtState) (line d : jsstring) (sep : N) (w t : jsstring) :
  trim line = d ++ sep :: w ++ t ->
  numberMarker d = true -> dotOrParen sep = true -> spaces w = true -> itemText t = true ->
  formatLine st line = setInList (emit st (lit "1. " ++ run dot t ++ NL)) true.
Proof.
  intros E Hd Hs Hw Ht. unfold formatLine. rewrite E.
  pose proof (marker_head d Hd) as Hmh.
  assert (Hne : truthy d = true) by (destruct d; [discriminate|reflexivity]).
  replace (truthy (d ++ sep :: w ++ t)) with true by (destruct d; [discriminate|reflexivity]).
  cbn [negb].
  unfold bulletRegex. rewrite test_chr. rewrite existsb_app. cbn [existsb].
  rewrite existsb_app. rewrite (marker_no_bullet d Hd), (spaces_no_bullet w Hw).
  destruct (itemText_parts t Ht) as (_ & _ & Hg). rewrite Hg.
  assert (Hsb : bulletChars sep = false).
  { destruct (bulletChars sep) eqn:Eb; [|reflexivity].
    apply bullet_cases in Eb. apply class_cases in Hs. cbn [In] in *.
    destruct Hs as [<-|[<-|[]]]; lia. }
  rewrite Hsb. cbn [orb].
  rewrite bulletStart_needs_dash.
  - destruct (numbered_exec d sep w t Hd Hs Hw Ht) as (m & c & -> & ->). reflexivity.
  - rewrite heads_app by exact Hne. destruct d as [|x d]; [discriminate|].
    cbn [heads] in *. now destruct (marker_unit_plain x Hmh) as (_ & _ & ->).
  - rewrite heads_app by exact Hne. destruct d as [|x d]; [discriminate|].
    cbn [heads] in *. now destruct (marker_unit_plain x Hmh) as (_ & -> & _).
Qed.

Lemma numbered_line_item_witness :
  formatLine open_list (lit "  IV)  Results ")
  = setInList (emit open_list (lit "1. Results" ++ NL)) true.
Proof.
  apply (@numbered_line_item open_list _ (lit "IV") 41%N (lit "  ") (lit "Results"));
    reflexivity.
Defined.

(* ================================================================== *)
(** * Lines with bullet glyphs *)

Lemma match_bulletSplit (prev : option N) (s : jsstring) :
  match_at bulletSplit prev s
  = match s with
    | x :: s' => if bulletChars x then Some (s', [(1%nat, [x])]) else None
    | [] => None
    end.
Proof.
  unfold match_at, bulletSplit. cbn [rmatch]. destruct s as [|x s]; [reflexivity|].
  destruct (bulletChars x); [|reflexivity]. unfold accept. cbn [List.length].
  replace (S (List.length s) - List.length s)%nat with 1%nat by lia. reflexivity.
Qed.

Lemma split_plain (prev : option N) (cur s0 rest : jsstring) :
  existsb bulletChars s0 = false ->
  split_from bulletSplit 0 prev cur (s0 ++ rest)
  = match rest with
    | [] => [rev cur ++ s0]
    | _ :: _ => split_from bulletSplit 0 (last_prev prev s0) (rev s0 ++ cur) rest
    end.
Proof.
  revert prev cur. induction s0 as [|x s0 IH]; intros prev cur H.
  - cbn [app rev last_prev fold_left]. destruct rest; [|reflexivity].
    cbn [split_from]. now rewrite app_nil_r.
  - cbn [existsb] in H. apply orb_false_iff in H. destruct H as (Hx & H).
    cbn [app split_from]. rewrite match_bulletSplit, Hx.
    rewrite (IH (Some x) (x :: cur) H). cbn [rev last_prev fold_left].
    rewrite <- !app_assoc. reflexivity.
Qed.

Lemma split_glyphs (items : list (N * jsstring)) (prev : option N) (cur s0 : jsstring) :
  existsb bulletChars s0 = false -> forallb glyphItem items = true ->
  split_from bulletSplit 0 prev cur (glyphLine s0 items)
  = (rev cur ++ s0) :: flat_map (fun it => [[fst it]; snd it]) items.
Proof.
  revert prev cur s0. induction items as [|[g s] items IH]; intros prev cur s0 H0 Hall.
  - unfold glyphLine. cbn [flat_map]. rewrite (@split_plain prev cur s0 [] H0). reflexivity.
  - cbn [forallb] in Hall. apply andb_true_iff in Hall. destruct Hall as (Hit & Hall).
    unfold glyphItem in Hit. cbn [fst snd] in Hit.
    apply andb_true_iff in Hit. destruct Hit as (Hg & Hs). apply negb_true_iff in Hs.
    unfold glyphLine. cbn [flat_map fst snd app].
    rewrite (@split_plain prev cur s0 (g :: s ++ _) H0).
    cbn [split_from]. rewrite match_bulletSplit, Hg.
    unfold matched. cbn [List.length].
    replace (S (List.length (s ++ flat_map (fun it => fst it :: snd it) items))
             - List.length (s ++ flat_map (fun it => fst it :: snd it) items))%nat
      with 1%nat by lia.
    cbn [firstn List.length cap Nat.eqb].
    rewrite rev_app_distr, rev_involutive. f_equal. f_equal.
    apply (IH (Some g) [] s Hs Hall).
Qed.

Lemma split_glyphLine (s0 : jsstring) (items : list (N * jsstring)) :
  existsb bulletChars s0 = false -> forallb glyphItem items = true ->
  split bulletSplit (glyphLine s0 items) = glyphParts s0 items.
Proof.
  intros H0 Hall. unfold split.
  destruct (glyphLine s0 items) as [|x l] eqn:E.
  - unfold glyphLine in E. apply app_eq_nil in E. destruct E as (-> & E).
    destruct items as [|[g s] items]; [reflexivity|discriminate].
  - rewrite <- E. apply (@split_glyphs items None [] s0 H0 Hall).
Qed.

Lemma trimStart_sub (p : N -> bool) (s : jsstring) :
  existsb p s = false -> existsb p (trimStart s) = false.
Proof.
  induction s as [|x s IH]; [reflexivity|]. cbn [trimStart].
  destruct (is_ws x); [|tauto]. cbn [existsb]. intros H.
  apply orb_false_iff in H. now apply IH.
Qed.

Lemma existsb_rev_false (p : N -> bool) (s : jsstring) :
  existsb p s = false -> existsb p (rev s) = false.
Proof.
  intros H. destruct (existsb p (rev s)) eqn:E; [|reflexivity].
  apply existsb_exists in E. destruct E as (x & Hx & Hp). apply in_rev in Hx.
  assert (existsb p s = true) by (apply existsb_exists; eauto). congruence.
Qed.

Lemma trim_sub (p : N -> bool) (s : jsstring) :
  existsb p s = false -> existsb p (trim s) = false.
Proof.
  intros H. unfold trim, trimEnd. apply existsb_rev_false, trimStart_sub,
    existsb_rev_false, trimStart_sub, H.
Qed.

Lemma plain_not_bulletOnly (s : jsstring) :
  existsb bulletChars s = false -> test bulletOnly (trim s) = false.
Proof.
  intros H. apply (trim_sub bulletChars) in H. rewrite test_bulletOnly.
  destruct (trim s) as [|g [|y l]]; try reflexivity.
  cbn [existsb] in H. apply orb_false_iff in H. tauto.
Qed.

Lemma trim_glyph (g : N) : bulletChars g = true -> trim [g] = [g].
Proof.
  intros H. apply bullet_not_ws in H. unfold trim, trimEnd. cbn [trimStart rev app].
  rewrite H. cbn [rev app trimStart]. now rewrite H.
Qed.

(** The loop over the parts: the text in front of the first glyph is
    flushed as a paragraph, every glyph emits the visible text after it. *)
Lemma bulletLoop_items (items : list (N * jsstring)) (before : option jsstring)
      (st : FmtState) (cur : jsstring) :
  forallb glyphItem items = true ->
  bulletLoop before false (flat_map (fun it => [[fst it]; snd it]) items) st cur
  = match items with
    | [] => (st, cur)
    | _ :: _ =>
        ({| markdown := markdown (flush st cur) ++ bulletLines items;
            inList := existsb visible items || inList (flush st cur) |}, [])
    end.
Proof.
  revert before st cur. induction items as [|[g s] items IH]; intros before st cur Hall.
  - reflexivity.
  - cbn [forallb] in Hall. apply andb_true_iff in Hall. destruct Hall as (Hit & Hall).
    unfold glyphItem in Hit. cbn [fst snd] in Hit.
    apply andb_true_iff in Hit. destruct Hit as (Hg & Hs). apply negb_true_iff in Hs.
    cbn [flat_map fst snd app bulletLoop].
    rewrite (trim_glyph g Hg). cbn [truthy negb]. rewrite test_bulletOnly, Hg.
    replace (if truthy cur then (emit (endList st) (cur ++ NL), []) else (st, cur))
      with (flush st cur, @nil N)
      by (unfold flush; destruct cur; reflexivity).
    assert (Hts : truthy s && truthy (trim s) = truthy (trim s)).
    { destruct s; [reflexivity|]. reflexivity. }
    rewrite Hts. unfold bulletLines at 1. cbn [flat_map existsb].
    change (visible (g, s)) with (truthy (trim s)). cbn [snd].
    destruct (truthy (trim s)) eqn:Ev; cbn [negb orb];
      rewrite (IH _ _ [] Hall); destruct items as [|it items].
    + cbn [flat_map existsb orb app setInList emit markdown inList].
      rewrite app_nil_r. reflexivity.
    + unfold flush at 1 3. cbn [truthy setInList emit markdown inList].
      rewrite <- !app_assoc. cbn [app]. rewrite orb_true_r. reflexivity.
    + cbn [flat_map existsb orb app]. rewrite app_nil_r.
      destruct (flush st cur); reflexivity.
    + unfold flush at 1 3. cbn [truthy app]. reflexivity.
Qed.

(** X9: a line with bullet glyphs.  Once trimmed it is a text without
    glyph followed by glyphs, each with the glyph-free text after it.  The
    text in front, when visible, closes an open list and becomes a paragraph
    (with the space the loop appends); every glyph followed by visible text
    emits the item [- text], a glyph followed by nothing visible emits
    nothing; the list is open afterwards exactly when an item was emitted or
    it was open and not closed by the paragraph. *)
Theorem glyph_line_items (st : FmtState) (line s0 : jsstring) (items : list (N * jsstring)) :
  trim line = glyphLine s0 items ->
  existsb bulletChars s0 = false -> forallb glyphItem items = true -> items <> [] ->
  formatLine st line
  = let st0 := flush st (if truthy (trim s0) then trim s0 ++ lit " " else []) in
    {| markdown := markdown st0 ++ bulletLines items;
       inList := existsb visible items || inList st0 |}.
Proof.
  intros E H0 Hall Hne. unfold formatLine. rewrite E.
  destruct items as [|[g s] items]; [congruence|]. clear Hne.
  set (it := (g, s)) in *.
  assert (Hb : existsb bulletChars (glyphLine s0 (it :: items)) = true).
  { unfold glyphLine. rewrite existsb_app. cbn [flat_map app existsb].
    cbn [forallb] in Hall. apply andb_true_iff in Hall. destruct Hall as (Hit & _).
    unfold glyphItem in Hit. apply andb_true_iff in Hit. destruct Hit as (Hit & _).
    unfold it in *. cbn [fst snd] in *. rewrite Hit. apply orb_true_r. }
  replace (truthy (glyphLine s0 (it :: items))) with true
    by (destruct (glyphLine s0 (it :: items)); [discriminate Hb|reflexivity]).
  cbn [negb]. unfold bulletRegex. rewrite test_chr, Hb.
  rewrite (split_glyphLine s0 (it :: items) H0 Hall). unfold glyphParts.
  cbn [bulletLoop]. rewrite (plain_not_bulletOnly s0 H0). cbn [negb app].
  destruct (truthy (trim s0)) eqn:Et; cbn [negb];
    rewrite (@bulletLoop_items (it :: items) (Some s0) st _ Hall); reflexivity.
Qed.

Lemma glyph_line_items_witness :
  formatLine open_list goals_line
  = {| markdown := lit "- one" ++ NL ++ NL ++ lit "Goals: " ++ NL
                   ++ lit "- fast" ++ NL ++ lit "- small" ++ NL;
       inList := true |}.
Proof.
  apply (@glyph_line_items open_list goals_line (lit "Goals: ")
           [(8226%N, lit " fast "); (9679%N, lit " small "); (8226%N, [])]);
    [reflexivity|reflexivity|reflexivity|discriminate].
Defined.

(* ================================================================== *)
(** * Paragraph lines *)

Lemma rep_plus_run (p : N -> bool) (k : cont) (s : jsstring) (prev : option N) (c : caps) :
  (forall prev' s' c', heads p s' = true -> k prev' s' c' = None) ->
  rep true p 1 None prev s c k
  = if heads p s then k (last_prev prev (run p s)) (after p s) c else None.
Proof.
  intros Hk. destruct (heads p s) eqn:Eh.
  - pose proof (@rep_greedy_run p k (run p s) (after p s) 1 prev c
                  (run_all p s) (after_heads p s) Hk) as H.
    rewrite <- run_after in H. rewrite H.
    destruct s as [|x s]; [discriminate|]. cbn [heads] in Eh. cbn [run].
    rewrite Eh. reflexivity.
  - now apply rep_needs_head.
Qed.

Lemma bulletStart_needs_shape (s : jsstring) :
  existsb bulletChars s = false -> dashShape s = false -> exec bulletStart s = None.
Proof.
  intros Hb Hd. unfold bulletStart. cbn [seq]. rewrite exec_anchored.
  unfold match_at. cbn [rmatch at_bol plus].
  rewrite rep_needs_head.
  2:{ destruct s as [|x s]; [reflexivity|]. cbn [heads existsb] in *.
      apply orb_false_iff in Hb. tauto. }
  destruct s as [|x s]; [reflexivity|]. cbn [dashShape] in Hd.
  change (one_of [45; 8211; 8212]%N x) with (dash x).
  destruct (dash x); [|reflexivity]. cbn [andb] in Hd.
  rewrite rep_needs_head by exact Hd. reflexivity.
Qed.

Lemma numberedStart_needs_shape (s : jsstring) :
  numberedShape s = false -> exec numberedStart s = None.
Proof.
  intros Hn. unfold numberedShape in Hn.
  apply orb_false_iff in Hn. destruct Hn as (Hn & Hr).
  apply orb_false_iff in Hn. destruct Hn as (Hd & Hl).
  set (K1 := fun (prev' : option N) (s' : jsstring) (c' : caps) =>
               rmatch (Grp 2 (plus dot)) prev' s'
                      ((1%nat, firstn (List.length s - List.length s') s) :: c') accept).
  set (KS := fun (prev' : option N) (s' : jsstring) (c' : caps) =>
               rmatch (Cat (Chr dotOrParen) (plus is_ws)) prev' s' c' K1).
  assert (HF : forall prev s' c', heads marker_unit s' = true -> KS prev s' c' = None).
  { intros prev [|x s'] c' Hx; [discriminate|]. unfold KS. cbn [rmatch heads] in *.
    destruct (marker_unit_plain x Hx) as (-> & _). reflexivity. }
  assert (HN : forall prev s' c', sepShape s' = false -> KS prev s' c' = None).
  { intros prev [|x s'] c' Hx; [reflexivity|]. unfold KS. cbn [rmatch sepShape plus] in *.
    destruct (dotOrParen x); [|reflexivity]. cbn [andb] in Hx.
    now apply rep_needs_head. }
  assert (Hrun : forall p, (forall c, p c = true -> marker_unit c = true) ->
                           heads p s && sepShape (after p s) = false ->
                           rep true p 1 None None s [] KS = None).
  { intros p Hp Hs. rewrite rep_plus_run.
    - destruct (heads p s); [|reflexivity]. cbn [andb] in Hs. now apply HN.
    - intros prev' s' c' Hh'. apply HF. destruct s' as [|x s']; [discriminate|].
      cbn [heads] in *. now apply Hp. }
  assert (E : match_at numberedStart None s
              = match rep true is_digit 1 None None s [] KS with
                | Some r => Some r
                | None =>
                    match rmatch (Chr (letter_ci 97 122)) None s [] KS with
                    | Some r => Some r
                    | None => rep true romanLetters 1 None None s [] KS
                    end
                end) by reflexivity.
  assert (Hres : match_at numberedStart None s = None).
  { rewrite E. clear E.
    rewrite (Hrun is_digit); [|intros c Hc; unfold marker_unit; now rewrite Hc|exact Hd].
    rewrite (Hrun romanLetters);
      [|intros c Hc; unfold marker_unit; rewrite (roman_letter c Hc); apply orb_true_r
       |exact Hr].
    destruct s as [|x s']; [reflexivity|]. cbn [rmatch heads tl] in *.
    destruct (letter_ci 97 122 x); [|reflexivity]. cbn [andb] in Hl.
    now rewrite HN. }
  clear E. unfold numberedStart in *. cbn [seq] in *. rewrite exec_anchored.
  now rewrite Hres.
Qed.

(** X10: every other line is a paragraph line.  A visible line without
    bullet glyph that starts neither with a dash and white space nor with a
    marker, a separator and white space is emitted trimmed, on a line of its
    own, after the blank line that closes an open list. *)
Theorem paragraph_line (st : FmtState) (line : jsstring) :
  truthy (trim line) = true ->
  existsb bulletChars (trim line) = false ->
  dashShape (trim line) = false -> numberedShape (trim line) = false ->
  formatLine st line = emit (endList st) (trim line ++ NL).
Proof.
  intros Hne Hb Hd Hn. unfold formatLine. rewrite Hne. cbn [negb].
  unfold bulletRegex. rewrite test_chr, Hb.
  rewrite (bulletStart_needs_shape (trim line) Hb Hd).
  rewrite (numberedStart_needs_shape (trim line) Hn). reflexivity.
Qed.

Lemma paragraph_line_witness :
  formatLine open_list (lit " 3.14 is close - enough ")
  = {| markdown := lit "- one" ++ NL ++ NL ++ lit "3.14 is close - enough" ++ NL;
       inList := false |}.
Proof.
  apply (@paragraph_line open_list (lit " 3.14 is close - enough ")); reflexivity.
Defined.

(* ================================================================== *)
(** * The shapes are exact *)

Lemma after_nil (p : N -> bool) (s : jsstring) : after p s = [] -> forallb p s = true.
Proof.
  induction s as [|x s IH]; [reflexivity|]. cbn [after forallb].
  destruct (p x); [exact IH|discriminate].
Qed.

(** A trimmed text does not end in white space. *)
Lemma trim_ends_visible (line pre rest : jsstring) :
  trim line = pre ++ rest -> truthy rest = true -> truthy (after is_ws rest) = true.
Proof.
  intros E Hne. destruct (after is_ws rest) as [|c t] eqn:Ea; [exfalso|reflexivity].
  apply after_nil in Ea. unfold trim, trimEnd in E.
  apply (f_equal (@rev N)) in E. rewrite rev_involutive, rev_app_distr in E.
  destruct (rev rest) as [|c t] eqn:Er.
  - apply (f_equal (@rev N)) in Er. rewrite rev_involutive in Er. subst rest.
    discriminate.
  - cbn [app] in E. apply trimStart_head in E.
    rewrite forallb_forall in Ea. rewrite (Ea c) in E; [discriminate|].
    apply in_rev. rewrite Er. now left.
Qed.

Lemma run_truthy (p : N -> bool) (s : jsstring) :
  heads p s = true -> truthy (run p s) = true.
Proof.
  destruct s as [|x s]; [discriminate|]. cbn [heads run]. now intros ->.
Qed.

Lemma spaces_run (s : jsstring) : heads is_ws s = true -> spaces (run is_ws s) = true.
Proof.
  intros H. unfold spaces. now rewrite run_truthy, run_all.
Qed.

Lemma sepShape_parts (s : jsstring) :
  sepShape s = true ->
  exists sep rest, s = sep :: rest /\ dotOrParen sep = true /\ heads is_ws rest = true.
Proof.
  destruct s as [|sep rest]; [discriminate|]. cbn [sepShape]. intros H.
  apply andb_true_iff in H. destruct H as (H1 & H2). eauto.
Qed.

Lemma formatLine_without_glyph (st : FmtState) (line : jsstring) :
  truthy (trim line) = true -> existsb bulletChars (trim line) = false ->
  formatLine st line
  = match exec bulletStart (trim line) with
    | Some (_, c) => setInList (emit st (lit "- " ++ cap 2 c ++ NL)) true
    | None =>
        match exec numberedStart (trim line) with
        | Some (_, c) => setInList (emit st (lit "1. " ++ cap 2 c ++ NL)) true
        | None => emit (endList st) (trim line ++ NL)
        end
    end.
Proof.
  intros Hne Hb. unfold formatLine. rewrite Hne. cbn [negb].
  unfold bulletRegex. now rewrite test_chr, Hb.
Qed.

(** The text after the white space that follows a separator is an item
    text. *)
Lemma item_after (line pre rest : jsstring) :
  trim line = pre ++ rest -> existsb bulletChars (trim line) = false ->
  heads is_ws rest = true ->
  spaces (run is_ws rest) = true /\ itemText (after is_ws rest) = true.
Proof.
  intros E Hb Hh. split; [now apply spaces_run|]. unfold itemText.
  rewrite (trim_ends_visible line pre rest E)
    by (destruct rest; [discriminate|reflexivity]).
  rewrite after_heads. cbn [negb andb].
  rewrite E in Hb. rewrite existsb_app in Hb. apply orb_false_iff in Hb.
  destruct Hb as (_ & Hb). rewrite (run_after is_ws rest), existsb_app in Hb.
  apply orb_false_iff in Hb. destruct Hb as (_ & ->). reflexivity.
Qed.

Lemma numbered_shape_parts (line : jsstring) :
  existsb bulletChars (trim line) = false -> numberedShape (trim line) = true ->
  exists d sep w,
    trim line = d ++ sep :: w ++ numberedText (trim line)
    /\ numberMarker d = true /\ dotOrParen sep = true /\ spaces w = true
    /\ itemText (numberedText (trim line)) = true.
Proof.
  intros Hb Hn. unfold numberedShape in Hn. unfold numberedText.
  destruct (heads is_digit (trim line) && sepShape (after is_digit (trim line))) eqn:EA.
  { apply andb_true_iff in EA. destruct EA as (Hh & Hs).
    destruct (sepShape_parts _ Hs) as (sep & rest & Ea & Hsep & Hw).
    rewrite Ea. cbn [tl].
    assert (E : trim line = (run is_digit (trim line) ++ [sep]) ++ rest).
    { rewrite <- app_assoc. cbn [app]. rewrite <- Ea. apply run_after. }
    destruct (item_after line _ rest E Hb Hw) as (Hsp & Hit).
    exists (run is_digit (trim line)), sep, (run is_ws rest).
    repeat split; try assumption.
    - rewrite <- run_after. rewrite <- Ea. apply run_after.
    - unfold numberMarker. now rewrite run_truthy, run_all. }
  cbn [orb] in Hn.
  destruct (heads (letter_ci 97 122) (trim line) && sepShape (tl (trim line))) eqn:EB.
  { apply andb_true_iff in EB. destruct EB as (Hh & Hs).
    destruct (sepShape_parts _ Hs) as (sep & rest & Ea & Hsep & Hw).
    rewrite Ea. cbn [tl].
    destruct (trim line) as [|l s'] eqn:Es; [discriminate|]. cbn [tl heads] in *.
    subst s'.
    assert (E : trim line = [l; sep] ++ rest) by exact Es.
    assert (Hb' : existsb bulletChars (trim line) = false) by now rewrite Es.
    destruct (item_after line _ rest E Hb' Hw) as (Hsp & Hit).
    exists [l], sep, (run is_ws rest). repeat split; try assumption.
    - cbn [app]. now rewrite <- run_after.
    - unfold numberMarker. cbn [truthy List.length Nat.eqb forallb andb].
      rewrite Hh. cbn [andb]. rewrite orb_true_r. reflexivity. }
  cbn [orb] in Hn. apply andb_true_iff in Hn. destruct Hn as (Hh & Hs).
  destruct (sepShape_parts _ Hs) as (sep & rest & Ea & Hsep & Hw).
  rewrite Ea. cbn [tl].
  assert (E : trim line = (run romanLetters (trim line) ++ [sep]) ++ rest).
  { rewrite <- app_assoc. cbn [app]. rewrite <- Ea. apply run_after. }
  destruct (item_after line _ rest E Hb Hw) as (Hsp & Hit).
  exists (run romanLetters (trim line)), sep, (run is_ws rest).
  repeat split; try assumption.
  - rewrite <- run_after. rewrite <- Ea. apply run_after.
  - unfold numberMarker. rewrite run_truthy by exact Hh. rewrite run_all.
    cbn [andb]. apply orb_true_r.
Qed.

(** X20: the two list shapes are exact.  A line without bullet glyph
    whose trimmed text starts with a dash and white space is always the
    item [- text], the text being what follows that white space up to the
    first line terminator; one that does not, and starts with a marker
    (digits, one letter, or roman letters), a full stop or closing
    parenthesis and white space, is always the item [1. text].  With the
    paragraph case this decides every visible line without glyph. *)
Theorem list_shapes_exact (st : FmtState) (line : jsstring) :
  existsb bulletChars (trim line) = false ->
  (dashShape (trim line) = true ->
   formatLine st line
   = setInList (emit st (lit "- " ++ run dot (after is_ws (tl (trim line))) ++ NL)) true)
  /\ (dashShape (trim line) = false -> numberedShape (trim line) = true ->
      formatLine st line
      = setInList (emit st (lit "1. " ++ run dot (numberedText (trim line)) ++ NL)) true).
Proof.
  intros Hb. split.
  - intros Hd. destruct (trim line) as [|ds rest] eqn:Et; [discriminate|].
    cbn [dashShape] in Hd. apply andb_true_iff in Hd. destruct Hd as (Hds & Hw).
    assert (E : trim line = [ds] ++ rest) by now rewrite Et.
    assert (Hb' : existsb bulletChars (trim line) = false) by now rewrite Et.
    destruct (item_after line _ rest E Hb' Hw) as (Hsp & Hit).
    rewrite formatLine_without_glyph; rewrite Et; [|reflexivity|exact Hb].
    cbn [tl]. rewrite (run_after is_ws rest) at 1.
    destruct (dash_exec ds _ _ Hds Hsp Hit) as (m & c & -> & ->). reflexivity.
  - intros Hd Hn.
    destruct (numbered_shape_parts line Hb Hn) as (d & sep & w & E & Hm & Hsep & Hw & Hit).
    assert (Hne : truthy (trim line) = true).
    { rewrite E. unfold numberMarker in Hm. destruct d; [discriminate|reflexivity]. }
    rewrite formatLine_without_glyph by assumption.
    rewrite (bulletStart_needs_shape (trim line) Hb Hd).
    rewrite E at 1.
    destruct (numbered_exec d sep w _ Hm Hsep Hw Hit) as (m & c & -> & ->). reflexivity.
Qed.

Lemma list_shapes_exact_witness :
  formatLine open_list (lit "  b)  second ")
  = setInList (emit open_list (lit "1. second" ++ NL)) true.
Proof.
  apply (@list_shapes_exact open_list (lit "  b)  second ")); reflexivity.
Defined.

(* ================================================================== *)
(** * The heading and the blank lines of the formatted text *)

Lemma rep_short (p : N -> bool) (k : cont) (d rest : jsstring)
      (lo : nat) (prev : option N) (c : caps) :
  forallb p d = true -> heads p rest = false -> (List.length d < lo)%nat ->
  rep true p lo None prev (d ++ rest) c k = None.
Proof.
  intros Hd Hrest. revert lo prev Hd.
  induction d as [|x d IH]; intros lo prev Hd Hlo.
  - destruct lo as [|lo]; [cbn [List.length] in Hlo; lia|].
    now apply rep_needs_head.
  - cbn [forallb] in Hd. apply andb_true_iff in Hd. destruct Hd as (Hx & Hd).
    destruct lo as [|lo]; [cbn [List.length] in Hlo; lia|].
    cbn [app rep may_repeat dec_hi]. rewrite Hx. cbn [andb].
    apply IH; [exact Hd|cbn [List.length] in Hlo; lia].
Qed.

Lemma match_fourNewlines (prev : option N) (s : jsstring) :
  match_at fourNewlines prev s
  = if (4 <=? List.length (run (just 10) s))%nat
    then Some (after (just 10) s, []) else None.
Proof.
  unfold match_at, fourNewlines. cbn [rmatch].
  rewrite (run_after (just 10) s) at 1.
  destruct (4 <=? List.length (run (just 10) s))%nat eqn:E.
  - apply Nat.leb_le in E.
    apply rep_greedy_max;
      [apply run_all|apply after_heads|exact E|reflexivity].
  - apply Nat.leb_gt in E.
    apply rep_short; [apply run_all|apply after_heads|exact E].
Qed.

Lemma replace_skip (r : regex) (f : jsstring -> caps -> jsstring)
      (d rest : jsstring) (prev : option N) :
  replace_from r f (List.length d) prev (d ++ rest)
  = replace_from r f 0 (last_prev prev d) rest.
Proof.
  revert prev. induction d as [|x d IH]; intros prev.
  - cbn [List.length app last_prev fold_left]. reflexivity.
  - cbn [List.length app last_prev fold_left replace_from]. apply IH.
Qed.

Lemma squeeze_prev (prev prev' : option N) (s : jsstring) :
  squeeze prev s = squeeze prev' s.
Proof.
  unfold squeeze. generalize 0%nat as n. revert prev prev'.
  induction s as [|x s IH]; intros prev prev' n.
  - destruct n; cbn [replace_from]; [|reflexivity].
    now rewrite !match_fourNewlines.
  - destruct n; cbn [replace_from]; [|apply IH].
    rewrite !match_fourNewlines. reflexivity.
Qed.

Lemma squeeze_cons (prev : option N) (x : N) (s : jsstring) :
  squeeze prev (x :: s)
  = if (4 <=? List.length (run (just 10) (x :: s)))%nat
    then NL ++ NL ++ squeeze None (after (just 10) (x :: s))
    else x :: squeeze None s.
Proof.
  unfold squeeze at 1. cbn [replace_from]. rewrite match_fourNewlines.
  destruct (4 <=? List.length (run (just 10) (x :: s)))%nat eqn:E.
  - unfold matched. rewrite firstn_run.
    apply Nat.leb_le in E.
    assert (Hx : just 10 x = true).
    { cbn [run] in E. destruct (just 10 x); [reflexivity|cbn [List.length] in E; lia]. }
    cbn [run after] in *. rewrite Hx in *. cbn [List.length] in *.
    rewrite <- app_assoc. f_equal.
    pose proof (replace_skip fourNewlines (fun _ _ => NL ++ NL)
                  (run (just 10) s) (after (just 10) s) (Some x)) as H.
    rewrite <- run_after in H. rewrite H. f_equal.
    apply (squeeze_prev (last_prev (Some x) (run (just 10) s)) None).
  - f_equal. apply squeeze_prev.
Qed.

Lemma after_length_le (p : N -> bool) (s : jsstring) :
  (List.length (after p s) <= List.length s)%nat.
Proof.
  induction s as [|x s IH]; cbn [after List.length]; [lia|].
  destruct (p x); cbn [List.length]; lia.
Qed.

Lemma run_heads_false (p : N -> bool) (s : jsstring) :
  heads p s = false -> run p s = [].
Proof. destruct s as [|x s]; [reflexivity|]. cbn [heads run]. now intros ->. Qed.

(** The squeezed text starts with as many newlines as the text did, or with
    two when the text started with four or more, and no position of it
    starts four newlines. *)
Lemma squeeze_spec (n : nat) (s : jsstring) :
  (List.length s <= n)%nat ->
  List.length (run (just 10) (squeeze None s))
  = (if (4 <=? List.length (run (just 10) s))%nat then 2%nat
     else List.length (run (just 10) s))
  /\ no_run (just 10) 4 (squeeze None s) = true.
Proof.
  revert s. induction n as [|n IH]; intros s Hn.
  - destruct s; [|cbn [List.length] in Hn; lia]. split; reflexivity.
  - destruct s as [|x s]; [split; reflexivity|].
    cbn [List.length] in Hn. rewrite squeeze_cons.
    destruct (4 <=? List.length (run (just 10) (x :: s)))%nat eqn:E.
    + assert (Hx : just 10 x = true).
      { apply Nat.leb_le in E. cbn [run] in E.
        destruct (just 10 x); [reflexivity|cbn [List.length] in E; lia]. }
      cbn [after]. rewrite Hx.
      destruct (IH (after (just 10) s)) as (Hlen & Hno).
      { pose proof (after_length_le (just 10) s). lia. }
      rewrite (run_heads_false _ _ (after_heads (just 10) s)) in Hlen.
      cbn [List.length Nat.leb] in Hlen.
      change (NL ++ NL ++ ?t) with (10%N :: 10%N :: t).
      cbn [run no_run]. change (just 10 10) with true. cbn iota.
      cbn [List.length]. rewrite Hlen. cbn [Nat.ltb Nat.leb andb]. split; [reflexivity|exact Hno].
    + destruct (IH s) as (Hlen & Hno); [lia|].
      apply Nat.leb_gt in E. cbn [run no_run] in *.
      destruct (just 10 x) eqn:Hx.
      * cbn [List.length] in *.
        replace (4 <=? List.length (run (just 10) s))%nat with false in Hlen
          by (symmetry; apply Nat.leb_gt; lia).
        rewrite Hlen. split; [reflexivity|]. rewrite Hno, andb_true_r.
        apply Nat.ltb_lt. lia.
      * cbn [List.length]. split; [reflexivity|]. rewrite Hno. reflexivity.
Qed.

Lemma squeeze_plain (pre s : jsstring) (prev : option N) :
  existsb (just 10) pre = false -> squeeze prev (pre ++ s) = pre ++ squeeze None s.
Proof.
  revert prev. induction pre as [|x pre IH]; intros prev H.
  - apply squeeze_prev.
  - cbn [existsb] in H. apply orb_false_iff in H. destruct H as (Hx & H).
    cbn [app]. rewrite squeeze_cons. cbn [run]. rewrite Hx. cbn [List.length Nat.leb].
    f_equal. now apply IH.
Qed.

Lemma squeeze_two (s : jsstring) :
  exists rest, squeeze None (NL ++ NL ++ s) = NL ++ NL ++ rest.
Proof.
  change (NL ++ NL ++ s) with (10%N :: 10%N :: s). rewrite squeeze_cons.
  destruct (4 <=? _)%nat; [eexists; reflexivity|].
  rewrite squeeze_cons. destruct (4 <=? _)%nat.
  - eexists. change (NL ++ NL ++ ?t) with (10%N :: 10%N :: t). reflexivity.
  - eexists. reflexivity.
Qed.

(** ** The segmenter only appends *)


Lemma extends_refl (st : FmtState) : extends st st.
Proof. exists []. now rewrite app_nil_r. Qed.

Lemma extends_trans (st1 st2 st3 : FmtState) :
  extends st1 st2 -> extends st2 st3 -> extends st1 st3.
Proof.
  intros (o1 & H1) (o2 & H2). exists (o1 ++ o2). now rewrite H2, H1, app_assoc.
Qed.

Lemma extends_emit (st : FmtState) (s : jsstring) : extends st (emit st s).
Proof. now exists s. Qed.

Lemma extends_setInList (st : FmtState) (b : bool) : extends st (setInList st b).
Proof. exists []. cbn [setInList markdown]. now rewrite app_nil_r. Qed.

Lemma extends_endList (st : FmtState) : extends st (endList st).
Proof.
  unfold endList. destruct (inList st); [|apply extends_refl].
  eapply extends_trans; [apply extends_emit|apply extends_setInList].
Qed.

Create HintDb fmt.

#[local] Hint Resolve extends_refl extends_emit extends_setInList extends_endList : fmt.

Lemma bulletLoop_extends (parts : list jsstring) (before : option jsstring) (skip : bool)
      (st : FmtState) (cur : jsstring) :
  extends st (fst (bulletLoop before skip parts st cur)).
Proof.
  revert before skip st cur.
  induction parts as [|p rest IH]; intros before skip st cur; [apply extends_refl|].
  cbn [bulletLoop]. destruct skip; [apply IH|].
  destruct (negb (truthy (trim p))); [apply IH|].
  destruct (test bulletOnly (trim p)).
  - assert (Hf : extends st (fst (if truthy cur
                                  then (emit (endList st) (cur ++ NL), @nil N)
                                  else (st, cur)))).
    { destruct (truthy cur); cbn [fst]; eauto using extends_trans with fmt. }
    destruct (if truthy cur then (emit (endList st) (cur ++ NL), @nil N) else (st, cur))
      as [st1 cur1]. cbn [fst] in Hf.
    destruct rest as [|nextPart rest'].
    + eapply extends_trans; [exact Hf|apply IH].
    + destruct (truthy nextPart && truthy (trim nextPart)).
      * eapply extends_trans; [exact Hf|].
        eapply extends_trans; [|apply IH].
        eauto using extends_trans with fmt.
      * eapply extends_trans; [exact Hf|apply IH].
  - destruct (negb _); apply IH.
Qed.

Lemma formatLine_extends (st : FmtState) (line : jsstring) :
  extends st (formatLine st line).
Proof.
  unfold formatLine. destruct (negb (truthy (trim line))).
  { eauto using extends_trans with fmt. }
  destruct (test bulletRegex (trim line)).
  - pose proof (bulletLoop_extends (split bulletSplit (trim line)) None false st []) as H.
    destruct (bulletLoop None false (split bulletSplit (trim line)) st []) as [st1 cur].
    cbn [fst] in H. destruct (truthy (trim cur)); [|exact H].
    eauto using extends_trans with fmt.
  - destruct (exec bulletStart (trim line)) as [[m c]|].
    { eauto using extends_trans with fmt. }
    destruct (exec numberedStart (trim line)) as [[m c]|];
      eauto using extends_trans with fmt.
Qed.

Lemma formatLines_extend (lines : list jsstring) (st : FmtState) :
  extends st (fold_left formatLine lines st).
Proof.
  revert st. induction lines as [|l lines IH]; intros st; [apply extends_refl|].
  cbn [fold_left]. eapply extends_trans; [apply formatLine_extends|apply IH].
Qed.

(** ** The extension of the file name *)

Lemma match_pdfExtension (prev : option N) (s : jsstring) :
  match_at pdfExtension prev s = if pdfSuffix s then Some ([], []) else None.
Proof.
  unfold match_at, pdfExtension, pdfSuffix. cbn [seq rmatch].
  destruct s as [|a [|b [|c [|d [|e s]]]]]; try reflexivity;
    try (destruct (just 46 a); reflexivity);
    try (destruct (just 46 a), (one_of_ci [112]%N b); reflexivity);
    try (destruct (just 46 a), (one_of_ci [112]%N b), (one_of_ci [100]%N c); reflexivity);
    destruct (just 46 a), (one_of_ci [112]%N b), (one_of_ci [100]%N c),
      (one_of_ci [102]%N d); reflexivity.
Qed.

Lemma pdfSuffix_length (s : jsstring) : pdfSuffix s = true -> List.length s = 4%nat.
Proof.
  unfold pdfSuffix. destruct s as [|a [|b [|c [|d [|e s]]]]]; try discriminate.
  reflexivity.
Qed.

Lemma replace_pdf_suffix (f : jsstring -> caps -> jsstring) (base ext : jsstring)
      (prev : option N) :
  pdfSuffix ext = true ->
  replace_first_from pdfExtension f prev (base ++ ext) = base ++ f ext [].
Proof.
  intros He. revert prev. induction base as [|x base IH]; intros prev.
  - cbn [app]. destruct ext as [|a ext]; [discriminate|].
    cbn [replace_first_from]. rewrite match_pdfExtension, He.
    unfold matched. cbn [List.length]. rewrite Nat.sub_0_r.
    change (S (List.length ext)) with (List.length (a :: ext)).
    rewrite firstn_all. now rewrite app_nil_r.
  - cbn [app replace_first_from]. rewrite match_pdfExtension.
    replace (pdfSuffix (x :: base ++ ext)) with false.
    + now rewrite IH.
    + symmetry. destruct (pdfSuffix (x :: base ++ ext)) eqn:E; [|reflexivity].
      apply pdfSuffix_length in E. apply pdfSuffix_length in He.
      cbn [List.length] in E. rewrite length_app in E. lia.
Qed.

Lemma replace_no_suffix (f : jsstring -> caps -> jsstring) (s : jsstring) (prev : option N) :
  existsb pdfSuffix (tails s) = false ->
  replace_first_from pdfExtension f prev s = s.
Proof.
  revert prev. induction s as [|x s IH]; intros prev H.
  - cbn [replace_first_from]. now rewrite match_pdfExtension.
  - cbn [tails existsb] in H. apply orb_false_iff in H. destruct H as (Hx & H).
    cbn [replace_first_from]. rewrite match_pdfExtension, Hx. now rewrite IH.
Qed.

(** X11: the formatted text opens with the heading.  When the file name
    holds no newline, the text starts with [# ], the name without its
    [.pdf] extension (in either case of the letters) and an empty line,
    whatever the extracted text is. *)
Theorem heading_first (text base ext : jsstring) :
  existsb (just 10) base = false -> pdfSuffix ext = true ->
  exists body, formatAsMarkdown text (base ++ ext) = lit "# " ++ base ++ NL ++ NL ++ body.
Proof.
  intros Hb He. unfold formatAsMarkdown, replace_first.
  rewrite (@replace_pdf_suffix (fun _ _ => []) base ext None He). rewrite app_nil_r.
  destruct (formatLines_extend (split_lines text)
              {| markdown := lit "# " ++ base ++ NL ++ NL; inList := false |})
    as (out & ->).
  cbn [markdown]. unfold replace_all. fold fourNewlines. fold (squeeze None).
  replace ((lit "# " ++ base ++ NL ++ NL) ++ out)
    with ((lit "# " ++ base) ++ NL ++ NL ++ out)
    by (rewrite <- !app_assoc; reflexivity).
  rewrite squeeze_plain.
  - destruct (squeeze_two out) as (rest & ->). exists rest.
    now rewrite <- !app_assoc.
  - rewrite existsb_app, Hb. reflexivity.
Qed.

Lemma heading_first_witness :
  exists body,
    formatAsMarkdown (lit "Some text") (lit "Annual Report.PDF")
    = lit "# Annual Report" ++ NL ++ NL ++ body.
Proof.
  apply (@heading_first (lit "Some text") (lit "Annual Report") (lit ".PDF")); reflexivity.
Defined.

(** X12: the formatted text never holds four newlines in a row: runs of
    four and more are replaced by two. *)
Theorem no_four_newlines (text fileName : jsstring) :
  no_run (just 10) 4 (formatAsMarkdown text fileName) = true.
Proof.
  unfold formatAsMarkdown, replace_all.
  apply (squeeze_spec (n := List.length (markdown (fold_left formatLine (split_lines text)
           {| markdown := lit "# " ++ replace_first pdfExtension (fun _ _ => []) fileName
                                   ++ NL ++ NL;
              inList := false |})))).
  apply Nat.le_refl.
Qed.

(* ================================================================== *)
(** * The result of a conversion *)

Lemma convert_cases (file : File) :
  (exists fullText pdf,
      convertPdfToMarkdown file
      = Resolves (Success (postProcess (formatAsMarkdown fullText (name file)))
                          (replace_first pdfExtension (fun _ _ => lit ".md") (name file))
                          (numPages pdf) {| pages := numPages pdf |}))
  \/ (exists e, convertPdfToMarkdown file = Resolves (Failure e) /\ truthy e = true)
  \/ convertPdfToMarkdown file = Rejects.
Proof.
  assert (Hcatch : forall e : Error,
             (exists m, match e with
                        | Nullish => Rejects
                        | Thrown message => Resolves (Failure (reported message))
                        end = Resolves (Failure m) /\ truthy m = true)
             \/ match e with
                | Nullish => Rejects
                | Thrown message => Resolves (Failure (reported message))
                end = Rejects).
  { intros [|[[|c m]|]]; [right; reflexivity| | |];
      left; eexists; split; reflexivity. }
  unfold convertPdfToMarkdown, tryConvert.
  destruct (getDocument file) as [pdf|e]; cbn [bind]; [|right; apply Hcatch].
  destruct (collectItems pdf (numPages pdf) 1 []) as [allItems|e]; cbn [bind];
    [|right; apply Hcatch].
  destruct (renderPages pdf (regularFont allItems) (numPages pdf) 1 []) as [fullText|e];
    cbn [bind]; [|right; apply Hcatch].
  destruct (truthy (trim fullText)); cbn [negb].
  - left. exists fullText, pdf. reflexivity.
  - right. left. eexists. split; reflexivity.
Qed.

(** X13: what a conversion returns.  A successful result holds a Markdown
    text without two blanks in a row and the same page count twice; its
    name is the file name with [.md] in place of a final [.pdf] (in either
    case of the letters), and the unchanged file name when there is no such
    ending.  A failure always carries a non-empty message. *)
Theorem conversion_result (file : File) :
  match convertPdfToMarkdown file with
  | Resolves (Success md originalName pageCount info) =>
      no_double_space md = true
      /\ pages info = pageCount
      /\ (forall base ext, name file = base ++ ext -> pdfSuffix ext = true ->
                           originalName = base ++ lit ".md")
      /\ (existsb pdfSuffix (tails (name file)) = false -> originalName = name file)
  | Resolves (Failure e) => e <> []
  | Rejects => True
  end.
Proof.
  destruct (convert_cases file) as [(fullText & pdf & ->)|[(e & -> & He)| ->]].
  - split; [|split; [reflexivity|split]].
    + destruct (postProcess_last (formatAsMarkdown fullText (name file))) as (t & ->).
      apply collapseSpaces_no_double.
    + intros base ext -> He. unfold replace_first.
      apply (@replace_pdf_suffix (fun _ _ => lit ".md") base ext None He).
    + intros H. unfold replace_first. now apply replace_no_suffix.
  - destruct e; [discriminate|congruence].
  - exact I.
Qed.

(* ================================================================== *)
(** * The pass that moves white space behind a marker *)

Lemma moveSpace_match_prev (prev prev' : option N) (s : jsstring) :
  match_at (seq [Grp 1 (Chr (none_of [is_ws])); plus is_ws; stars]) prev s
  = match_at (seq [Grp 1 (Chr (none_of [is_ws])); plus is_ws; stars]) prev' s.
Proof. unfold match_at. cbn [seq rmatch]. reflexivity. Qed.

Lemma replace_prev (r : regex) (f : jsstring -> caps -> jsstring) :
  (forall prev prev' s, match_at r prev s = match_at r prev' s) ->
  forall s n prev prev', replace_from r f n prev s = replace_from r f n prev' s.
Proof.
  intros Hr. induction s as [|x s IH]; intros n prev prev'.
  - destruct n; cbn [replace_from]; [|reflexivity]. now rewrite (Hr prev prev').
  - destruct n; cbn [replace_from]; [|apply IH]. now rewrite (Hr prev prev').
Qed.

Lemma nonws_spec (x : N) : none_of [is_ws] x = negb (is_ws x).
Proof. unfold none_of. cbn [existsb]. now rewrite orb_false_r. Qed.

Lemma stars_eq : stars = Cat (Chr (just star_c)) (Chr (just star_c)).
Proof. reflexivity. Qed.

Lemma after_ws_head (a rest : jsstring) (x : N) :
  existsb (just star_c) a = false -> is_ws x = false -> just star_c x = false ->
  heads (just star_c) (after is_ws (a ++ x :: rest)) = false.
Proof.
  intros Ha Hx Hs. induction a as [|y a IH]; cbn [app after].
  - rewrite Hx. cbn [heads]. exact Hs.
  - cbn [existsb] in Ha. apply orb_false_iff in Ha. destruct Ha as (Hy & Ha).
    destruct (is_ws y); [now apply IH|]. cbn [heads]. exact Hy.
Qed.

Lemma moveSpace_no_match (a rest : jsstring) (x y : N) (prev : option N) :
  existsb (just star_c) a = false -> is_ws x = false -> just star_c x = false ->
  match_at (seq [Grp 1 (Chr (none_of [is_ws])); plus is_ws; stars]) prev
           (y :: a ++ x :: rest) = None.
Proof.
  intros Ha Hx Hs. unfold match_at. cbn [seq rmatch plus].
  destruct (none_of [is_ws] y); [|reflexivity].
  rewrite rep_plus_run.
  - destruct (heads is_ws (a ++ x :: rest)); [|reflexivity].
    pose proof (after_ws_head a rest x Ha Hx Hs) as H.
    rewrite stars_eq. cbn [rmatch].
    destruct (after is_ws (a ++ x :: rest)) as [|z l]; [reflexivity|].
    cbn [heads] in H. now rewrite H.
  - intros prev' [|z l] c' Hz; [discriminate|]. cbn [heads] in Hz.
    rewrite stars_eq. cbn [rmatch].
    replace (just star_c z) with false; [reflexivity|].
    symmetry. destruct (just star_c z) eqn:E; [|reflexivity].
    apply N.eqb_eq in E. subst z. discriminate Hz.
Qed.

(** X14: the pass that moves white space behind a marker acts on opening
    markers as well.  In a text whose first stars are a marker that follows
    a visible code unit and white space, that white space, line breaks
    included, is removed, the marker is put right after the visible code
    unit and a blank after the marker; the pass goes on behind it. *)
Theorem moveSpace_pulls_marker (a : jsstring) (x : N) (w b : jsstring) :
  existsb (just star_c) a = false -> is_ws x = false -> just star_c x = false ->
  spaces w = true ->
  moveSpace (a ++ x :: w ++ lit "**" ++ b) = a ++ x :: lit "** " ++ moveSpace b.
Proof.
  intros Ha Hx Hs Hw. unfold moveSpace, replace_all.
  enough (H : forall prev,
             replace_from (seq [Grp 1 (Chr (none_of [is_ws])); plus is_ws; stars])
                          (fun _ c => cap 1 c ++ lit "** ") 0 prev
                          (a ++ x :: w ++ lit "**" ++ b)
             = a ++ x :: lit "** "
                 ++ replace_from (seq [Grp 1 (Chr (none_of [is_ws])); plus is_ws; stars])
                                 (fun _ c => cap 1 c ++ lit "** ") 0 None b)
    by apply H.
  induction a as [|y a IH]; intros prev.
  - cbn [app replace_from].
    assert (Hm : match_at (seq [Grp 1 (Chr (none_of [is_ws])); plus is_ws; stars]) prev
                          (x :: w ++ lit "**" ++ b) = Some (b, [(1%nat, [x])])).
    { unfold match_at. cbn [seq rmatch plus]. rewrite nonws_spec, Hx. cbn [negb].
      unfold spaces in Hw. apply andb_true_iff in Hw. destruct Hw as (Hne & Hall).
      apply rep_greedy_max; [exact Hall|reflexivity| |].
      - destruct w; [discriminate|cbn [List.length]; lia].
      - rewrite stars_eq. cbn [rmatch]. unfold accept. cbn [List.length].
        replace (S (List.length (w ++ lit "**" ++ b)) - List.length (w ++ lit "**" ++ b))%nat
          with 1%nat by lia.
        reflexivity. }
    rewrite Hm. unfold matched. cbn [cap Nat.eqb List.length].
    assert (Hl : (S (List.length (w ++ lit "**" ++ b)) - List.length b
                  = S (List.length (w ++ lit "**")))%nat).
    { rewrite !length_app. lia. }
    rewrite Hl. cbn [firstn].
    assert (Hf : firstn (List.length (w ++ lit "**")) (w ++ lit "**" ++ b) = w ++ lit "**").
    { rewrite app_assoc.
      replace (List.length (w ++ lit "**")) with (List.length (w ++ lit "**") + 0)%nat by lia.
      rewrite firstn_app_2. cbn [firstn]. apply app_nil_r. }
    rewrite Hf. cbn [List.length app]. f_equal.
    change (lit "** ") with ([42; 42; 32]%N). cbn [app]. do 3 f_equal.
    replace (w ++ lit "**" ++ b) with ((w ++ lit "**") ++ b) by now rewrite <- app_assoc.
    rewrite replace_skip. apply replace_prev. apply moveSpace_match_prev.
  - cbn [existsb] in Ha. apply orb_false_iff in Ha. destruct Ha as (Hy & Ha).
    cbn [app replace_from]. rewrite (moveSpace_no_match a _ x y prev Ha Hx Hs).
    f_equal. apply (IH Ha).
Qed.

Lemma moveSpace_pulls_marker_witness :
  moveSpace (lit "# Title" ++ NL ++ NL ++ lit "**Summary** of 2024")
  = lit "# Title** Summary** of 2024".
Proof.
  apply (@moveSpace_pulls_marker (lit "# Titl") 101%N (NL ++ NL) (lit "Summary** of 2024"));
    reflexivity.
Defined.

(* ================================================================== *)
(** * The pass that removes numbers between white space *)

Lemma after_ws_heads (q : N -> bool) (a rest : jsstring) (x : N) :
  existsb q a = false -> is_ws x = false -> q x = false ->
  heads q (after is_ws (a ++ x :: rest)) = false.
Proof.
  intros Ha Hx Hq. induction a as [|y a IH]; cbn [app after].
  - rewrite Hx. cbn [heads]. exact Hq.
  - cbn [existsb] in Ha. apply orb_false_iff in Ha. destruct Ha as (Hy & Ha).
    destruct (is_ws y); [now apply IH|]. cbn [heads]. exact Hy.
Qed.

Lemma digit_not_ws (c : N) : is_digit c = true -> is_ws c = false.
Proof.
  intros H. apply between_cases in H. destruct (is_ws c) eqn:E; [|reflexivity].
  unfold is_ws in E. apply orb_true_iff in E. destruct E as [E|E].
  - apply class_cases in E. cbn [In] in E. lia.
  - apply between_cases in E. lia.
Qed.

Lemma stripMid_match_prev (prev prev' : option N) (s : jsstring) :
  match_at (seq [plus is_ws; plus is_digit; plus is_ws]) prev s
  = match_at (seq [plus is_ws; plus is_digit; plus is_ws]) prev' s.
Proof.
  unfold match_at. cbn [seq rmatch plus].
  destruct s as [|x s]; [reflexivity|]. cbn [rep]. reflexivity.
Qed.

Lemma stripMid_no_match (a rest : jsstring) (x y : N) (prev : option N) :
  existsb is_digit a = false -> is_ws x = false -> is_digit x = false ->
  match_at (seq [plus is_ws; plus is_digit; plus is_ws]) prev (y :: a ++ x :: rest) = None.
Proof.
  intros Ha Hx Hd. unfold match_at. cbn [seq rmatch plus].
  rewrite rep_plus_run.
  - destruct (heads is_ws (y :: a ++ x :: rest)) eqn:Ey; [|reflexivity].
    apply rep_needs_head. cbn [heads] in Ey. cbn [after]. rewrite Ey.
    now apply after_ws_heads.
  - intros prev' s' c' Hs. apply rep_needs_head.
    destruct s' as [|z s']; [reflexivity|]. cbn [heads] in *.
    destruct (is_digit z) eqn:E; [|reflexivity].
    apply digit_not_ws in E. congruence.
Qed.

Lemma spaces_parts (w : jsstring) :
  spaces w = true -> forallb is_ws w = true /\ (1 <= List.length w)%nat.
Proof.
  unfold spaces. intros H. apply andb_true_iff in H. destruct H as (Hne & Hall).
  split; [exact Hall|]. destruct w; [discriminate|cbn [List.length]; lia].
Qed.

Lemma stripMid_match (w d w' b : jsstring) (prev : option N) :
  spaces w = true -> truthy d = true -> forallb is_digit d = true ->
  spaces w' = true -> heads is_ws b = false ->
  match_at (seq [plus is_ws; plus is_digit; plus is_ws]) prev (w ++ d ++ w' ++ b)
  = Some (b, []).
Proof.
  intros Hw Hne Hd Hw' Hb. unfold match_at. cbn [seq rmatch plus].
  destruct (spaces_parts w Hw) as (Hall & Hlen).
  destruct (spaces_parts w' Hw') as (Hall' & Hlen').
  apply rep_greedy_max; [exact Hall| |exact Hlen|].
  { destruct d as [|z d]; [discriminate|]. cbn [app heads forallb] in *.
    apply andb_true_iff in Hd. destruct Hd as (Hz & _). now apply digit_not_ws. }
  apply rep_greedy_max; [exact Hd| | |].
  { destruct w' as [|z w']; [discriminate|]. cbn [app heads forallb] in *.
    apply andb_true_iff in Hall'. destruct Hall' as (Hz & _).
    destruct (is_digit z) eqn:E; [|reflexivity]. apply digit_not_ws in E. congruence. }
  { destruct d; [discriminate|cbn [List.length]; lia]. }
  apply rep_greedy_max; [exact Hall'|exact Hb|exact Hlen'|reflexivity].
Qed.

(** X19: a number between white space is removed from the text.  In a text
    whose first digits are a number that follows a visible code unit and
    white space and is followed by white space, the pass replaces the
    number and the white space around it by one blank, and goes on behind
    it. *)
Theorem stripMidLine_removes_number (a : jsstring) (x : N) (w d w' b : jsstring) :
  existsb is_digit a = false -> is_ws x = false -> is_digit x = false ->
  spaces w = true -> truthy d = true -> forallb is_digit d = true ->
  spaces w' = true -> heads is_ws b = false ->
  stripMidLine (a ++ x :: w ++ d ++ w' ++ b) = a ++ x :: lit " " ++ stripMidLine b.
Proof.
  intros Ha Hx Hxd Hw Hne Hd Hw' Hb. unfold stripMidLine, replace_all.
  enough (H : forall prev,
             replace_from (seq [plus is_ws; plus is_digit; plus is_ws])
                          (fun _ _ => lit " ") 0 prev (a ++ x :: w ++ d ++ w' ++ b)
             = a ++ x :: lit " "
                 ++ replace_from (seq [plus is_ws; plus is_digit; plus is_ws])
                                 (fun _ _ => lit " ") 0 None b)
    by apply H.
  induction a as [|y a IH]; intros prev.
  - cbn [app replace_from].
    assert (Hn : match_at (seq [plus is_ws; plus is_digit; plus is_ws]) prev
                          (x :: w ++ d ++ w' ++ b) = None).
    { unfold match_at. cbn [seq rmatch plus]. apply rep_needs_head. exact Hx. }
    rewrite Hn. f_equal.
    destruct w as [|z w]; [discriminate|].
    pose proof (stripMid_match (z :: w) d w' b (Some x) Hw Hne Hd Hw' Hb) as Hm.
    cbn [app] in Hm. cbn [app replace_from]. rewrite Hm.
    unfold matched. cbn [List.length].
    assert (Hl : (S (List.length (w ++ d ++ w' ++ b)) - List.length b
                  = S (List.length (w ++ d ++ w')))%nat).
    { rewrite !length_app. lia. }
    rewrite Hl. cbn [firstn List.length].
    change (lit " ") with ([32%N]). cbn [app]. f_equal.
    assert (Hf : firstn (List.length (w ++ d ++ w')) (w ++ d ++ w' ++ b) = w ++ d ++ w').
    { replace (w ++ d ++ w' ++ b) with ((w ++ d ++ w') ++ b)
        by (rewrite <- !app_assoc; reflexivity).
      replace (List.length (w ++ d ++ w')) with (List.length (w ++ d ++ w') + 0)%nat by lia.
      rewrite firstn_app_2. cbn [firstn]. apply app_nil_r. }
    rewrite Hf.
    replace (w ++ d ++ w' ++ b) with ((w ++ d ++ w') ++ b)
      by (rewrite <- !app_assoc; reflexivity).
    rewrite replace_skip. apply replace_prev. apply stripMid_match_prev.
  - cbn [existsb] in Ha. apply orb_false_iff in Ha. destruct Ha as (Hy & Ha).
    cbn [app replace_from]. rewrite (@stripMid_no_match a _ x y prev Ha Hx Hxd).
    f_equal. apply (IH Ha).
Qed.

Lemma stripMidLine_removes_number_witness :
  stripMidLine (lit "Revenue grew 15 percent") = lit "Revenue grew percent".
Proof.
  apply (@stripMidLine_removes_number (lit "Revenue gre") 119%N (lit " ") (lit "15")
           (lit " ") (lit "percent")); reflexivity.
Defined.

(* ================================================================== *)
(** * Reading a PDF file in the viewer *)

Lemma startsWith_app (p s : jsstring) : startsWith p (p ++ s) = true.
Proof.
  induction p as [|x p IH]; [reflexivity|]. cbn [app startsWith].
  now rewrite N.eqb_refl, IH.
Qed.

Lemma endsWith_app (suffix s : jsstring) : App.endsWith suffix (s ++ suffix) = true.
Proof. unfold App.endsWith. rewrite rev_app_distr. apply startsWith_app. Qed.

Lemma lower_pdfSuffix (ext : jsstring) :
  pdfSuffix ext = true -> toLowerCase ext = lit ".pdf".
Proof.
  unfold pdfSuffix. destruct ext as [|a [|b [|c [|d [|e s]]]]]; try discriminate.
  intros H. apply andb_true_iff in H. destruct H as (H & Hd).
  apply andb_true_iff in H. destruct H as (H & Hc).
  apply andb_true_iff in H. destruct H as (Ha & Hb).
  apply N.eqb_eq in Ha. subst a.
  unfold one_of_ci in *.
  apply orb_true_iff in Hb. apply orb_true_iff in Hc. apply orb_true_iff in Hd.
  destruct Hb as [Hb|Hb]; apply class_cases in Hb; cbn [map In] in Hb;
    destruct Hb as [<-|[]];
    destruct Hc as [Hc|Hc]; apply class_cases in Hc; cbn [map In] in Hc;
    destruct Hc as [<-|[]];
    destruct Hd as [Hd|Hd]; apply class_cases in Hd; cbn [map In] in Hd;
    destruct Hd as [<-|[]]; reflexivity.
Qed.

Lemma lower_app (s t : jsstring) : toLowerCase (s ++ t) = toLowerCase s ++ toLowerCase t.
Proof. unfold toLowerCase. apply flat_map_app. Qed.

Lemma readFile_state (file : File) (readAsText : option jsstring)
      (typeErrorMessage : jsstring) (st : App.State) (base ext : jsstring) :
  name file = base ++ ext -> pdfSuffix ext = true ->
  App.readFile file readAsText typeErrorMessage st
  = match convertPdfToMarkdown file with
    | Resolves (Success md _ _ _) =>
        {| App.markdown := md; App.fileName := base ++ lit ".md"; App.error := [];
           App.isLoading := false; App.isPdf := true |}
    | Resolves (Failure e) =>
        {| App.markdown := App.markdown st; App.fileName := name file; App.error := e;
           App.isLoading := false; App.isPdf := true |}
    | Rejects =>
        {| App.markdown := App.markdown st; App.fileName := name file;
           App.error := lit "Failed to convert PDF: " ++ typeErrorMessage;
           App.isLoading := false; App.isPdf := true |}
    end
  /\ (forall e, convertPdfToMarkdown file = Resolves (Failure e) -> e <> []).
Proof.
  intros Hn He. unfold App.readFile.
  assert (Hp : App.endsWith (lit ".pdf") (toLowerCase (name file)) = true).
  { rewrite Hn, lower_app, (lower_pdfSuffix ext He). apply endsWith_app. }
  rewrite Hp. rewrite andb_false_r.
  destruct (convert_cases file) as [(fullText & pdf & ->)|[(e & -> & Hne)| ->]].
  - split; [|discriminate]. unfold replace_first. rewrite Hn.
    rewrite (@replace_pdf_suffix (fun _ _ => lit ".md") base ext None He).
    reflexivity.
  - destruct e as [|c e]; [discriminate|]. split; [reflexivity|].
    intros e' [= <-]. discriminate.
  - split; [reflexivity|discriminate].
Qed.

Lemma readFile_name (file : File) (readAsText : option jsstring)
      (typeErrorMessage : jsstring) (st : App.State) (base ext : jsstring) :
  name file = base ++ ext -> pdfSuffix ext = true ->
  App.fileName (App.readFile file readAsText typeErrorMessage st) = base ++ lit ".md"
  \/ (forall md originalName n i,
         convertPdfToMarkdown file <> Resolves (Success md originalName n i)).
Proof.
  intros Hn He.
  destruct (@readFile_state file readAsText typeErrorMessage st base ext Hn He) as (-> & _).
  destruct (convertPdfToMarkdown file) as [[md on n i|e]|];
    [left; reflexivity|right; discriminate|right; discriminate].
Qed.

(** X15: reading a PDF file.  For a file whose name ends in [.pdf], in
    either case of the letters, the viewer ends up not loading and in PDF
    mode; after a successful conversion it shows the converted text under
    the name with [.md] in place of the extension and no error; after a
    failed one it shows the non-empty message of the failure, under the
    name of the file that failed, and keeps the text it showed before; and
    so it does when the conversion rejects, the error then being
    'Failed to convert PDF: ' followed by the message of the [TypeError]. *)
Theorem readFile_pdf (file : File) (readAsText : option jsstring)
        (typeErrorMessage : jsstring) (st : App.State) (base ext : jsstring) :
  name file = base ++ ext -> pdfSuffix ext = true ->
  let st' := App.readFile file readAsText typeErrorMessage st in
  App.isLoading st' = false /\ App.isPdf st' = true
  /\ match convertPdfToMarkdown file with
     | Resolves (Success md _ _ _) =>
         App.markdown st' = md /\ App.fileName st' = base ++ lit ".md"
         /\ App.error st' = []
     | Resolves (Failure e) =>
         App.markdown st' = App.markdown st /\ App.fileName st' = name file
         /\ App.error st' = e /\ e <> []
     | Rejects =>
         App.markdown st' = App.markdown st /\ App.fileName st' = name file
         /\ App.error st' = lit "Failed to convert PDF: " ++ typeErrorMessage
     end.
Proof.
  intros Hn He. cbv zeta.
  destruct (@readFile_state file readAsText typeErrorMessage st base ext Hn He)
    as (-> & Hf).
  destruct (convertPdfToMarkdown file) as [[md on n i|e]|];
    cbn [App.markdown App.fileName App.error App.isLoading App.isPdf]; repeat split.
  now apply Hf.
Qed.

Lemma readFile_pdf_witness :
  let st' := App.readFile two_page_file None [] App.initial in
  App.isLoading st' = false /\ App.isPdf st' = true
  /\ App.markdown st'
     = lit "# Report **Title**" ++ NL ++ lit "Some text" ++ NL
       ++ lit "more text" ++ NL ++ NL ++ NL ++ lit "The end" ++ NL ++ NL
  /\ App.fileName st' = lit "Report.md" /\ App.error st' = [].
Proof.
  pose proof (@readFile_pdf two_page_file None [] App.initial (lit "Report") (lit ".PDF")
                eq_refl eq_refl) as H.
  cbv zeta in *. destruct H as (H1 & H2 & H3).
  split; [exact H1|split; [exact H2|]].
  revert H3. vm_compute. intros H3. exact H3.
Defined.

Lemma match_mdExtension (prev : option N) (s : jsstring) :
  match_at App.mdExtension prev s
  = match s with
    | [a; b; c] => if just 46 a && just 109 b && just 100 c then Some ([], []) else None
    | _ => None
    end.
Proof.
  unfold match_at, App.mdExtension. cbn [seq rmatch].
  destruct s as [|a [|b [|c [|d s]]]]; try reflexivity;
    try (destruct (just 46 a); reflexivity);
    try (destruct (just 46 a), (just 109 b); reflexivity);
    destruct (just 46 a), (just 109 b), (just 100 c); reflexivity.
Qed.

Lemma replace_md_suffix (f : jsstring -> caps -> jsstring) (base : jsstring)
      (prev : option N) :
  replace_first_from App.mdExtension f prev (base ++ lit ".md") = base ++ f (lit ".md") [].
Proof.
  revert prev. induction base as [|x base IH]; intros prev.
  - change (lit ".md") with ([46; 109; 100]%N). cbn [app replace_first_from].
    rewrite match_mdExtension.
    change (just 46 46 && just 109 109 && just 100 100) with true. cbv iota.
    unfold matched. cbn [List.length Nat.sub firstn]. now rewrite app_nil_r.
  - cbn [app replace_first_from].
    assert (E : match_at App.mdExtension prev (x :: base ++ lit ".md") = None).
    { rewrite match_mdExtension. destruct base as [|y [|z [|u base]]]; reflexivity. }
    rewrite E, IH. reflexivity.
Qed.

(** X16: the names round-trip.  After a PDF file was converted, the viewer
    offers the PDF export under the name of the file read, with the
    extension in lower case. *)
Theorem export_name_round_trip (file : File) (readAsText : option jsstring)
        (typeErrorMessage : jsstring) (st : App.State)
        (base ext md originalName : jsstring) (n : nat) (i : Info) :
  name file = base ++ ext -> pdfSuffix ext = true ->
  convertPdfToMarkdown file = Resolves (Success md originalName n i) ->
  App.pdfFileName (App.readFile file readAsText typeErrorMessage st) = base ++ lit ".pdf".
Proof.
  intros Hn He Hc.
  destruct (@readFile_name file readAsText typeErrorMessage st base ext Hn He) as [H|H].
  - unfold App.pdfFileName. rewrite H. unfold replace_first.
    rewrite replace_md_suffix.
    destruct base; reflexivity.
  - now apply H in Hc.
Qed.

Lemma export_name_round_trip_witness :
  App.pdfFileName (App.readFile two_page_file None [] App.initial) = lit "Report.pdf".
Proof.
  apply (@export_name_round_trip two_page_file None [] App.initial (lit "Report")
           (lit ".PDF")
           (lit "# Report **Title**" ++ NL ++ lit "Some text" ++ NL
            ++ lit "more text" ++ NL ++ NL ++ NL ++ lit "The end" ++ NL ++ NL)
           (lit "Report.md") 2 {| pages := 2 |});
    [reflexivity|reflexivity|vm_compute; reflexivity].
Defined.

(* ================================================================== *)
(** * The log window *)

Lemma floor_scaled (c a : Z) (b : positive) :
  LogAnalysis.Math_floor (inject_Z c * (a # b)) = (c * a / Zpos b)%Z.
Proof. reflexivity. Qed.

Lemma ceil_scaled (c a : Z) (b : positive) :
  LogAnalysis.Math_ceil (inject_Z c * (a # b)) = (- (- (c * a) / Zpos b))%Z.
Proof. reflexivity. Qed.

Lemma slice_length (s : jsstring) (from to : Z) :
  (0 <= from <= to)%Z -> (to <= Z.of_nat (List.length s))%Z ->
  Z.of_nat (List.length (LogAnalysis.slice s from to)) = (to - from)%Z.
Proof.
  intros H1 H2. unfold LogAnalysis.slice.
  replace (from <? 0)%Z with false by (symmetry; apply Z.ltb_ge; lia).
  replace (to <? 0)%Z with false by (symmetry; apply Z.ltb_ge; lia).
  rewrite length_firstn, length_skipn. lia.
Qed.

(** X17: the window stays on the text.  From a window start between 0 and
    the last start (the length of the trimmed log less the window size, or
    0), every move gives a start in the same range, and the window shown
    there has the window size, or the length of the whole trimmed log when
    that is shorter. *)
Theorem window_stays_on_text (direction logText : jsstring) (maxWindow windowStart : Z) :
  let len := Z.of_nat (List.length (trim logText)) in
  let maxStart := Z.max 0 (len - maxWindow) in
  (0 <= maxWindow)%Z -> (0 <= windowStart <= maxStart)%Z ->
  let moved := LogAnalysis.moveWindow direction logText maxWindow windowStart in
  (0 <= moved <= maxStart)%Z
  /\ Z.of_nat (List.length (LogAnalysis.getWindowedText logText moved maxWindow))
     = Z.min maxWindow len.
Proof.
  intros len maxStart Hm Hw moved.
  assert (Hmoved : (0 <= moved <= maxStart)%Z).
  { unfold moved, LogAnalysis.moveWindow. fold len. fold maxStart.
    destruct (JsString.eqb direction (lit "start")); [lia|].
    destruct (JsString.eqb direction (lit "end")); [lia|].
    destruct (JsString.eqb direction (lit "prev")); [lia|].
    destruct (JsString.eqb direction (lit "next")); lia. }
  split; [exact Hmoved|].
  unfold LogAnalysis.getWindowedText. fold len.
  rewrite slice_length; fold len; lia.
Qed.

Lemma window_stays_on_text_witness :
  let moved := LogAnalysis.moveWindow (lit "next") (lit "  error: disk full  ") 6 6 in
  (0 <= moved <= 10)%Z
  /\ Z.of_nat (List.length (LogAnalysis.getWindowedText (lit "  error: disk full  ") moved 6))
     = 6%Z.
Proof.
  apply (@window_stays_on_text (lit "next") (lit "  error: disk full  ") 6 6);
    vm_compute; [discriminate|split; discriminate].
Defined.

(** X18: when the request fits the context.  For a context size and a
    window length below 2^50, where the arithmetic of the code is exact:
    the estimated input tokens and the output tokens asked for are together
    at most the context size exactly when the estimate is at most the
    context size less its output quarter.  That is so whenever the estimate
    is below the input share, the request then leaving 500 tokens free, and
    whenever the window is no longer than the window size derived from this
    context size.  Nothing is said of a window cut for another context
    size, as on a retry with a reduced one. *)
Theorem request_fits_context (contextSize : Z) (windowedLog : jsstring) :
  (0 <= contextSize < 2 ^ 50)%Z ->
  (Z.of_nat (List.length windowedLog) < 2 ^ 50)%Z ->
  (LogAnalysis.estimatedInputTokens windowedLog
   + LogAnalysis.outputTokensFor contextSize windowedLog <= contextSize
   <-> LogAnalysis.estimatedInputTokens windowedLog
       <= contextSize
          - LogAnalysis.outputTokens (LogAnalysis.getTokenAllocation contextSize))%Z
  /\ ((LogAnalysis.estimatedInputTokens windowedLog
       < LogAnalysis.inputTokens (LogAnalysis.getTokenAllocation contextSize))%Z ->
      (LogAnalysis.estimatedInputTokens windowedLog
       + LogAnalysis.outputTokensFor contextSize windowedLog <= contextSize - 500)%Z)
  /\ ((Z.of_nat (List.length windowedLog) <= LogAnalysis.MAX_WINDOW_SIZE contextSize)%Z ->
      (LogAnalysis.estimatedInputTokens windowedLog
       + LogAnalysis.outputTokensFor contextSize windowedLog <= contextSize)%Z).
Proof.
  intros Hc _. unfold LogAnalysis.outputTokensFor, LogAnalysis.MAX_WINDOW_SIZE,
    LogAnalysis.getMaxInputChars, LogAnalysis.getTokenAllocation,
    LogAnalysis.estimatedInputTokens in *.
  cbn [LogAnalysis.inputTokens LogAnalysis.outputTokens] in *.
  unfold Qdiv in *. change (/ (35 # 10))%Q with (10 # 35)%Q in *.
  rewrite !floor_scaled in *. rewrite !ceil_scaled in *.
  set (len := Z.of_nat (List.length windowedLog)) in *.
  assert (Hlen : (0 <= len)%Z) by apply Nat2Z.is_nonneg.
  destruct (_ <? _)%Z eqn:E.
  - apply Z.ltb_lt in E. repeat split; intros; Z.to_euclidean_division_equations; lia.
  - apply Z.ltb_ge in E. repeat split; intros; Z.to_euclidean_division_equations; lia.
Qed.

Lemma request_fits_context_witness :
  (LogAnalysis.estimatedInputTokens (lit "error: disk full")
   + LogAnalysis.outputTokensFor 4096 (lit "error: disk full") <= 4096 - 500)%Z.
Proof.
  apply (@request_fits_context 4096 (lit "error: disk full")); vm_compute;
    first [reflexivity | discriminate | split; [discriminate|reflexivity]].
Defined.
